(** * hupsclick: timers, alarm, SOS signal scheduler and sensor acquisition

    A shallow embedding of the time-driven core of [src/index.tsx]
    (the [HologramApp] component) and the verification of its
    specification.

    The component is a React function component.  Its behaviour is the
    interplay of

    - [useState] cells, grouped below as the source groups them
      (navigation, timer, alarm, flashlight, sensor);
    - [useRef] cells holding timer ids;
    - the browser's timer pool ([setTimeout], [setInterval],
      [clearTimeout], [clearInterval]) and the [deviceorientation]
      listener list of [window];
    - [useEffect] hooks, re-run after a render in which one of their
      dependencies changed: first the cleanups of all such hooks, in
      source order, then their bodies, in source order.

    Closures handed to the browser are defunctionalised: a constructor
    of [Callback] or [Listener] stands for the arrow function of the
    source and carries the variables the arrow function captured.

    The calculator and the memo share no state, ref, timer or listener
    with the above; they are modelled on their own, after the
    component, together with the formatters and the guards of the
    render functions.

    Left out are the calendar (with its 500 ms transition timeout,
    lines 135-140), speech recognition (lines 348-401), the [<audio>]
    element the alarm effect plays and pauses (lines 119-131), which
    reads [isAlarmRinging] and writes no state, and the locale
    formatting of [formatTime] and [formatDate].  The calendar timeout
    draws its id from the pool the modelled timers use; ids are
    therefore only compared, and no general statement depends on the
    value of one.  The component is never unmounted, so the unmount
    cleanup (lines 193-202) does not run; the double mount of React's
    development-only [StrictMode] is not modelled. *)

From Stdlib Require Import ZArith List Bool String Ascii Lia QArith.
From Stdlib Require Import Qround Qminmax Qabs DecimalString DecimalPos DecimalZ Lqa.
Import ListNotations.

Local Open Scope Z_scope.
Local Open Scope list_scope.

(* ================================================================== *)
(** * Data *)
(* ================================================================== *)

(** [type ActiveHologram = 'none' | 'clock' | ...] (line 28). *)
Inductive ActiveHologram : Set :=
| h_none | h_clock | h_calendar | h_calculator | h_timer | h_alarm
| h_flashlight | h_memo | h_spirit_level | h_dictation | h_compass
| h_imprint | h_privacy.

(** [type AppState = 'start' | 'menu' | 'hologram'] (line 29). *)
Inductive AppState : Set := app_start | app_menu | app_hologram.

(** ['stopwatch' | 'countdown'] (line 52). *)
Inductive TimerMode : Set := stopwatch | countdown.

(** ['unknown' | 'prompt' | 'granted' | 'denied'] (line 78). *)
Inductive PermissionState : Set := unknown | prompt | granted | denied.

(** ['checking' | 'supported' | 'unsupported'] (line 79). *)
Inductive SensorSupportState : Set := checking | supported | unsupported.

Scheme Equality for ActiveHologram.
Scheme Equality for AppState.
Scheme Equality for TimerMode.
Scheme Equality for PermissionState.
Scheme Equality for SensorSupportState.

(** The part of a JavaScript [Date] the component reads. *)
Record Date : Set := { getHours : Z; getMinutes : Z; getSeconds : Z }.

(** A [DeviceOrientationEvent]: each angle is [number | null]. *)
Record DeviceOrientationEvent : Set :=
  { ev_alpha : option Q; ev_beta : option Q; ev_gamma : option Q }.

(** The [orientation] state object (line 77). *)
Record Orientation : Set := { alpha : Q; beta : Q; gamma : Q }.

(** One entry of [sosPattern]: [{ on, duration }]. *)
Record Signal : Set := { on : bool; duration : Z }.

(** An oscillator started by [playTone]: its wave form, frequency (Hz),
    gain, and the offset (in seconds, from the start) at which
    [oscillator.stop] was scheduled. *)
Record Tone : Set :=
  { toneSine : bool; toneFrequency : Z; toneGain : Q; toneStopAfter : Q }.

(** The functions handed to [setTimeout] and [setInterval]. *)
Inductive Callback : Set :=
| CbClock (alarmTime : option string) (isAlarmRinging : bool)
    (** the arrow function of [clockInterval], lines 99-113; it captured
        [alarmTime] and [isAlarmRinging] of its render *)
| CbTimerStep (delta : Z)
    (** [() => setTimerSeconds(seconds => seconds + delta)],
        lines 150-152 (delta -1) and 158-160 (delta 1) *)
| CbSetLight (signalOn : bool)
    (** [() => setIsSosLightVisible(signal.on)], lines 220-222 *)
| CbVisualLoop
    (** [schedulePattern] of the visual effect, line 227 *)
| CbPlayTone (signalDuration : Z)
    (** [() => playTone(signal.duration)], lines 267-269 *)
| CbAudioLoop
    (** [schedulePattern] of the audio effect, line 275 *)
| CbSensorTimeout (run : nat)
    (** the detection timeout, lines 314-317; it captured the
        [listener] closure of its effect run *).

(** The functions handed to [window.addEventListener('deviceorientation')].
    Every run of the sensor effect creates fresh closures; the number
    of the run is their identity. *)
Inductive Listener : Set :=
| LDetect (run : nat)   (** [listener], lines 298-310 *)
| LHandle (run : nat)   (** [handleOrientation], lines 287-293 *).

Definition Listener_eqb (a b : Listener) : bool :=
  match a, b with
  | LDetect n, LDetect m => Nat.eqb n m
  | LHandle n, LHandle m => Nat.eqb n m
  | _, _ => false
  end.

(** An active timer of the window: the id [setTimeout]/[setInterval]
    returned, the delay it was given, whether it repeats. *)
Record TimerEntry : Set :=
  { tid : nat; delay : Z; repeating : bool; callback : Callback }.

(* ------------------------------------------------------------------ *)
(** ** Component state, as grouped in the source *)

(** Lines 32-35. *)
Record Nav : Set :=
  { appState : AppState;
    activeHologram : ActiveHologram;
    currentDateTime : Date }.

(** "Timer State", lines 49-52. *)
Record Timer : Set :=
  { timerSeconds : Z;
    isTimerActive : bool;
    timerFinished : bool;
    timerMode : TimerMode }.

(** "Alarm State", lines 55-56. *)
Record Alarm : Set :=
  { alarmTime : option string;
    isAlarmRinging : bool }.

(** "Flashlight State", lines 59-65; [audioContextRef] holds an
    [AudioContext] or [null], of which only the presence matters. *)
Record Flashlight : Set :=
  { isFlashlightOn : bool;
    isSosActive : bool;
    isAudioSosActive : bool;
    isSosLightVisible : bool;
    sosTimeoutRef : list nat;
    sosAudioTimeoutRef : list nat;
    audioContextRef : bool }.

(** "Sensor State", lines 77-80. *)
Record Sensor : Set :=
  { orientation : Orientation;
    permissionState : PermissionState;
    sensorSupportState : SensorSupportState;
    sensorCheckTimeoutRef : option nat }.

(** What React remembers of the last run of each modelled effect: the
    dependency values of that run and what its cleanup closure
    captured. *)
Record Hooks : Set :=
  { clockDeps : option string * bool;       (** line 116 *)
    clockInterval : nat;                    (** [clockInterval], line 99 *)
    timerDeps : bool * Z * TimerMode;       (** line 165 *)
    timerInterval : option nat;             (** [timerInterval], line 145 *)
    visualDeps : bool;                      (** line 235 *)
    visualCleanup : bool;                   (** a cleanup was returned, line 234 *)
    audioDeps : bool;                       (** line 283 *)
    audioCleanup : bool;                    (** a cleanup was returned, line 282 *)
    sensorDeps : ActiveHologram * SensorSupportState * PermissionState;
                                            (** line 345 *)
    sensorRun : nat                         (** identity of the closures of the last run *) }.

(** The browser: active timers in registration order, the next timer
    id, the [deviceorientation] listeners in registration order, the
    oscillators started so far, the number of unsettled
    [DeviceMotionEvent.requestPermission()] promises, and two facts
    about the platform. *)
Record Window : Set :=
  { timers : list TimerEntry;
    nextTimerId : nat;
    listeners : list Listener;
    oscillators : list Tone;
    pendingPermission : nat;
    requestPermissionIsFunction : bool;
    hasAudioContext : bool }.

Record World : Set :=
  { nav : Nav;
    timer : Timer;
    alarm : Alarm;
    flashlight : Flashlight;
    sensor : Sensor;
    hooks : Hooks;
    window : Window }.

(* ------------------------------------------------------------------ *)
(** ** State setters

    [setX v] is the [useState] setter of [x] on its group; [on_g f]
    applies a change of group [g] to the world. *)

Definition setAppState (v : AppState) (n : Nav) : Nav :=
  {| appState := v; activeHologram := activeHologram n;
     currentDateTime := currentDateTime n |}.
Definition setActiveHologram (v : ActiveHologram) (n : Nav) : Nav :=
  {| appState := appState n; activeHologram := v;
     currentDateTime := currentDateTime n |}.
Definition setCurrentDateTime (v : Date) (n : Nav) : Nav :=
  {| appState := appState n; activeHologram := activeHologram n;
     currentDateTime := v |}.

Definition setTimerSeconds (v : Z) (t : Timer) : Timer :=
  {| timerSeconds := v; isTimerActive := isTimerActive t;
     timerFinished := timerFinished t; timerMode := timerMode t |}.
Definition setIsTimerActive (v : bool) (t : Timer) : Timer :=
  {| timerSeconds := timerSeconds t; isTimerActive := v;
     timerFinished := timerFinished t; timerMode := timerMode t |}.
Definition setTimerFinished (v : bool) (t : Timer) : Timer :=
  {| timerSeconds := timerSeconds t; isTimerActive := isTimerActive t;
     timerFinished := v; timerMode := timerMode t |}.
Definition setTimerMode (v : TimerMode) (t : Timer) : Timer :=
  {| timerSeconds := timerSeconds t; isTimerActive := isTimerActive t;
     timerFinished := timerFinished t; timerMode := v |}.

Definition setAlarmTime (v : option string) (a : Alarm) : Alarm :=
  {| alarmTime := v; isAlarmRinging := isAlarmRinging a |}.
Definition setIsAlarmRinging (v : bool) (a : Alarm) : Alarm :=
  {| alarmTime := alarmTime a; isAlarmRinging := v |}.

Definition setIsFlashlightOn (v : bool) (f : Flashlight) : Flashlight :=
  {| isFlashlightOn := v; isSosActive := isSosActive f;
     isAudioSosActive := isAudioSosActive f;
     isSosLightVisible := isSosLightVisible f;
     sosTimeoutRef := sosTimeoutRef f;
     sosAudioTimeoutRef := sosAudioTimeoutRef f;
     audioContextRef := audioContextRef f |}.
Definition setIsSosActive (v : bool) (f : Flashlight) : Flashlight :=
  {| isFlashlightOn := isFlashlightOn f; isSosActive := v;
     isAudioSosActive := isAudioSosActive f;
     isSosLightVisible := isSosLightVisible f;
     sosTimeoutRef := sosTimeoutRef f;
     sosAudioTimeoutRef := sosAudioTimeoutRef f;
     audioContextRef := audioContextRef f |}.
Definition setIsAudioSosActive (v : bool) (f : Flashlight) : Flashlight :=
  {| isFlashlightOn := isFlashlightOn f; isSosActive := isSosActive f;
     isAudioSosActive := v;
     isSosLightVisible := isSosLightVisible f;
     sosTimeoutRef := sosTimeoutRef f;
     sosAudioTimeoutRef := sosAudioTimeoutRef f;
     audioContextRef := audioContextRef f |}.
Definition setIsSosLightVisible (v : bool) (f : Flashlight) : Flashlight :=
  {| isFlashlightOn := isFlashlightOn f; isSosActive := isSosActive f;
     isAudioSosActive := isAudioSosActive f;
     isSosLightVisible := v;
     sosTimeoutRef := sosTimeoutRef f;
     sosAudioTimeoutRef := sosAudioTimeoutRef f;
     audioContextRef := audioContextRef f |}.
(** [sosTimeoutRef.current = v] *)
Definition set_sosTimeoutRef (v : list nat) (f : Flashlight) : Flashlight :=
  {| isFlashlightOn := isFlashlightOn f; isSosActive := isSosActive f;
     isAudioSosActive := isAudioSosActive f;
     isSosLightVisible := isSosLightVisible f;
     sosTimeoutRef := v;
     sosAudioTimeoutRef := sosAudioTimeoutRef f;
     audioContextRef := audioContextRef f |}.
(** [sosAudioTimeoutRef.current = v] *)
Definition set_sosAudioTimeoutRef (v : list nat) (f : Flashlight) : Flashlight :=
  {| isFlashlightOn := isFlashlightOn f; isSosActive := isSosActive f;
     isAudioSosActive := isAudioSosActive f;
     isSosLightVisible := isSosLightVisible f;
     sosTimeoutRef := sosTimeoutRef f;
     sosAudioTimeoutRef := v;
     audioContextRef := audioContextRef f |}.
(** [audioContextRef.current = v] *)
Definition set_audioContextRef (v : bool) (f : Flashlight) : Flashlight :=
  {| isFlashlightOn := isFlashlightOn f; isSosActive := isSosActive f;
     isAudioSosActive := isAudioSosActive f;
     isSosLightVisible := isSosLightVisible f;
     sosTimeoutRef := sosTimeoutRef f;
     sosAudioTimeoutRef := sosAudioTimeoutRef f;
     audioContextRef := v |}.

Definition setOrientation (v : Orientation) (s : Sensor) : Sensor :=
  {| orientation := v; permissionState := permissionState s;
     sensorSupportState := sensorSupportState s;
     sensorCheckTimeoutRef := sensorCheckTimeoutRef s |}.
Definition setPermissionState (v : PermissionState) (s : Sensor) : Sensor :=
  {| orientation := orientation s; permissionState := v;
     sensorSupportState := sensorSupportState s;
     sensorCheckTimeoutRef := sensorCheckTimeoutRef s |}.
Definition setSensorSupportState (v : SensorSupportState) (s : Sensor) : Sensor :=
  {| orientation := orientation s; permissionState := permissionState s;
     sensorSupportState := v;
     sensorCheckTimeoutRef := sensorCheckTimeoutRef s |}.
(** [sensorCheckTimeoutRef.current = v] *)
Definition set_sensorCheckTimeoutRef (v : option nat) (s : Sensor) : Sensor :=
  {| orientation := orientation s; permissionState := permissionState s;
     sensorSupportState := sensorSupportState s;
     sensorCheckTimeoutRef := v |}.

Definition on_nav (f : Nav -> Nav) (w : World) : World :=
  {| nav := f (nav w); timer := timer w; alarm := alarm w;
     flashlight := flashlight w; sensor := sensor w; hooks := hooks w;
     window := window w |}.
Definition on_timer (f : Timer -> Timer) (w : World) : World :=
  {| nav := nav w; timer := f (timer w); alarm := alarm w;
     flashlight := flashlight w; sensor := sensor w; hooks := hooks w;
     window := window w |}.
Definition on_alarm (f : Alarm -> Alarm) (w : World) : World :=
  {| nav := nav w; timer := timer w; alarm := f (alarm w);
     flashlight := flashlight w; sensor := sensor w; hooks := hooks w;
     window := window w |}.
Definition on_flashlight (f : Flashlight -> Flashlight) (w : World) : World :=
  {| nav := nav w; timer := timer w; alarm := alarm w;
     flashlight := f (flashlight w); sensor := sensor w; hooks := hooks w;
     window := window w |}.
Definition on_sensor (f : Sensor -> Sensor) (w : World) : World :=
  {| nav := nav w; timer := timer w; alarm := alarm w;
     flashlight := flashlight w; sensor := f (sensor w); hooks := hooks w;
     window := window w |}.
Definition on_hooks (f : Hooks -> Hooks) (w : World) : World :=
  {| nav := nav w; timer := timer w; alarm := alarm w;
     flashlight := flashlight w; sensor := sensor w; hooks := f (hooks w);
     window := window w |}.
Definition on_window (f : Window -> Window) (w : World) : World :=
  {| nav := nav w; timer := timer w; alarm := alarm w;
     flashlight := flashlight w; sensor := sensor w; hooks := hooks w;
     window := f (window w) |}.

(** What an effect run leaves in React's memory. *)
Definition rememberClock (d : option string * bool) (id : nat) (h : Hooks) : Hooks :=
  {| clockDeps := d; clockInterval := id;
     timerDeps := timerDeps h; timerInterval := timerInterval h;
     visualDeps := visualDeps h; visualCleanup := visualCleanup h;
     audioDeps := audioDeps h; audioCleanup := audioCleanup h;
     sensorDeps := sensorDeps h; sensorRun := sensorRun h |}.
Definition rememberTimer (d : bool * Z * TimerMode) (id : option nat) (h : Hooks) : Hooks :=
  {| clockDeps := clockDeps h; clockInterval := clockInterval h;
     timerDeps := d; timerInterval := id;
     visualDeps := visualDeps h; visualCleanup := visualCleanup h;
     audioDeps := audioDeps h; audioCleanup := audioCleanup h;
     sensorDeps := sensorDeps h; sensorRun := sensorRun h |}.
Definition rememberVisual (d : bool) (c : bool) (h : Hooks) : Hooks :=
  {| clockDeps := clockDeps h; clockInterval := clockInterval h;
     timerDeps := timerDeps h; timerInterval := timerInterval h;
     visualDeps := d; visualCleanup := c;
     audioDeps := audioDeps h; audioCleanup := audioCleanup h;
     sensorDeps := sensorDeps h; sensorRun := sensorRun h |}.
Definition rememberAudio (d : bool) (c : bool) (h : Hooks) : Hooks :=
  {| clockDeps := clockDeps h; clockInterval := clockInterval h;
     timerDeps := timerDeps h; timerInterval := timerInterval h;
     visualDeps := visualDeps h; visualCleanup := visualCleanup h;
     audioDeps := d; audioCleanup := c;
     sensorDeps := sensorDeps h; sensorRun := sensorRun h |}.
Definition rememberSensor
  (d : ActiveHologram * SensorSupportState * PermissionState) (r : nat)
  (h : Hooks) : Hooks :=
  {| clockDeps := clockDeps h; clockInterval := clockInterval h;
     timerDeps := timerDeps h; timerInterval := timerInterval h;
     visualDeps := visualDeps h; visualCleanup := visualCleanup h;
     audioDeps := audioDeps h; audioCleanup := audioCleanup h;
     sensorDeps := d; sensorRun := r |}.

(* ================================================================== *)
(** * The browser *)
(* ================================================================== *)

Definition with_timers (ts : list TimerEntry) (n : nat) (b : Window) : Window :=
  {| timers := ts; nextTimerId := n; listeners := listeners b;
     oscillators := oscillators b; pendingPermission := pendingPermission b;
     requestPermissionIsFunction := requestPermissionIsFunction b;
     hasAudioContext := hasAudioContext b |}.
Definition with_listeners (ls : list Listener) (b : Window) : Window :=
  {| timers := timers b; nextTimerId := nextTimerId b; listeners := ls;
     oscillators := oscillators b; pendingPermission := pendingPermission b;
     requestPermissionIsFunction := requestPermissionIsFunction b;
     hasAudioContext := hasAudioContext b |}.
Definition with_oscillators (os : list Tone) (b : Window) : Window :=
  {| timers := timers b; nextTimerId := nextTimerId b;
     listeners := listeners b;
     oscillators := os; pendingPermission := pendingPermission b;
     requestPermissionIsFunction := requestPermissionIsFunction b;
     hasAudioContext := hasAudioContext b |}.
Definition with_pendingPermission (n : nat) (b : Window) : Window :=
  {| timers := timers b; nextTimerId := nextTimerId b;
     listeners := listeners b;
     oscillators := oscillators b; pendingPermission := n;
     requestPermissionIsFunction := requestPermissionIsFunction b;
     hasAudioContext := hasAudioContext b |}.

(** [setTimeout]/[setInterval]: a new entry under the next id, which is
    returned. *)
Definition addTimer (rep : bool) (cb : Callback) (d : Z) (w : World)
  : nat * World :=
  let id := nextTimerId (window w) in
  (id,
   on_window
     (with_timers
        (timers (window w)
           ++ [{| tid := id; delay := d; repeating := rep; callback := cb |}])
        (S id)) w).

Definition setTimeout : Callback -> Z -> World -> nat * World := addTimer false.
Definition setInterval : Callback -> Z -> World -> nat * World := addTimer true.

(** [clearTimeout(id)]: timeouts and intervals share one pool of ids, so
    [clearInterval] is the same operation. *)
Definition clearTimeout (id : nat) (w : World) : World :=
  on_window
    (fun b =>
       with_timers (filter (fun e => negb (Nat.eqb (tid e) id)) (timers b))
         (nextTimerId b) b) w.

Definition clearInterval : nat -> World -> World := clearTimeout.

(** [window.addEventListener('deviceorientation', l)]: a listener already
    in the list is not added again. *)
Definition addEventListener (l : Listener) (w : World) : World :=
  on_window
    (fun b =>
       if existsb (Listener_eqb l) (listeners b) then b
       else with_listeners (listeners b ++ [l]) b) w.

(** [window.removeEventListener('deviceorientation', l)]. *)
Definition removeEventListener (l : Listener) (w : World) : World :=
  on_window
    (fun b =>
       with_listeners
         (filter (fun x => negb (Listener_eqb l x)) (listeners b)) b) w.

(** Truthiness of a [number | null] holding a timer id. *)
Definition truthy (r : option nat) : bool :=
  match r with
  | Some (S _) => true
  | _ => false
  end.

(* ================================================================== *)
(** * Flashlight logic (lines 167-283) *)
(* ================================================================== *)

Definition sg (o : bool) (d : Z) : Signal := {| on := o; duration := d |}.

(** Lines 168-181. *)
Definition sosPattern : list Signal :=
  [ sg true 200; sg false 200;
    sg true 200; sg false 200;
    sg true 200; sg false 700;
    sg true 600; sg false 200;
    sg true 600; sg false 200;
    sg true 600; sg false 700;
    sg true 200; sg false 200;
    sg true 200; sg false 200;
    sg true 200; sg false 2000 ].

(** [ids.forEach(clearTimeout)]. *)
Definition forEach_clearTimeout (ids : list nat) (w : World) : World :=
  fold_left (fun w id => clearTimeout id w) ids w.

(** Lines 183-186. *)
Definition clearVisualSosTimeouts (w : World) : World :=
  on_flashlight (set_sosTimeoutRef [])
    (forEach_clearTimeout (sosTimeoutRef (flashlight w)) w).

(** Lines 188-191. *)
Definition clearAudioSosTimeouts (w : World) : World :=
  on_flashlight (set_sosAudioTimeoutRef [])
    (forEach_clearTimeout (sosAudioTimeoutRef (flashlight w)) w).

(** The state threaded through [sosPattern.forEach]: the world, the
    local array [timeouts] and the variable [cumulativeDelay]. *)
Definition Pass : Set := (World * list nat * Z)%type.

(** Body of the [forEach] of the visual effect, lines 219-225. *)
Definition visualStep (acc : Pass) (signal : Signal) : Pass :=
  let '(w, timeouts, cumulativeDelay) := acc in
  let (timeoutId, w1) := setTimeout (CbSetLight (on signal)) cumulativeDelay w in
  (w1, timeouts ++ [timeoutId], cumulativeDelay + duration signal).

(** [schedulePattern] of the visual effect on a pattern, lines 214-230. *)
Definition schedulePatternVisualOn (pattern : list Signal) (w : World) : World :=
  let w0 := clearVisualSosTimeouts w in
  let '(w1, timeouts, cumulativeDelay) :=
    fold_left visualStep pattern (w0, [], 0) in
  let (loopTimeout, w2) := setTimeout CbVisualLoop cumulativeDelay w1 in
  on_flashlight (set_sosTimeoutRef (timeouts ++ [loopTimeout])) w2.

Definition schedulePatternVisual : World -> World :=
  schedulePatternVisualOn sosPattern.

(** [playTone], lines 246-256: a sine oscillator at 660 Hz and gain 0.5,
    started now and stopped [duration / 1000] seconds later. *)
Definition playTone (d : Z) (w : World) : World :=
  on_window
    (fun b =>
       with_oscillators
         (oscillators b
            ++ [{| toneSine := true; toneFrequency := 660;
                   toneGain := (1 # 2)%Q;
                   toneStopAfter := Qmake d 1000 |}]) b) w.

(** Body of the [forEach] of the audio effect, lines 265-273. *)
Definition audioStep (acc : Pass) (signal : Signal) : Pass :=
  let '(w, timeouts, cumulativeDelay) := acc in
  if on signal then
    let (timeoutId, w1) :=
      setTimeout (CbPlayTone (duration signal)) cumulativeDelay w in
    (w1, timeouts ++ [timeoutId], cumulativeDelay + duration signal)
  else (w, timeouts, cumulativeDelay + duration signal).

(** [schedulePattern] of the audio effect on a pattern, lines 260-278. *)
Definition schedulePatternAudioOn (pattern : list Signal) (w : World) : World :=
  let w0 := clearAudioSosTimeouts w in
  let '(w1, timeouts, cumulativeDelay) :=
    fold_left audioStep pattern (w0, [], 0) in
  let (loopTimeout, w2) := setTimeout CbAudioLoop cumulativeDelay w1 in
  on_flashlight (set_sosAudioTimeoutRef (timeouts ++ [loopTimeout])) w2.

Definition schedulePatternAudio : World -> World :=
  schedulePatternAudioOn sosPattern.

(* ================================================================== *)
(** * Effects

    An effect body reads component state from the render it belongs to
    ([snap]); refs and the browser are read from the current world. *)
(* ================================================================== *)

(** ** Clock and alarm checker (lines 98-116) *)

Definition clockEffect (snap w : World) : World :=
  let d := (alarmTime (alarm snap), isAlarmRinging (alarm snap)) in
  let (id, w1) := setInterval (CbClock (fst d) (snd d)) 1000 w in
  on_hooks (rememberClock d id) w1.

Definition clockCleanup (w : World) : World :=
  clearInterval (clockInterval (hooks w)) w.

(** ** Timer logic (lines 144-165) *)

Definition timerEffect (snap w : World) : World :=
  let t := timer snap in
  let d := (isTimerActive t, timerSeconds t, timerMode t) in
  if isTimerActive t then
    match timerMode t with
    | countdown =>
        if 0 <? timerSeconds t then
          let (id, w1) := setInterval (CbTimerStep (-1)) 1000 w in
          on_hooks (rememberTimer d (Some id)) w1
        else
          on_hooks (rememberTimer d None)
            (on_timer (setTimerFinished true)
               (on_timer (setIsTimerActive false) w))
    | stopwatch =>
        let (id, w1) := setInterval (CbTimerStep 1) 1000 w in
        on_hooks (rememberTimer d (Some id)) w1
    end
  else on_hooks (rememberTimer d None) w.

(** [clearInterval(undefined)] does nothing. *)
Definition timerCleanup (w : World) : World :=
  match timerInterval (hooks w) with
  | Some id => clearInterval id w
  | None => w
  end.

(** ** Visual SOS effect (lines 205-235) *)

Definition visualEffect (snap w : World) : World :=
  let d := isSosActive (flashlight snap) in
  if negb d then
    on_hooks (rememberVisual d false)
      (on_flashlight (setIsSosLightVisible true) (clearVisualSosTimeouts w))
  else
    on_hooks (rememberVisual d true) (schedulePatternVisual w).

Definition visualCleanupFn (w : World) : World :=
  if visualCleanup (hooks w) then clearVisualSosTimeouts w else w.

(** ** Audio SOS effect (lines 238-283) *)

Definition audioEffect (snap w : World) : World :=
  let d := isAudioSosActive (flashlight snap) in
  if negb d || negb (audioContextRef (flashlight w)) then
    on_hooks (rememberAudio d false) (clearAudioSosTimeouts w)
  else
    on_hooks (rememberAudio d true) (schedulePatternAudio w).

Definition audioCleanupFn (w : World) : World :=
  if audioCleanup (hooks w) then clearAudioSosTimeouts w else w.

(** ** Sensor logic (lines 286-345) *)

Definition isSensorHologram (h : ActiveHologram) : bool :=
  match h with
  | h_spirit_level | h_compass => true
  | _ => false
  end.

(** Step 1 of the effect, lines 297-318. *)
Definition sensorCheck (snap : World) (run : nat) (w : World) : World :=
  match sensorSupportState (sensor snap) with
  | checking =>
      let w1 := addEventListener (LDetect run) w in
      let (id, w2) := setTimeout (CbSensorTimeout run) 1000 w1 in
      on_sensor (set_sensorCheckTimeoutRef (Some id)) w2
  | _ => w
  end.

(** Step 2 of the effect, lines 321-334. *)
Definition sensorListen (snap : World) (run : nat) (w : World) : World :=
  match sensorSupportState (sensor snap) with
  | supported =>
      if requestPermissionIsFunction (window w) then
        match permissionState (sensor snap) with
        | granted => addEventListener (LHandle run) w
        | unknown => on_sensor (setPermissionState prompt) w
        | _ => w
        end
      else
        addEventListener (LHandle run)
          (on_sensor (setPermissionState granted) w)
  | _ => w
  end.

Definition sensorEffect (snap w : World) : World :=
  let d := (activeHologram (nav snap), sensorSupportState (sensor snap),
            permissionState (sensor snap)) in
  let run := S (sensorRun (hooks w)) in
  let w1 :=
    if isSensorHologram (activeHologram (nav snap))
    then sensorListen snap run (sensorCheck snap run w)
    else w in
  on_hooks (rememberSensor d run) w1.

(** Lines 337-344. *)
Definition sensorCleanup (w : World) : World :=
  let w1 := removeEventListener (LHandle (sensorRun (hooks w))) w in
  match sensorCheckTimeoutRef (sensor w1) with
  | Some id => if truthy (Some id) then clearTimeout id w1 else w1
  | None => w1
  end.

(* ================================================================== *)
(** * Rendering: which effects run after a state change *)
(* ================================================================== *)

Definition option_string_eqb (a b : option string) : bool :=
  match a, b with
  | Some x, Some y => String.eqb x y
  | None, None => true
  | _, _ => false
  end.

Definition clockChanged (w : World) : bool :=
  negb (option_string_eqb (fst (clockDeps (hooks w))) (alarmTime (alarm w))
        && Bool.eqb (snd (clockDeps (hooks w))) (isAlarmRinging (alarm w))).

Definition timerChanged (w : World) : bool :=
  let '(a, s, m) := timerDeps (hooks w) in
  negb (Bool.eqb a (isTimerActive (timer w))
        && (s =? timerSeconds (timer w))
        && TimerMode_beq m (timerMode (timer w))).

Definition visualChanged (w : World) : bool :=
  negb (Bool.eqb (visualDeps (hooks w)) (isSosActive (flashlight w))).

Definition audioChanged (w : World) : bool :=
  negb (Bool.eqb (audioDeps (hooks w)) (isAudioSosActive (flashlight w))).

Definition sensorChanged (w : World) : bool :=
  let '(h, s, p) := sensorDeps (hooks w) in
  negb (ActiveHologram_beq h (activeHologram (nav w))
        && SensorSupportState_beq s (sensorSupportState (sensor w))
        && PermissionState_beq p (permissionState (sensor w))).

Definition whenb (c : bool) (f : World -> World) (w : World) : World :=
  if c then f w else w.

(** One commit: the render sees the state of [w]; the cleanups of the
    effects whose dependencies changed run in source order, then their
    bodies in source order. *)
Definition commit (w : World) : World :=
  let w1 := whenb (clockChanged w) clockCleanup w in
  let w2 := whenb (timerChanged w) timerCleanup w1 in
  let w3 := whenb (visualChanged w) visualCleanupFn w2 in
  let w4 := whenb (audioChanged w) audioCleanupFn w3 in
  let w5 := whenb (sensorChanged w) sensorCleanup w4 in
  let w6 := whenb (clockChanged w) (clockEffect w) w5 in
  let w7 := whenb (timerChanged w) (timerEffect w) w6 in
  let w8 := whenb (visualChanged w) (visualEffect w) w7 in
  let w9 := whenb (audioChanged w) (audioEffect w) w8 in
  whenb (sensorChanged w) (sensorEffect w) w9.

Definition anyChanged (w : World) : bool :=
  clockChanged w || timerChanged w || visualChanged w || audioChanged w
  || sensorChanged w.

(** Effects that set state cause another render. *)
Fixpoint flush (fuel : nat) (w : World) : World :=
  match fuel with
  | O => w
  | S n => if anyChanged w then flush n (commit w) else w
  end.

Definition rerender : World -> World := flush 3.

(* ================================================================== *)
(** * Callbacks *)
(* ================================================================== *)

(** ** [String.prototype.split(':')] and [parseInt(_, 10)] *)

Definition isColon (c : ascii) : bool := Ascii.eqb c ":"%char.

Fixpoint split_colon (s : string) : list string :=
  match s with
  | EmptyString => [EmptyString]
  | String c rest =>
      if isColon c then EmptyString :: split_colon rest
      else match split_colon rest with
           | h :: t => String c h :: t
           | [] => [String c EmptyString]
           end
  end.

Definition isWhiteSpace (c : ascii) : bool :=
  let n := nat_of_ascii c in
  ((9 <=? n) && (n <=? 13))%nat || Nat.eqb n 32.

Fixpoint trimStart (s : string) : string :=
  match s with
  | String c rest => if isWhiteSpace c then trimStart rest else s
  | EmptyString => EmptyString
  end.

Definition digitOf (c : ascii) : option Z :=
  let n := nat_of_ascii c in
  if ((48 <=? n) && (n <=? 57))%nat then Some (Z.of_nat n - 48) else None.

(** The value of the longest prefix of decimal digits; [None] (NaN)
    when there is none. *)
Fixpoint digits (acc : option Z) (s : string) : option Z :=
  match s with
  | String c rest =>
      match digitOf c with
      | Some d =>
          digits (Some (10 * match acc with Some a => a | None => 0 end + d))
            rest
      | None => acc
      end
  | EmptyString => acc
  end.

(** [parseInt(x, 10)]; [x] is [None] for [undefined], the result is
    [None] for [NaN]. *)
Definition parseInt10 (x : option string) : option Z :=
  match x with
  | None => None
  | Some s =>
      match trimStart s with
      | String "-"%char rest => option_map Z.opp (digits None rest)
      | String "+"%char rest => digits None rest
      | t => digits None t
      end
  end.

(** [n === m] for a number [n] and a possibly-NaN [m]. *)
Definition strictEq (n : Z) (m : option Z) : bool :=
  match m with
  | Some v => n =? v
  | None => false
  end.

(** Truthiness of a [string | null]. *)
Definition truthyString (a : option string) : bool :=
  match a with
  | Some (String _ _) => true
  | _ => false
  end.

(** ** The clock tick (lines 99-113) *)

Definition alarmMatches (a : string) (now : Date) : bool :=
  let parts := split_colon a in
  let hours := nth_error parts 0 in
  let minutes := nth_error parts 1 in
  strictEq (getHours now) (parseInt10 hours)
  && strictEq (getMinutes now) (parseInt10 minutes)
  && (getSeconds now =? 0).

Definition clockTick (a : option string) (ringing : bool) (now : Date)
  (w : World) : World :=
  let w1 := on_nav (setCurrentDateTime now) w in
  if truthyString a && negb ringing then
    match a with
    | Some s =>
        if alarmMatches s now then on_alarm (setIsAlarmRinging true) w1
        else w1
    | None => w1
    end
  else w1.

(** ** Timers *)

Definition runCallback (cb : Callback) (now : Date) (w : World) : World :=
  match cb with
  | CbClock a r => clockTick a r now w
  | CbTimerStep d =>
      on_timer (fun t => setTimerSeconds (timerSeconds t + d) t) w
  | CbSetLight b => on_flashlight (setIsSosLightVisible b) w
  | CbVisualLoop => schedulePatternVisual w
  | CbPlayTone d => playTone d w
  | CbAudioLoop => schedulePatternAudio w
  | CbSensorTimeout run =>
      removeEventListener (LDetect run)
        (on_sensor (setSensorSupportState unsupported) w)
  end.

Definition findTimer (id : nat) (w : World) : option TimerEntry :=
  find (fun e => Nat.eqb (tid e) id) (timers (window w)).

(** The browser runs the timer [id]: nothing if it is not active; after
    the callback a timeout leaves the pool, an interval stays. *)
Definition fireTimer (id : nat) (now : Date) (w : World) : World :=
  match findTimer id w with
  | None => w
  | Some e =>
      let w1 := runCallback (callback e) now w in
      if repeating e then w1 else clearTimeout id w1
  end.

(** ** Orientation listeners *)

Definition notNull (x : option Q) : bool :=
  match x with Some _ => true | None => false end.

Definition orDefault (x : option Q) : Q :=
  match x with Some v => v | None => 0%Q end.

(** Lines 299-302 of [listener]. *)
Definition clearSensorCheck (w : World) : World :=
  match sensorCheckTimeoutRef (sensor w) with
  | Some id =>
      if truthy (Some id)
      then on_sensor (set_sensorCheckTimeoutRef None) (clearTimeout id w)
      else w
  | None => w
  end.

Definition runListener (l : Listener) (e : DeviceOrientationEvent)
  (w : World) : World :=
  match l with
  | LDetect run =>
      (* lines 298-310 *)
      let w1 := clearSensorCheck w in
      let w2 :=
        if notNull (ev_beta e) || notNull (ev_gamma e) || notNull (ev_alpha e)
        then on_sensor (setSensorSupportState supported) w1
        else on_sensor (setSensorSupportState unsupported) w1 in
      removeEventListener (LDetect run) w2
  | LHandle _ =>
      (* lines 287-293 *)
      on_sensor
        (setOrientation
           {| alpha := orDefault (ev_alpha e);
              beta := orDefault (ev_beta e);
              gamma := orDefault (ev_gamma e) |}) w
  end.

(** The browser delivers an orientation event to the listeners that
    were registered when the dispatch began and are still registered
    when their turn comes. *)
Definition deliver (e : DeviceOrientationEvent) (w : World) (l : Listener)
  : World :=
  if existsb (Listener_eqb l) (listeners (window w))
  then runListener l e w else w.

Definition deviceorientation (e : DeviceOrientationEvent) (w : World) : World :=
  fold_left (deliver e) (listeners (window w)) w.

(* ================================================================== *)
(** * Event handlers

    A handler is a closure of the last render: it reads the state of
    the world it is dispatched in and queues its updates. *)
(* ================================================================== *)

(** Lines 404-410. *)
Definition handleStartClick (w : World) : World :=
  on_nav (setAppState app_menu) w.

(** Lines 412-445; the dictation branch touches only dictation state. *)
Definition handleBackClick (w : World) : World :=
  match appState (nav w) with
  | app_hologram =>
      let h := activeHologram (nav w) in
      let w1 :=
        if ActiveHologram_beq h h_timer
        then on_timer (setTimerFinished false)
               (on_timer (setIsTimerActive false) w)
        else w in
      let w2 :=
        if ActiveHologram_beq h h_alarm && isAlarmRinging (alarm w)
        then on_alarm (setIsAlarmRinging false) w1
        else w1 in
      let w3 :=
        if ActiveHologram_beq h h_flashlight
        then clearAudioSosTimeouts
               (clearVisualSosTimeouts
                  (on_flashlight (setIsAudioSosActive false)
                     (on_flashlight (setIsSosActive false)
                        (on_flashlight (setIsFlashlightOn false) w2))))
        else w2 in
      let w4 :=
        if isSensorHologram h
        then on_sensor (setSensorSupportState checking)
               (on_sensor (setPermissionState unknown) w3)
        else w3 in
      on_nav (setAppState app_menu) (on_nav (setActiveHologram h_none) w4)
  | app_menu => on_nav (setAppState app_start) w
  | app_start => w
  end.

(** Lines 447-450. *)
Definition handleHologramSelect (hologramType : ActiveHologram) (w : World)
  : World :=
  on_nav (setAppState app_hologram)
    (on_nav (setActiveHologram hologramType) w).

(** Lines 521-527. *)
Definition handleStartStop (w : World) : World :=
  let t := timer w in
  let w1 := on_timer (setTimerFinished false) w in
  let w2 :=
    if (timerSeconds t =? 0) && negb (isTimerActive t)
    then on_timer (setTimerMode stopwatch) w1
    else w1 in
  on_timer (setIsTimerActive (negb (isTimerActive t))) w2.

(** Lines 529-534. *)
Definition handleReset (w : World) : World :=
  on_timer (setTimerMode stopwatch)
    (on_timer (setTimerFinished false)
       (on_timer (setTimerSeconds 0)
          (on_timer (setIsTimerActive false) w))).

(** Lines 536-541. *)
Definition handleSetPreset (minutes : Z) (w : World) : World :=
  on_timer (setTimerFinished false)
    (on_timer (setIsTimerActive true)
       (on_timer (setTimerSeconds (minutes * 60))
          (on_timer (setTimerMode countdown) w))).

(** Lines 553-559; [value] is the value of the time input. *)
Definition handleSetAlarm (value : string) (w : World) : World :=
  if truthyString (Some value)
  then on_alarm (setIsAlarmRinging false)
         (on_alarm (setAlarmTime (Some value)) w)
  else w.

(** Lines 561-564. *)
Definition handleClearAlarm (w : World) : World :=
  on_alarm (setIsAlarmRinging false) (on_alarm (setAlarmTime None) w).

(** Lines 566-568. *)
Definition handleStopRinging (w : World) : World :=
  on_alarm (setIsAlarmRinging false) w.

(** Lines 571-582; resuming a suspended context changes nothing that is
    modelled. *)
Definition initializeAudioContext (w : World) : World :=
  if negb (audioContextRef (flashlight w)) && hasAudioContext (window w)
  then on_flashlight (set_audioContextRef true) w
  else w.

(** Lines 584-586. *)
Definition handlePowerOn (w : World) : World :=
  on_flashlight (setIsFlashlightOn true) w.

(** Lines 588-591. *)
Definition handleSosVisual (w : World) : World :=
  on_flashlight (setIsSosActive true)
    (on_flashlight (setIsFlashlightOn true) w).

(** Lines 593-598. *)
Definition handleSosAudio (w : World) : World :=
  on_flashlight (setIsAudioSosActive true)
    (on_flashlight (setIsSosActive true)
       (on_flashlight (setIsFlashlightOn true)
          (initializeAudioContext w))).

(** Lines 641-657, up to the [await]: the promise is pending. *)
Definition handlePermissionRequest (w : World) : World :=
  if requestPermissionIsFunction (window w)
  then on_window
         (fun b => with_pendingPermission (S (pendingPermission b)) b) w
  else w.

(** How a [requestPermission()] promise settles. *)
Inductive PermissionOutcome : Set :=
| resolvedGranted   (** resolved with ['granted'] *)
| resolvedOther     (** resolved with another string *)
| rejected.

(** Lines 647-655, after the [await]. *)
Definition permissionSettled (o : PermissionOutcome) (w : World) : World :=
  match pendingPermission (window w) with
  | O => w
  | S n =>
      let w1 := on_window (with_pendingPermission n) w in
      match o with
      | resolvedGranted => on_sensor (setPermissionState granted) w1
      | _ => on_sensor (setPermissionState denied) w1
      end
  end.

(* ================================================================== *)
(** * Events *)
(* ================================================================== *)

Inductive Event : Set :=
| StartClick
| BackClick
| HologramSelect (hologramType : ActiveHologram)
| StartStopClick
| ResetClick
| PresetClick (minutes : Z)
| SetAlarmClick (value : string)
| ClearAlarmClick
| StopRingingClick
| PowerOnClick
| SosVisualClick
| SosAudioClick
| PermissionRequestClick
| PermissionSettled (o : PermissionOutcome)
| TimerFire (id : nat) (now : Date)
| DeviceOrientation (e : DeviceOrientationEvent).

(** The handler or callback an event runs. *)
Definition handle (ev : Event) (w : World) : World :=
  match ev with
  | StartClick => handleStartClick w
  | BackClick => handleBackClick w
  | HologramSelect h => handleHologramSelect h w
  | StartStopClick => handleStartStop w
  | ResetClick => handleReset w
  | PresetClick m => handleSetPreset m w
  | SetAlarmClick v => handleSetAlarm v w
  | ClearAlarmClick => handleClearAlarm w
  | StopRingingClick => handleStopRinging w
  | PowerOnClick => handlePowerOn w
  | SosVisualClick => handleSosVisual w
  | SosAudioClick => handleSosAudio w
  | PermissionRequestClick => handlePermissionRequest w
  | PermissionSettled o => permissionSettled o w
  | TimerFire id now => fireTimer id now w
  | DeviceOrientation e => deviceorientation e w
  end.

(** [renderHologram(activeHologram)] is reached only in the app state
    ['hologram'] (line 1183). *)
Definition shown (h : ActiveHologram) (w : World) : bool :=
  AppState_beq (appState (nav w)) app_hologram
  && ActiveHologram_beq (activeHologram (nav w)) h.

(** Whether the render of [w] offers the control of a click event
    (rendered and not [disabled]); browser events are always possible. *)
Definition enabled (ev : Event) (w : World) : bool :=
  let t := timer w in
  let done := timerFinished t && (timerSeconds t =? 0) in
  match ev with
  | StartClick => AppState_beq (appState (nav w)) app_start
  | BackClick => negb (AppState_beq (appState (nav w)) app_start)
  | HologramSelect _ => true
  | StartStopClick => shown h_timer w && negb done
  | ResetClick => shown h_timer w
  | PresetClick m =>
      shown h_timer w && negb (isTimerActive t || done)
      && ((m =? 1) || (m =? 5) || (m =? 10))
  | SetAlarmClick _ => shown h_alarm w && negb (isAlarmRinging (alarm w))
  | ClearAlarmClick =>
      shown h_alarm w && negb (isAlarmRinging (alarm w))
      && truthyString (alarmTime (alarm w))
  | StopRingingClick => shown h_alarm w && isAlarmRinging (alarm w)
  | PowerOnClick | SosVisualClick | SosAudioClick =>
      shown h_flashlight w && negb (isFlashlightOn (flashlight w))
  | PermissionRequestClick =>
      (shown h_spirit_level w || shown h_compass w)
      && SensorSupportState_beq (sensorSupportState (sensor w)) supported
      && PermissionState_beq (permissionState (sensor w)) prompt
  | PermissionSettled _ => true
  | TimerFire _ _ => true
  | DeviceOrientation _ => true
  end.

(** An event runs its handler, then React renders and flushes effects. *)
Definition invoke (ev : Event) (w : World) : World := rerender (handle ev w).

Definition dispatch (ev : Event) (w : World) : World :=
  if enabled ev w then invoke ev w else w.

Definition run (evs : list Event) (w : World) : World :=
  fold_left (fun w ev => dispatch ev w) evs w.

(* ================================================================== *)
(** * The mounted component *)
(* ================================================================== *)

(** The [useState] initial values, empty refs, an empty browser.  Timer
    ids start at 1. *)
Definition unmounted (now : Date) (reqPerm audioCtx : bool) : World :=
  {| nav := {| appState := app_start; activeHologram := h_none;
               currentDateTime := now |};
     timer := {| timerSeconds := 0; isTimerActive := false;
                 timerFinished := false; timerMode := stopwatch |};
     alarm := {| alarmTime := None; isAlarmRinging := false |};
     flashlight := {| isFlashlightOn := false; isSosActive := false;
                      isAudioSosActive := false; isSosLightVisible := true;
                      sosTimeoutRef := []; sosAudioTimeoutRef := [];
                      audioContextRef := false |};
     sensor := {| orientation := {| alpha := 0%Q; beta := 0%Q; gamma := 0%Q |};
                  permissionState := unknown;
                  sensorSupportState := checking;
                  sensorCheckTimeoutRef := None |};
     hooks := {| clockDeps := (None, false); clockInterval := 0;
                 timerDeps := (false, 0, stopwatch); timerInterval := None;
                 visualDeps := false; visualCleanup := false;
                 audioDeps := false; audioCleanup := false;
                 sensorDeps := (h_none, checking, unknown); sensorRun := 0 |};
     window := {| timers := []; nextTimerId := 1; listeners := [];
                  oscillators := []; pendingPermission := 0;
                  requestPermissionIsFunction := reqPerm;
                  hasAudioContext := audioCtx |} |}.

(** Mounting runs every effect body once, in source order. *)
Definition mount (w : World) : World :=
  sensorEffect w (audioEffect w (visualEffect w (timerEffect w (clockEffect w w)))).

Definition initialWorld (now : Date) (reqPerm audioCtx : bool) : World :=
  rerender (mount (unmounted now reqPerm audioCtx)).

Inductive reachable : World -> Prop :=
| reach_init now reqPerm audioCtx :
    reachable (initialWorld now reqPerm audioCtx)
| reach_step w ev : reachable w -> reachable (dispatch ev w).

(* ================================================================== *)
(** * Formatters and views

    What the render functions compute from the state, and the two
    features whose state no effect above reads: the calculator and the
    memo. *)
(* ================================================================== *)

(** ** [formatTimer] (lines 668-672) *)

(** [Number.prototype.toString()] of an integer. *)
Definition toString (n : Z) : string := NilZero.string_of_int (Z.to_int n).

Fixpoint repeatString (n : nat) (p : string) : string :=
  match n with
  | O => EmptyString
  | S k => p ++ repeatString k p
  end.

(** [String.prototype.padStart(targetLength, padString)]: the pad
    string is repeated and cut to the missing length. *)
Definition padStart (targetLength : nat) (padString s : string) : string :=
  let len := String.length s in
  if (targetLength <=? len)%nat || String.eqb padString EmptyString then s
  else
    let missing := (targetLength - len)%nat in
    substring 0 missing (repeatString missing padString) ++ s.


(** ** [getCardinalDirection] (lines 674-679) and the compass view *)

(** [Math.round]: the nearest integer, a tie going up. *)
Definition Math_round (x : Q) : Z := Qfloor (x + (1 # 2)).

(** Rounding towards zero. *)
Definition Qtrunc (x : Q) : Z :=
  if Qle_bool 0 x then Qfloor x else Qceiling x.

(** [a % b] on numbers: the remainder of the division truncated
    towards zero. *)
Definition jsRem (a b : Q) : Q := a - b * inject_Z (Qtrunc (a / b)).

Definition directions : list string :=
  ["N"; "NE"; "E"; "SE"; "S"; "SW"; "W"; "NW"]%string.

(** [directions[index]] is [undefined] ([None]) when [index] is not an
    index of the array.  The source calls the function on the integer
    [Math.round] returned, on which its floating-point operations are
    exact. *)
Definition getCardinalDirection (alpha : Q) : option string :=
  let index := Qfloor (jsRem (alpha + (45 # 2)) 360 / 45) in
  if index <? 0 then None else nth_error directions (Z.to_nat index).

(** What [renderCompass] shows (lines 929-937): the heading, its
    cardinal direction and the rotation of the rose. *)
Record CompassView : Set :=
  { degrees : Z; cardinal : option string; roseRotation : Z }.

Definition compassView (o : Orientation) : CompassView :=
  let heading := Math_round (alpha o) in
  {| degrees := heading;
     cardinal := getCardinalDirection (inject_Z heading);
     roseRotation := - heading |}.

(** ** The spirit level view (lines 898-907) *)

Record SpiritLevelView : Set :=
  { tilt : Q; tubeX : Q; bullseyeX : Q; bullseyeY : Q; isLevel : bool }.

(** Numbers are taken as rationals; the rounding of the two divisions
    and multiplications is left out.  [isLevel] is
    [Math.abs(gamma) < 1 && Math.abs(beta) < 1]. *)
Definition spiritLevelView (o : Orientation) : SpiritLevelView :=
  let g := Qmax (-90) (Qmin 90 (gamma o)) in
  let b := Qmax (-90) (Qmin 90 (beta o)) in
  {| tilt := g;
     tubeX := (g / 90) * 110;
     bullseyeX := (g / 90) * 45;
     bullseyeY := (b / 90) * 45;
     isLevel := negb (Qle_bool 1 (Qabs g)) && negb (Qle_bool 1 (Qabs b)) |}.

(** ** What a sensor feature renders (lines 864-895, 925-927) *)





(* ================================================================== *)
(** * Calculator (lines 453-518)

    The display is a string; the arithmetic is that of JavaScript
    numbers, of which the component uses the operations below. *)
(* ================================================================== *)

Class JsNumber : Type :=
  { number : Type;
    parseFloat : string -> number;
    numberToString : number -> string;   (** [String(x)] *)
    literal : Z -> number;               (** [-1], [100] *)
    add : number -> number -> number;
    sub : number -> number -> number;
    mul : number -> number -> number;
    div : number -> number -> number;
    Math_sqrt : number -> number }.

Record CalcState {N : JsNumber} : Type :=
  { display : string;
    memory : option number;
    operator : option string;
    isFreshEntry : bool }.

Arguments CalcState N : clear implicits.

Section Calculator.

Context {N : JsNumber}.

(** Lines 453-461. *)
Definition performCalculation (a b : number) (op : string) : number :=
  if String.eqb op "+" then add a b
  else if String.eqb op "-" then sub a b
  else if String.eqb op "*" then mul a b
  else if String.eqb op "/" then div a b
  else b.

(** [/\d/.test(input)]. *)
Definition isDigit (c : ascii) : bool :=
  let n := nat_of_ascii c in ((48 <=? n) && (n <=? 57))%nat.

Fixpoint hasDigit (s : string) : bool :=
  match s with
  | EmptyString => false
  | String c rest => isDigit c || hasDigit rest
  end.

(** [display.includes('.')]. *)
Fixpoint includesDot (s : string) : bool :=
  match s with
  | EmptyString => false
  | String c rest => Ascii.eqb c "." || includesDot rest
  end.

Definition isOperator (input : string) : bool :=
  existsb (String.eqb input) ["+"; "-"; "*"; "/"]%string.

Definition calcInitial : CalcState N :=
  {| display := "0"; memory := None; operator := None; isFreshEntry := true |}.

(** Lines 463-518: the state [handleCalcInput] sets; the state is left
    as it is where the handler returns without setting it. *)
Definition handleCalcInput (input : string) (st : CalcState N) : CalcState N :=
  if hasDigit input then
    if isFreshEntry st then
      {| display := input; memory := memory st; operator := operator st;
         isFreshEntry := false |}
    else
      {| display := if String.eqb (display st) "0" then input
                    else display st ++ input;
         memory := memory st; operator := operator st;
         isFreshEntry := isFreshEntry st |}
  else if String.eqb input "." then
    if isFreshEntry st then
      {| display := "0."; memory := memory st; operator := operator st;
         isFreshEntry := false |}
    else if negb (includesDot (display st)) then
      {| display := display st ++ "."; memory := memory st;
         operator := operator st; isFreshEntry := isFreshEntry st |}
    else st
  else if isOperator input then
    let currentValue := parseFloat (display st) in
    match operator st, memory st with
    | Some op, Some m =>
        if truthyString (Some op) && negb (isFreshEntry st) then
          let result := performCalculation m currentValue op in
          {| display := numberToString result; memory := Some result;
             operator := Some input; isFreshEntry := true |}
        else
          {| display := display st; memory := Some currentValue;
             operator := Some input; isFreshEntry := true |}
    | _, _ =>
        {| display := display st; memory := Some currentValue;
           operator := Some input; isFreshEntry := true |}
    end
  else if String.eqb input "=" then
    match operator st, memory st with
    | Some op, Some m =>
        if truthyString (Some op) then
          let result := performCalculation m (parseFloat (display st)) op in
          {| display := numberToString result; memory := None;
             operator := None; isFreshEntry := true |}
        else st
    | _, _ => st
    end
  else if String.eqb input "C" then calcInitial
  else if String.eqb input "±" then
    {| display :=
         numberToString (mul (parseFloat (display st)) (literal (-1)));
       memory := memory st; operator := operator st;
       isFreshEntry := isFreshEntry st |}
  else if String.eqb input "%" then
    {| display :=
         numberToString (div (parseFloat (display st)) (literal 100));
       memory := memory st; operator := operator st; isFreshEntry := true |}
  else if String.eqb input "√" then
    {| display := numberToString (Math_sqrt (parseFloat (display st)));
       memory := memory st; operator := operator st; isFreshEntry := true |}
  else st.

(** The buttons [renderCalculator] offers (lines 720-726). *)
Definition buttons : list string :=
  [ "C"; "√"; "%"; "/";
    "7"; "8"; "9"; "*";
    "4"; "5"; "6"; "-";
    "1"; "2"; "3"; "+";
    "0"; "."; "±"; "=" ]%string.

(** A sequence of button presses. *)
Definition press (inputs : list string) (st : CalcState N) : CalcState N :=
  fold_left (fun st input => handleCalcInput input st) inputs st.

End Calculator.

(* ================================================================== *)
(** * Memo (lines 68, 84-94, 601-614, 822-836)

    The note and the item ['hologram-note'] of [localStorage]; [None]
    is a missing item.  [setItem] is taken to succeed. *)
(* ================================================================== *)

Record Memo : Set :=
  { noteContent : string;
    storageItem : option string;
    (** the [noteContent] the save effect last ran for *)
    saveDeps : option string }.

(** The save effect (lines 92-94), run when [noteContent] is not the
    one it last ran for. *)
Definition memoCommit (m : Memo) : Memo :=
  if option_string_eqb (saveDeps m) (Some (noteContent m)) then m
  else {| noteContent := noteContent m;
          storageItem := Some (noteContent m);
          saveDeps := Some (noteContent m) |}.

(** The first render and its effects: the load effect (lines 84-89)
    reads the item and, when it is a non-empty string, sets the note;
    the save effect of that render still sees the empty note. *)
Definition memoMount (item : option string) : Memo :=
  let loaded := if truthyString item
                then match item with Some s => s | None => EmptyString end
                else EmptyString in
  memoCommit {| noteContent := loaded;
                storageItem := Some EmptyString;
                saveDeps := Some EmptyString |}.

Inductive MemoEvent : Set :=
| NoteChange (value : string)    (** [onChange] of the text area *)
| ClearNote                      (** [handleClearNote] *)
| PrintNote.                     (** [handlePrintNote]: no state is set *)

Definition memoHandle (ev : MemoEvent) (m : Memo) : Memo :=
  match ev with
  | NoteChange value =>
      {| noteContent := value; storageItem := storageItem m;
         saveDeps := saveDeps m |}
  | ClearNote =>
      {| noteContent := EmptyString; storageItem := storageItem m;
         saveDeps := saveDeps m |}
  | PrintNote => m
  end.

Definition memoStep (m : Memo) (ev : MemoEvent) : Memo :=
  memoCommit (memoHandle ev m).

Definition memoRun (evs : list MemoEvent) (m : Memo) : Memo :=
  fold_left memoStep evs m.
(* ================================================================== *)
(** * Notions used to state and prove the properties *)
(* ================================================================== *)

(** ** Scheduling passes in closed form *)

(** The entries an id list does not name. *)
Definition notIn (ids : list nat) (e : TimerEntry) : bool :=
  negb (existsb (Nat.eqb (tid e)) ids).

(** [ids.forEach(clearTimeout)] in one step. *)
Definition dropTimers (ids : list nat) (w : World) : World :=
  on_window
    (fun b => with_timers (filter (notIn ids) (timers b)) (nextTimerId b) b) w.

(** Registering a batch of timers under consecutive ids. *)
Definition pushTimers (new : list TimerEntry) (w : World) : World :=
  on_window
    (fun b =>
       with_timers (timers b ++ new) (List.length new + nextTimerId b)%nat b) w.

(** Total duration of a pattern; the offset of step [k] is the total
    duration of the [k] steps before it. *)
Fixpoint totalDuration (pattern : list Signal) : Z :=
  match pattern with
  | [] => 0
  | s :: rest => duration s + totalDuration rest
  end.

Definition offsetOf (k : nat) (pattern : list Signal) : Z :=
  totalDuration (firstn k pattern).

(** The timeouts one [forEach] of the visual effect registers, from
    timer id [id] and delay [offset] on. *)
Fixpoint lightEntries (pattern : list Signal) (id : nat) (offset : Z)
  : list TimerEntry :=
  match pattern with
  | [] => []
  | s :: rest =>
      {| tid := id; delay := offset; repeating := false;
         callback := CbSetLight (on s) |}
      :: lightEntries rest (S id) (offset + duration s)
  end.

(** The timeouts one [forEach] of the audio effect registers. *)
Fixpoint toneEntries (pattern : list Signal) (id : nat) (offset : Z)
  : list TimerEntry :=
  match pattern with
  | [] => []
  | s :: rest =>
      if on s then
        {| tid := id; delay := offset; repeating := false;
           callback := CbPlayTone (duration s) |}
        :: toneEntries rest (S id) (offset + duration s)
      else toneEntries rest id (offset + duration s)
  end.

(** The timeouts of one run of the visual channel, registered from
    timer id [base] on: one per step, then the loop restart. *)
Definition visualRunOn (pattern : list Signal) (base : nat) : list TimerEntry :=
  let lights := lightEntries pattern base 0 in
  lights
  ++ [{| tid := (List.length lights + base)%nat; delay := totalDuration pattern;
         repeating := false; callback := CbVisualLoop |}].

(** The timeouts of one run of the audio channel. *)
Definition audioRunOn (pattern : list Signal) (base : nat) : list TimerEntry :=
  let tones := toneEntries pattern base 0 in
  tones
  ++ [{| tid := (List.length tones + base)%nat; delay := totalDuration pattern;
         repeating := false; callback := CbAudioLoop |}].

Definition visualRun : nat -> list TimerEntry := visualRunOn sosPattern.
Definition audioRun : nat -> list TimerEntry := audioRunOn sosPattern.

(** ** Views of the world *)

Definition clockDepsOf (w : World) : option string * bool :=
  (alarmTime (alarm w), isAlarmRinging (alarm w)).
Definition timerDepsOf (w : World) : bool * Z * TimerMode :=
  (isTimerActive (timer w), timerSeconds (timer w), timerMode (timer w)).
Definition sensorDepsOf (w : World)
  : ActiveHologram * SensorSupportState * PermissionState :=
  (activeHologram (nav w), sensorSupportState (sensor w),
   permissionState (sensor w)).

Definition hClockDeps (w : World) := clockDeps (hooks w).
Definition hTimerDeps (w : World) := timerDeps (hooks w).
Definition hVisualDeps (w : World) := visualDeps (hooks w).
Definition hAudioDeps (w : World) := audioDeps (hooks w).
Definition hSensorDeps (w : World) := sensorDeps (hooks w).
Definition hClock (w : World) : (option string * bool) * nat :=
  (clockDeps (hooks w), clockInterval (hooks w)).
Definition hTimer (w : World) : option nat := timerInterval (hooks w).

Definition isSosActiveOf (w : World) := isSosActive (flashlight w).
Definition isAudioSosActiveOf (w : World) := isAudioSosActive (flashlight w).
Definition isFlashlightOnOf (w : World) := isFlashlightOn (flashlight w).
Definition isSosLightVisibleOf (w : World) := isSosLightVisible (flashlight w).
Definition audioContextRefOf (w : World) := audioContextRef (flashlight w).
Definition sosTimeoutRefOf (w : World) := sosTimeoutRef (flashlight w).
Definition sosAudioTimeoutRefOf (w : World) := sosAudioTimeoutRef (flashlight w).
Definition sensorSupportStateOf (w : World) := sensorSupportState (sensor w).
Definition orientationOf (w : World) := orientation (sensor w).
Definition permissionStateOf (w : World) := permissionState (sensor w).
Definition sensorRefOf (w : World) := sensorCheckTimeoutRef (sensor w).
Definition timerSecondsOf (w : World) := timerSeconds (timer w).
Definition timerModeOf (w : World) := timerMode (timer w).
Definition tones (w : World) := oscillators (window w).
Definition pendingOf (w : World) := pendingPermission (window w).
Definition requestPermissionOf (w : World) :=
  requestPermissionIsFunction (window w).
Definition hasAudioContextOf (w : World) := hasAudioContext (window w).
Definition listenersOf (w : World) := listeners (window w).
Definition nextId (w : World) : nat := nextTimerId (window w).

(** No effect is due: the dependencies React remembers are those of
    the current state. *)
Definition stable (w : World) : Prop := anyChanged w = false.

(** A running countdown has reached zero (line 153). *)
Definition timerExpired (t : Timer) : bool :=
  isTimerActive t && TimerMode_beq (timerMode t) countdown
  && negb (0 <? timerSeconds t).

(** What the timer effect then does (lines 154-155). *)
Definition expire (t : Timer) : Timer :=
  setTimerFinished true (setIsTimerActive false t).

(** The permission state the sensor effect leaves (lines 321-334). *)
Definition negotiate (reqPerm : bool) (h : ActiveHologram)
  (s : SensorSupportState) (p : PermissionState) : PermissionState :=
  if isSensorHologram h then
    match s with
    | supported =>
        if reqPerm then match p with unknown => prompt | _ => p end
        else granted
    | _ => p
    end
  else p.

(** ** Who registered a timer *)

Inductive Owner : Set := OClock | OTimer | OVisual | OAudio | OSensor.

Definition owner (cb : Callback) : Owner :=
  match cb with
  | CbClock _ _ => OClock
  | CbTimerStep _ => OTimer
  | CbSetLight _ | CbVisualLoop => OVisual
  | CbPlayTone _ | CbAudioLoop => OAudio
  | CbSensorTimeout _ => OSensor
  end.

Definition Owner_eqb (a b : Owner) : bool :=
  match a, b with
  | OClock, OClock | OTimer, OTimer | OVisual, OVisual
  | OAudio, OAudio | OSensor, OSensor => true
  | _, _ => false
  end.

Definition ownedBy (o : Owner) (e : TimerEntry) : bool :=
  Owner_eqb (owner (callback e)) o.

(** The active timers of one owner: the callbacks of that owner that
    can still fire. *)
Definition pending (o : Owner) (w : World) : list TimerEntry :=
  filter (ownedBy o) (timers (window w)).

Definition NoPending (o : Owner) (w : World) : Prop := pending o w = [].

(** [w'] has the active timers of [w], less some, plus new ones of
    owner [o] under fresh ids. *)
Definition Adds (o : Owner) (w w' : World) : Prop :=
  (nextId w <= nextId w')%nat /\
  forall e, In e (timers (window w')) ->
    In e (timers (window w))
    \/ (owner (callback e) = o /\ (nextId w <= tid e < nextId w')%nat).

(** ** Invariants *)

(** Timer ids are positive and below the next id. *)
Definition IdsOK (w : World) : Prop :=
  (1 <= nextId w)%nat /\
  forall e, In e (timers (window w)) -> (1 <= tid e < nextId w)%nat.

(** The only clock interval is the one of the last run of the clock
    effect; it captured the dependencies of that run. *)
Definition ClockOK (w : World) : Prop :=
  forall e, In e (pending OClock w) ->
    callback e = CbClock (fst (clockDeps (hooks w))) (snd (clockDeps (hooks w)))
    /\ tid e = clockInterval (hooks w).

(** The only timer interval is the one the timer effect holds. *)
Definition TimerOK (w : World) : Prop :=
  forall e, In e (pending OTimer w) -> timerInterval (hooks w) = Some (tid e).

(** Every pending timeout of the visual channel belongs to the run
    whose ids [sosTimeoutRef] holds. *)
Definition VisualOK (w : World) : Prop :=
  pending OVisual w = []
  \/ exists base,
       incl (pending OVisual w) (visualRun base)
       /\ sosTimeoutRefOf w = map tid (visualRun base).

Definition AudioOK (w : World) : Prop :=
  pending OAudio w = []
  \/ exists base,
       incl (pending OAudio w) (audioRun base)
       /\ sosAudioTimeoutRefOf w = map tid (audioRun base).

(** The only detection timeout is the one [sensorCheckTimeoutRef] names. *)
Definition SensorOK (w : World) : Prop :=
  forall e, In e (pending OSensor w) -> sensorRefOf w = Some (tid e).

Definition Struct (w : World) : Prop :=
  IdsOK w /\ ClockOK w /\ TimerOK w /\ VisualOK w /\ AudioOK w /\ SensorOK w.

(** What holds of every world the component can be in. *)
Definition Inv (w : World) : Prop := stable w /\ Struct w.

(** ** Timer runs *)

(** One tick of the interval the timer effect holds (none: no tick can
    be delivered). *)
Definition timerTick (now : Date) (w : World) : World :=
  match timerInterval (hooks w) with
  | Some id => dispatch (TimerFire id now) w
  | None => w
  end.

Definition ticks (nows : list Date) (w : World) : World :=
  fold_left (fun w now => timerTick now w) nows w.

Definition countdownAt (s : Z) : Timer :=
  {| timerSeconds := s; isTimerActive := true; timerFinished := false;
     timerMode := countdown |}.

Definition countdownDone : Timer :=
  {| timerSeconds := 0; isTimerActive := false; timerFinished := true;
     timerMode := countdown |}.

(** The interval of a running countdown (lines 150-152). *)
Definition stepEntry (id : nat) : TimerEntry :=
  {| tid := id; delay := 1000; repeating := true;
     callback := CbTimerStep (-1) |}.

(** Only the timer effect is due. *)
Definition onlyTimerDue (x : World) : Prop :=
  clockChanged x = false /\ visualChanged x = false /\ audioChanged x = false
  /\ sensorChanged x = false /\ timerChanged x = true.

(** A one-minute countdown with [k] ticks behind it. *)
Definition Running (k : nat) (w : World) : Prop :=
  reachable w
  /\ timer w = countdownAt (60 - Z.of_nat k)
  /\ exists id, timerInterval (hooks w) = Some id
                /\ findTimer id w = Some (stepEntry id).

Definition Finished (w : World) : Prop :=
  reachable w /\ timer w = countdownDone /\ timerInterval (hooks w) = None.

(** ** Signal runs *)

(** The oscillator [playTone(d)] starts. *)
Definition toneOf (d : Z) : Tone :=
  {| toneSine := true; toneFrequency := 660; toneGain := (1 # 2)%Q;
     toneStopAfter := Qmake d 1000 |}.

Definition delayAndCallback (e : TimerEntry) : Z * Callback :=
  (delay e, callback e).

Definition isToneStart (e : TimerEntry) : bool :=
  match callback e with
  | CbPlayTone _ => true
  | _ => false
  end.

(** Both channels are silent: no run is active and no callback of a
    run is pending. *)
Definition Silent (w : World) : Prop :=
  isSosActive (flashlight w) = false
  /\ isAudioSosActive (flashlight w) = false
  /\ pending OVisual w = []
  /\ pending OAudio w = [].

(** The browser runs timer [fst f] at time [snd f]. *)
Definition fire (f : nat * Date) : Event := TimerFire (fst f) (snd f).

(** ** Capability detection *)

(** What the detection listener makes of an event (lines 304-308). *)
Definition detected (e : DeviceOrientationEvent) : SensorSupportState :=
  if notNull (ev_beta e) || notNull (ev_gamma e) || notNull (ev_alpha e)
  then supported else unsupported.

(** No detection listener is registered. *)
Definition NoDetect (w : World) : Prop :=
  forall r, ~ In (LDetect r) (listeners (window w)).

(** Detection has ended with capability [s]: no detection listener and
    no detection timeout is left. *)
Definition Decided (s : SensorSupportState) (w : World) : Prop :=
  s <> checking
  /\ sensorSupportState (sensor w) = s
  /\ NoDetect w
  /\ NoPending OSensor w.

(** The only [handleOrientation] registered is the one of the last run
    of the sensor effect. *)
Definition ListenOK (w : World) : Prop :=
  forall r, In (LHandle r) (listeners (window w)) -> r = sensorRun (hooks w).

Definition NoHandle (w : World) : Prop :=
  forall r, ~ In (LHandle r) (listeners (window w)).

(** The sensor effect, run in [x], starts no detection. *)
Definition detectionOff (x : World) : Prop :=
  sensorSupportState (sensor x) <> checking
  \/ isSensorHologram (activeHologram (nav x)) = false.

(** ** Sample runs *)

Definition t0729 : Date :=
  {| getHours := 7; getMinutes := 29; getSeconds := 59 |}.
Definition t0730 : Date :=
  {| getHours := 7; getMinutes := 30; getSeconds := 0 |}.

(** A platform with [requestPermission] and an [AudioContext]. *)
Definition world0 : World := initialWorld t0729 true true.

Definition alarmSet : World :=
  run [StartClick; HologramSelect h_alarm; SetAlarmClick "07:30"] world0.
Definition alarmRinging : World := dispatch (TimerFire 2 t0730) alarmSet.

Definition timerShown : World := run [StartClick; HologramSelect h_timer] world0.
Definition timerRunning : World :=
  run [PresetClick 1; TimerFire 2 t0729; TimerFire 3 t0730] timerShown.

(** Both SOS channels running, the first light transition and the
    first tone start behind them. *)
Definition sosRunning : World :=
  run [StartClick; HologramSelect h_flashlight; SosAudioClick;
       TimerFire 2 t0729; TimerFire 21 t0729] world0.

(** An orientation event that carries a heading. *)
Definition heading : DeviceOrientationEvent :=
  {| ev_alpha := Some (1 # 1)%Q; ev_beta := None; ev_gamma := None |}.

Definition compassGranted : World :=
  run [StartClick; HologramSelect h_compass; DeviceOrientation heading;
       PermissionRequestClick; PermissionSettled resolvedGranted] world0.

(** The spirit level entered and still detecting. *)
Definition levelChecking : World :=
  run [StartClick; HologramSelect h_spirit_level] world0.
(** ... left before detection ended ... *)
Definition levelLeft : World := dispatch BackClick levelChecking.
(** ... and entered again. *)
Definition levelAgain : World :=
  dispatch (HologramSelect h_spirit_level) levelLeft.
(** The detection timeout of the second activation fires. *)
Definition levelTimedOut : World := dispatch (TimerFire 3 t0730) levelAgain.
(* ================================================================== *)
(** * Notions used for the formatters and views *)
(* ================================================================== *)


Fixpoint allDigits (s : string) : bool :=
  match s with
  | EmptyString => true
  | String c rest => isDigit c && allDigits rest
  end.

(** A non-empty string of decimal digits. *)
Definition numeral (s : string) : Prop :=
  allDigits s = true /\ s <> EmptyString.


(** The value of an [<input type="time">]: hours and minutes with two
    digits each, and seconds after a second colon when the control
    has them. *)
Definition timeValue (h m : Z) (seconds : option string) : string :=
  padStart 2 "0" (toString h) ++ ":" ++ padStart 2 "0" (toString m)
  ++ match seconds with
     | Some s => ":" ++ s
     | None => EmptyString
     end.

(** ** Calculator keys *)

Inductive Digit : Set := k0 | k1 | k2 | k3 | k4 | k5 | k6 | k7 | k8 | k9.

Definition digitChar (d : Digit) : ascii :=
  match d with
  | k0 => "0" | k1 => "1" | k2 => "2" | k3 => "3" | k4 => "4"
  | k5 => "5" | k6 => "6" | k7 => "7" | k8 => "8" | k9 => "9"
  end%char.

Definition digitKey (d : Digit) : string := String (digitChar d) EmptyString.

Inductive EntryKey : Set := Num (d : Digit) | Dot.

Definition entryKey (k : EntryKey) : string :=
  match k with
  | Num d => digitKey d
  | Dot => "."%string
  end.

Inductive Op : Set := Plus | Minus | Times | Divide.

Definition opKey (o : Op) : string :=
  match o with
  | Plus => "+" | Minus => "-" | Times => "*" | Divide => "/"
  end%string.

(** The digits typed, less the zeros in front of them. *)
Fixpoint stripZeros (ds : list Digit) : list Digit :=
  match ds with
  | k0 :: (_ :: _) as rest => stripZeros rest
  | _ => ds
  end.

Fixpoint text (ds : list Digit) : string :=
  match ds with
  | [] => EmptyString
  | d :: rest => String (digitChar d) (text rest)
  end.

(** A decimal numeral as the keys can enter it: [0] or digits that do
    not start with [0], then at most one point followed by digits. *)
Fixpoint digitsThenFraction (s : string) : bool :=
  match s with
  | EmptyString => true
  | String c rest =>
      if Ascii.eqb c "." then allDigits rest
      else isDigit c && digitsThenFraction rest
  end.

Definition wellFormedEntry (s : string) : bool :=
  match s with
  | EmptyString => false
  | String c rest =>
      if Ascii.eqb c "0" then
        match rest with
        | EmptyString => true
        | String c' fraction => Ascii.eqb c' "." && allDigits fraction
        end
      else isDigit c && digitsThenFraction rest
  end.

Section CalculatorNotions.

Context {N : JsNumber}.

(** The number a digit sequence enters. *)
Definition entered (ds : list Digit) : number :=
  parseFloat (text (stripZeros ds)).

End CalculatorNotions.

(** ** Memo *)

(** The item mirrors the note. *)
Definition Saved (m : Memo) : Prop :=
  storageItem m = Some (noteContent m) /\ saveDeps m = Some (noteContent m).

(** ** Flashlight *)

(** The lamp and the two SOS modes. *)
Definition lampOf (w : World) : bool * bool * bool :=
  (isFlashlightOn (flashlight w), isSosActive (flashlight w),
   isAudioSosActive (flashlight w)).


(** A channel whose effect last ran with its mode off has nothing
    pending, and the light shows. *)
Definition QuietOK (w : World) : Prop :=
  (hVisualDeps w = false ->
   NoPending OVisual w /\ isSosLightVisibleOf w = true)
  /\ (hAudioDeps w = false -> NoPending OAudio w).

(** Without an [AudioContext] no tone is scheduled or played. *)
Definition MuteOK (w : World) : Prop :=
  hasAudioContext (window w) = false ->
  audioContextRef (flashlight w) = false
  /\ NoPending OAudio w
  /\ tones w = [].

(** ** The ids a feature holds *)

(** The timer ids the refs and closures of an owner name: the ids its
    cancellations are applied to. *)
Definition refIds (o : Owner) (w : World) : list nat :=
  match o with
  | OClock => [clockInterval (hooks w)]
  | OTimer =>
      match timerInterval (hooks w) with Some id => [id] | None => [] end
  | OVisual => sosTimeoutRef (flashlight w)
  | OAudio => sosAudioTimeoutRef (flashlight w)
  | OSensor =>
      match sensorCheckTimeoutRef (sensor w) with
      | Some id => [id]
      | None => []
      end
  end.

(** The ids held were all handed out, and an active timer an owner
    names is a timer of that owner: no cancellation hits the timer of
    another feature. *)
Definition RefsOK (w : World) : Prop :=
  (forall o id, In id (refIds o w) -> (id < nextId w)%nat)
  /\ (forall o e, In e (timers (window w)) -> In (tid e) (refIds o w) ->
        owner (callback e) = o).

Definition Pool (w : World) : Prop := IdsOK w /\ RefsOK w.

(** The timers of the other owners stay. *)
Definition Keeps (o : Owner) (w w' : World) : Prop :=
  forall e, In e (timers (window w)) -> owner (callback e) <> o ->
            In e (timers (window w')).

(** ** The timers that must be there *)

(** The interval the clock effect registered on its last run. *)
Definition clockEntryOf (w : World) : TimerEntry :=
  {| tid := clockInterval (hooks w); delay := 1000; repeating := true;
     callback := CbClock (fst (clockDeps (hooks w)))
                   (snd (clockDeps (hooks w))) |}.

(** The clock interval is active, and it is the only timer of the
    clock. *)
Definition ClockLive (w : World) : Prop :=
  In (clockEntryOf w) (timers (window w))
  /\ forall e, In e (pending OClock w) -> e = clockEntryOf w.

(** The step of the timer interval (lines 150-152, 157-159). *)
Definition stepOf (m : TimerMode) : Z :=
  match m with
  | countdown => -1
  | stopwatch => 1
  end.

(** Whether the timer effect registers an interval (lines 147-161). *)
Definition armed (d : bool * Z * TimerMode) : bool :=
  let '(a, s, m) := d in
  a && match m with
       | countdown => 0 <? s
       | stopwatch => true
       end.

Definition timerEntryOf (id : nat) (d : bool * Z * TimerMode) : TimerEntry :=
  {| tid := id; delay := 1000; repeating := true;
     callback := CbTimerStep (stepOf (snd d)) |}.

(** The timer interval is active exactly when the effect registered
    one on its last run, and it is the only timer of the timer. *)
Definition TimerLive (w : World) : Prop :=
  match timerInterval (hooks w) with
  | Some id =>
      armed (timerDeps (hooks w)) = true
      /\ In (timerEntryOf id (timerDeps (hooks w))) (timers (window w))
      /\ forall e, In e (pending OTimer w) ->
                   e = timerEntryOf id (timerDeps (hooks w))
  | None => armed (timerDeps (hooks w)) = false /\ pending OTimer w = []
  end.

(** A countdown the effect found at zero was stopped by it. *)
Definition TimerExpiredOK (w : World) : Prop :=
  forall s, timerDeps (hooks w) = (true, s, countdown) -> s <= 0 ->
            isTimerActive (timer w) = false.

(** ** Orientation readings *)

(** The permission state is the one the sensor effect leaves. *)
Definition Negotiated (w : World) : Prop :=
  permissionState (sensor w)
  = negotiate (requestPermissionIsFunction (window w))
      (activeHologram (nav w)) (sensorSupportState (sensor w))
      (permissionState (sensor w)).

Definition PermOK (w : World) : Prop :=
  sensorChanged w = false -> Negotiated w.

(** [handleOrientation] was registered by a run of the effect that
    found a sensor feature shown, the capability supported and, where
    the platform asks for permission, the permission granted. *)
Definition HandlerOK (w : World) : Prop :=
  forall r, In (LHandle r) (listeners (window w)) ->
    isSensorHologram (fst (fst (sensorDeps (hooks w)))) = true
    /\ snd (fst (sensorDeps (hooks w))) = supported
    /\ (requestPermissionIsFunction (window w) = true ->
        snd (sensorDeps (hooks w)) = granted).

(** What [handleOrientation] stores of an event (lines 288-292). *)
Definition reading (e : DeviceOrientationEvent) : Orientation :=
  {| alpha := orDefault (ev_alpha e);
     beta := orDefault (ev_beta e);
     gamma := orDefault (ev_gamma e) |}.

(** The run of the effect that found a sensor feature shown, the
    capability supported and the permission granted or not needed has
    its [handleOrientation] registered. *)
Definition HandlerLive (w : World) : Prop :=
  isSensorHologram (fst (fst (sensorDeps (hooks w)))) = true ->
  snd (fst (sensorDeps (hooks w))) = supported ->
  (requestPermissionIsFunction (window w) = true ->
   snd (sensorDeps (hooks w)) = granted) ->
  In (LHandle (sensorRun (hooks w))) (listeners (window w)).

(** ** More sample runs *)

(** The audio SOS switched on, and a timer id fired. *)
Definition silentSos : list Event :=
  [StartClick; HologramSelect h_flashlight; SosAudioClick; TimerFire 21 t0729].

(** A stopwatch started from zero, two ticks on. *)
Definition stopwatchRunning : World :=
  run [StartStopClick; TimerFire 2 t0729; TimerFire 3 t0730] timerShown.
(* ================================================================== *)
(** * The browser primitives and the scheduling passes *)
(* ================================================================== *)

Section ListFacts.
Context {A : Type}.

Lemma filter_andb (p q : A -> bool) (l : list A) :
  filter q (filter p l) = filter (fun x => p x && q x) l.
Proof.
  induction l as [|x l IH]; simpl; [reflexivity|].
  destruct (p x); simpl; [destruct (q x)|]; rewrite IH; reflexivity.
Qed.

Lemma incl_nil_eq (l : list A) : incl l [] -> l = [].
Proof.
  destruct l as [|x l]; [reflexivity|].
  intros H. destruct (H x (or_introl eq_refl)).
Qed.

Lemma filter_nil_iff (p : A -> bool) (l : list A) :
  filter p l = [] <-> forall x, In x l -> p x = false.
Proof.
  induction l as [|x l IH]; simpl.
  - split; [intros _ y []|reflexivity].
  - destruct (p x) eqn:E.
    + split; [discriminate|].
      intros H. rewrite (H x (or_introl eq_refl)) in E. discriminate.
    + rewrite IH. split.
      * intros H y [<-|Hy]; auto.
      * intros H y Hy. auto.
Qed.
End ListFacts.

Lemma World_eta (w : World) :
  {| nav := nav w; timer := timer w; alarm := alarm w;
     flashlight := flashlight w; sensor := sensor w; hooks := hooks w;
     window := window w |} = w.
Proof. destruct w; reflexivity. Qed.

Lemma Window_eta (b : Window) :
  {| timers := timers b; nextTimerId := nextTimerId b;
     listeners := listeners b; oscillators := oscillators b;
     pendingPermission := pendingPermission b;
     requestPermissionIsFunction := requestPermissionIsFunction b;
     hasAudioContext := hasAudioContext b |} = b.
Proof. destruct b; reflexivity. Qed.

Lemma forEach_clearTimeout_eq (ids : list nat) (w : World) :
  forEach_clearTimeout ids w = dropTimers ids w.
Proof.
  unfold forEach_clearTimeout, dropTimers.
  revert w. induction ids as [|id ids IH]; intros w; simpl.
  - unfold on_window, with_timers. rewrite filter_true.
    destruct w as [? ? ? ? ? ? []]; reflexivity.
  - rewrite IH. unfold clearTimeout, on_window, with_timers; simpl.
    rewrite filter_andb. f_equal. f_equal.
    apply filter_ext. intros e. unfold notIn; simpl.
    rewrite negb_orb. reflexivity.
Qed.

Lemma notIn_false_iff (ids : list nat) (e : TimerEntry) :
  notIn ids e = false <-> In (tid e) ids.
Proof.
  unfold notIn. rewrite negb_false_iff, existsb_exists. split.
  - intros [x [Hx E]]. apply Nat.eqb_eq in E. subst. exact Hx.
  - intros H. exists (tid e). split; [exact H|apply Nat.eqb_refl].
Qed.

Lemma pushTimers_nil (w : World) : pushTimers [] w = w.
Proof.
  unfold pushTimers, on_window, with_timers; simpl.
  rewrite app_nil_r. destruct w as [? ? ? ? ? ? []]; reflexivity.
Qed.

Lemma pushTimers_cons (e : TimerEntry) (new : list TimerEntry) (w : World) :
  pushTimers new (pushTimers [e] w) = pushTimers (e :: new) w.
Proof.
  unfold pushTimers, on_window, with_timers; simpl.
  rewrite <- app_assoc. simpl. rewrite Nat.add_succ_r. reflexivity.
Qed.

Lemma fold_visualStep (pattern : list Signal) :
  forall (w : World) (ts : list nat) (off : Z),
    fold_left visualStep pattern (w, ts, off)
    = (pushTimers (lightEntries pattern (nextTimerId (window w)) off) w,
       ts ++ map tid (lightEntries pattern (nextTimerId (window w)) off),
       off + totalDuration pattern).
Proof.
  induction pattern as [|s rest IH]; intros w ts off; simpl.
  - rewrite pushTimers_nil, app_nil_r, Z.add_0_r. reflexivity.
  - rewrite IH. simpl. rewrite <- pushTimers_cons, <- app_assoc, Z.add_assoc.
    reflexivity.
Qed.

Lemma fold_audioStep (pattern : list Signal) :
  forall (w : World) (ts : list nat) (off : Z),
    fold_left audioStep pattern (w, ts, off)
    = (pushTimers (toneEntries pattern (nextTimerId (window w)) off) w,
       ts ++ map tid (toneEntries pattern (nextTimerId (window w)) off),
       off + totalDuration pattern).
Proof.
  induction pattern as [|s rest IH]; intros w ts off; simpl.
  - rewrite pushTimers_nil, app_nil_r, Z.add_0_r. reflexivity.
  - destruct (on s); rewrite IH; simpl.
    + rewrite <- pushTimers_cons, <- app_assoc, Z.add_assoc. reflexivity.
    + rewrite Z.add_assoc. reflexivity.
Qed.

Lemma schedulePatternVisualOn_eq (pattern : list Signal) (w : World) :
  schedulePatternVisualOn pattern w
  = on_flashlight
      (set_sosTimeoutRef
         (map tid (visualRunOn pattern (nextTimerId (window w)))))
      (pushTimers (visualRunOn pattern (nextTimerId (window w)))
         (dropTimers (sosTimeoutRef (flashlight w)) w)).
Proof.
  unfold schedulePatternVisualOn, clearVisualSosTimeouts.
  rewrite forEach_clearTimeout_eq, fold_visualStep. simpl.
  unfold visualRunOn, pushTimers, on_flashlight, on_window, with_timers; simpl.
  rewrite map_app, <- app_assoc, length_app. simpl.
  rewrite Nat.add_1_r. reflexivity.
Qed.

Lemma schedulePatternAudioOn_eq (pattern : list Signal) (w : World) :
  schedulePatternAudioOn pattern w
  = on_flashlight
      (set_sosAudioTimeoutRef
         (map tid (audioRunOn pattern (nextTimerId (window w)))))
      (pushTimers (audioRunOn pattern (nextTimerId (window w)))
         (dropTimers (sosAudioTimeoutRef (flashlight w)) w)).
Proof.
  unfold schedulePatternAudioOn, clearAudioSosTimeouts.
  rewrite forEach_clearTimeout_eq, fold_audioStep. simpl.
  unfold audioRunOn, pushTimers, on_flashlight, on_window, with_timers; simpl.
  rewrite map_app, <- app_assoc, length_app. simpl.
  rewrite Nat.add_1_r. reflexivity.
Qed.

Lemma clearVisualSosTimeouts_eq (w : World) :
  clearVisualSosTimeouts w
  = on_flashlight (set_sosTimeoutRef [])
      (dropTimers (sosTimeoutRef (flashlight w)) w).
Proof.
  unfold clearVisualSosTimeouts. rewrite forEach_clearTimeout_eq. reflexivity.
Qed.

Lemma clearAudioSosTimeouts_eq (w : World) :
  clearAudioSosTimeouts w
  = on_flashlight (set_sosAudioTimeoutRef [])
      (dropTimers (sosAudioTimeoutRef (flashlight w)) w).
Proof.
  unfold clearAudioSosTimeouts. rewrite forEach_clearTimeout_eq. reflexivity.
Qed.
(* ================================================================== *)
(** * Rendering: what a commit changes *)
(* ================================================================== *)

Lemma whenb_frame {A : Type} (P : World -> A) (c : bool) (f : World -> World)
  (w : World) :
  (forall x, P (f x) = P x) -> P (whenb c f w) = P w.
Proof. intros H. unfold whenb. destruct c; [apply H|reflexivity]. Qed.

Lemma whenb_set {A : Type} (P : World -> A) (c : bool) (f : World -> World)
  (w : World) (v : A) :
  (forall x, P (f x) = v) -> (c = false -> P w = v) -> P (whenb c f w) = v.
Proof. intros H H0. unfold whenb. destruct c; [apply H|apply H0; reflexivity]. Qed.

Lemma whenb_pres (Q : World -> Prop) (c : bool) (f : World -> World) (w : World) :
  (forall x, Q x -> Q (f x)) -> Q w -> Q (whenb c f w).
Proof. intros H H0. unfold whenb. destruct c; auto. Qed.

Lemma whenb_true f w : whenb true f w = f w.
Proof. reflexivity. Qed.

Lemma whenb_false f w : whenb false f w = w.
Proof. reflexivity. Qed.

Ltac unfold_projs :=
  unfold hClockDeps, hTimerDeps, hVisualDeps, hAudioDeps, hSensorDeps,
    clockDepsOf, timerDepsOf, sensorDepsOf, hClock, hTimer,
    isSosActiveOf, isAudioSosActiveOf, isFlashlightOnOf, isSosLightVisibleOf,
    audioContextRefOf, sosTimeoutRefOf, sosAudioTimeoutRefOf,
    sensorSupportStateOf, orientationOf, permissionStateOf, sensorRefOf,
    timerSecondsOf, timerModeOf, tones, pendingOf, requestPermissionOf,
    hasAudioContextOf, listenersOf, nextId in *.

Ltac unfold_steps :=
  unfold clockCleanup, timerCleanup, visualCleanupFn, audioCleanupFn,
    sensorCleanup, clockEffect, timerEffect, visualEffect, audioEffect,
    sensorEffect, sensorCheck, sensorListen, clearSensorCheck,
    schedulePatternVisual,
    schedulePatternAudio, clearInterval, setInterval, setTimeout in *.

Ltac unfold_handlers :=
  unfold handleStartClick, handleHologramSelect, handleStartStop, handleReset,
    handleSetPreset, handleSetAlarm, handleClearAlarm, handleStopRinging,
    handlePowerOn, handleSosVisual, handleSosAudio, initializeAudioContext,
    handlePermissionRequest, permissionSettled, clockTick, playTone in *.

Ltac unfold_prims :=
  rewrite ?schedulePatternVisualOn_eq, ?schedulePatternAudioOn_eq,
    ?clearVisualSosTimeouts_eq, ?clearAudioSosTimeouts_eq,
    ?forEach_clearTimeout_eq;
  unfold addTimer, clearTimeout, addEventListener, removeEventListener,
    dropTimers, pushTimers, truthy.

Ltac break_match :=
  match goal with
  | |- context [match ?c with _ => _ end] => destruct c eqn:?
  end.

(** [P (f w) = P w] for a step [f] that does not touch the view [P]. *)
Ltac solve_frame :=
  intros; unfold_projs; unfold_steps; unfold_prims; cbn;
  repeat (break_match; cbn); first [reflexivity|congruence].

Ltac commit_frame :=
  intros; unfold commit; cbv zeta;
  repeat (rewrite whenb_frame by solve_frame); reflexivity.

Lemma option_string_eqb_eq a b : option_string_eqb a b = true <-> a = b.
Proof.
  destruct a as [x|], b as [y|]; simpl; try (split; congruence).
  rewrite String.eqb_eq. split; congruence.
Qed.

Lemma TimerMode_beq_eq a b : TimerMode_beq a b = true <-> a = b.
Proof. destruct a, b; simpl; split; congruence. Qed.
Lemma ActiveHologram_beq_eq a b : ActiveHologram_beq a b = true <-> a = b.
Proof. destruct a, b; simpl; split; congruence. Qed.
Lemma SensorSupportState_beq_eq a b : SensorSupportState_beq a b = true <-> a = b.
Proof. destruct a, b; simpl; split; congruence. Qed.
Lemma PermissionState_beq_eq a b : PermissionState_beq a b = true <-> a = b.
Proof. destruct a, b; simpl; split; congruence. Qed.
Lemma AppState_beq_eq a b : AppState_beq a b = true <-> a = b.
Proof. destruct a, b; simpl; split; congruence. Qed.

Lemma clockChanged_false w : clockChanged w = false <-> hClockDeps w = clockDepsOf w.
Proof.
  unfold clockChanged, hClockDeps, clockDepsOf.
  destruct (clockDeps (hooks w)) as [a r]; simpl.
  rewrite negb_false_iff, andb_true_iff, option_string_eqb_eq, Bool.eqb_true_iff.
  split; [intros [-> ->]; reflexivity|intros [= -> ->]; auto].
Qed.

Lemma timerChanged_false w : timerChanged w = false <-> hTimerDeps w = timerDepsOf w.
Proof.
  unfold timerChanged, hTimerDeps, timerDepsOf.
  destruct (timerDeps (hooks w)) as [[a s] m]; simpl.
  rewrite negb_false_iff, !andb_true_iff, Bool.eqb_true_iff, Z.eqb_eq, TimerMode_beq_eq.
  split; [intros [[-> ->] ->]; reflexivity|intros [= -> -> ->]; auto].
Qed.

Lemma visualChanged_false w : visualChanged w = false <-> hVisualDeps w = isSosActive (flashlight w).
Proof.
  unfold visualChanged, hVisualDeps.
  rewrite negb_false_iff, Bool.eqb_true_iff. reflexivity.
Qed.

Lemma audioChanged_false w : audioChanged w = false <-> hAudioDeps w = isAudioSosActive (flashlight w).
Proof.
  unfold audioChanged, hAudioDeps.
  rewrite negb_false_iff, Bool.eqb_true_iff. reflexivity.
Qed.

Lemma sensorChanged_false w : sensorChanged w = false <-> hSensorDeps w = sensorDepsOf w.
Proof.
  unfold sensorChanged, hSensorDeps, sensorDepsOf.
  destruct (sensorDeps (hooks w)) as [[a s] m]; simpl.
  rewrite negb_false_iff, !andb_true_iff, ActiveHologram_beq_eq,
    SensorSupportState_beq_eq, PermissionState_beq_eq.
  split; [intros [[-> ->] ->]; reflexivity|intros [= -> -> ->]; auto].
Qed.



Lemma commit_hClockDeps w : hClockDeps (commit w) = clockDepsOf w.
Proof.
  unfold commit; cbv zeta.
  rewrite !whenb_frame by solve_frame.
  apply whenb_set; [solve_frame|].
  intros H. rewrite !whenb_frame by solve_frame.
  apply clockChanged_false, H.
Qed.
Lemma commit_nav w : nav (commit w) = nav w.
Proof. commit_frame. Qed.

Lemma commit_alarm w : alarm (commit w) = alarm w.
Proof. commit_frame. Qed.

Lemma commit_hVisualDeps w : hVisualDeps (commit w) = isSosActive (flashlight w).
Proof.
  unfold commit; cbv zeta.
  rewrite !whenb_frame by solve_frame.
  apply whenb_set; [solve_frame|].
  intros H. rewrite !whenb_frame by solve_frame.
  apply visualChanged_false, H.
Qed.

Lemma commit_hAudioDeps w : hAudioDeps (commit w) = isAudioSosActive (flashlight w).
Proof.
  unfold commit; cbv zeta.
  rewrite !whenb_frame by solve_frame.
  apply whenb_set; [solve_frame|].
  intros H. rewrite !whenb_frame by solve_frame.
  apply audioChanged_false, H.
Qed.

Lemma commit_hTimerDeps w : hTimerDeps (commit w) = timerDepsOf w.
Proof.
  unfold commit; cbv zeta.
  rewrite !whenb_frame by solve_frame.
  apply whenb_set; [solve_frame|].
  intros H. rewrite !whenb_frame by solve_frame.
  apply timerChanged_false, H.
Qed.

Lemma commit_hSensorDeps w : hSensorDeps (commit w) = sensorDepsOf w.
Proof.
  unfold commit; cbv zeta.
  apply whenb_set; [solve_frame|].
  intros H. rewrite !whenb_frame by solve_frame.
  apply sensorChanged_false, H.
Qed.



Lemma timerEffect_timer snap w :
  timer (timerEffect snap w)
  = if timerExpired (timer snap) then expire (timer w) else timer w.
Proof.
  unfold timerExpired, expire. solve_frame.
Qed.

Lemma commit_timer w :
  timer (commit w)
  = if timerChanged w && timerExpired (timer w) then expire (timer w)
    else timer w.
Proof.
  unfold commit; cbv zeta.
  rewrite !whenb_frame by solve_frame.
  unfold whenb at 1. destruct (timerChanged w); cbn [andb].
  - rewrite timerEffect_timer. rewrite !whenb_frame by solve_frame. reflexivity.
  - rewrite !whenb_frame by solve_frame. reflexivity.
Qed.


Lemma commit_isSosActive w : isSosActiveOf (commit w) = isSosActiveOf w.
Proof. commit_frame. Qed.
Lemma commit_isAudioSosActive w : isAudioSosActiveOf (commit w) = isAudioSosActiveOf w.
Proof. commit_frame. Qed.
Lemma commit_isFlashlightOn w : isFlashlightOnOf (commit w) = isFlashlightOnOf w.
Proof. commit_frame. Qed.
Lemma commit_audioContextRef w : audioContextRefOf (commit w) = audioContextRefOf w.
Proof. commit_frame. Qed.
Lemma commit_sensorSupportState w : sensorSupportStateOf (commit w) = sensorSupportStateOf w.
Proof. commit_frame. Qed.
Lemma commit_orientation w : orientationOf (commit w) = orientationOf w.
Proof. commit_frame. Qed.
Lemma commit_tones w : tones (commit w) = tones w.
Proof. commit_frame. Qed.
Lemma commit_pending w : pendingOf (commit w) = pendingOf w.
Proof. commit_frame. Qed.
Lemma commit_requestPermission w : requestPermissionOf (commit w) = requestPermissionOf w.
Proof. commit_frame. Qed.
Lemma commit_hasAudioContext w : hasAudioContextOf (commit w) = hasAudioContextOf w.
Proof. commit_frame. Qed.

(** The permission state the sensor effect leaves. *)

Lemma sensorEffect_permission snap w :
  permissionStateOf snap = permissionStateOf w ->
  permissionStateOf (sensorEffect snap w)
  = negotiate (requestPermissionOf w) (activeHologram (nav snap))
      (sensorSupportState (sensor snap)) (permissionState (sensor snap)).
Proof.
  unfold permissionStateOf, requestPermissionOf, negotiate. intros H.
  solve_frame; congruence.
Qed.

Lemma commit_permission w :
  permissionStateOf (commit w)
  = if sensorChanged w
    then negotiate (requestPermissionOf w) (activeHologram (nav w))
           (sensorSupportState (sensor w)) (permissionState (sensor w))
    else permissionStateOf w.
Proof.
  unfold commit; cbv zeta.
  unfold whenb at 1. destruct (sensorChanged w).
  - rewrite sensorEffect_permission.
    + f_equal. fold (requestPermissionOf w).
      rewrite !whenb_frame by solve_frame. reflexivity.
    + rewrite !whenb_frame by solve_frame. reflexivity.
  - rewrite !whenb_frame by solve_frame. reflexivity.
Qed.

(** ** Two commits reach a stable world *)

Lemma commit_clock_stable w : clockChanged (commit w) = false.
Proof.
  apply clockChanged_false. rewrite commit_hClockDeps.
  unfold clockDepsOf. rewrite commit_alarm. reflexivity.
Qed.

Lemma commit_visual_stable w : visualChanged (commit w) = false.
Proof.
  apply visualChanged_false. rewrite commit_hVisualDeps.
  symmetry. apply commit_isSosActive.
Qed.

Lemma commit_audio_stable w : audioChanged (commit w) = false.
Proof.
  apply audioChanged_false. rewrite commit_hAudioDeps.
  symmetry. apply commit_isAudioSosActive.
Qed.

Lemma expire_not_expired t : timerExpired (expire t) = false.
Proof. reflexivity. Qed.

Lemma commit2_timer_stable w : timerChanged (commit (commit w)) = false.
Proof.
  apply timerChanged_false. rewrite commit_hTimerDeps.
  unfold timerDepsOf. rewrite (commit_timer (commit w)).
  destruct (timerChanged (commit w)) eqn:E; [|reflexivity]. cbn [andb].
  destruct (timerExpired (timer (commit w))) eqn:X; [|reflexivity].
  exfalso. rewrite commit_timer in X.
  destruct (timerChanged w && timerExpired (timer w)) eqn:Y.
  - rewrite expire_not_expired in X. discriminate.
  - assert (H : timerChanged (commit w) = false); [|congruence].
    apply timerChanged_false. rewrite commit_hTimerDeps.
    unfold timerDepsOf. rewrite commit_timer, Y. reflexivity.
Qed.

Lemma negotiate_idem r h s p :
  negotiate r h s (negotiate r h s p) = negotiate r h s p.
Proof. unfold negotiate. destruct (isSensorHologram h), s, r, p; reflexivity. Qed.

Lemma commit_sensorDepsOf w :
  sensorDepsOf (commit w)
  = (activeHologram (nav w), sensorSupportState (sensor w),
     permissionStateOf (commit w)).
Proof.
  unfold sensorDepsOf. rewrite commit_nav.
  fold (sensorSupportStateOf (commit w)). rewrite commit_sensorSupportState.
  reflexivity.
Qed.

Lemma commit2_sensor_stable w : sensorChanged (commit (commit w)) = false.
Proof.
  apply sensorChanged_false. rewrite commit_hSensorDeps.
  rewrite (commit_sensorDepsOf (commit w)).
  rewrite (commit_sensorDepsOf w) at 1.
  rewrite commit_nav. fold (sensorSupportStateOf (commit w)).
  rewrite commit_sensorSupportState. unfold sensorSupportStateOf.
  f_equal.
  rewrite (commit_permission (commit w)).
  destruct (sensorChanged (commit w)) eqn:E; [|reflexivity].
  rewrite commit_requestPermission, commit_nav.
  fold (sensorSupportStateOf (commit w)). rewrite commit_sensorSupportState.
  unfold sensorSupportStateOf. fold (permissionStateOf (commit w)).
  rewrite commit_permission.
  destruct (sensorChanged w) eqn:F.
  - rewrite negotiate_idem. reflexivity.
  - exfalso. assert (H : sensorChanged (commit w) = false); [|congruence].
    apply sensorChanged_false. rewrite commit_hSensorDeps, commit_sensorDepsOf.
    rewrite commit_permission, F. reflexivity.
Qed.

Lemma commit2_stable w : stable (commit (commit w)).
Proof.
  unfold stable, anyChanged.
  rewrite commit_clock_stable, commit_visual_stable, commit_audio_stable,
    commit2_timer_stable, commit2_sensor_stable. reflexivity.
Qed.

Lemma rerender_cases w :
  (stable w /\ rerender w = w)
  \/ (stable (commit w) /\ rerender w = commit w)
  \/ rerender w = commit (commit w).
Proof.
  unfold rerender, stable; simpl.
  destruct (anyChanged w); [|left; auto].
  destruct (anyChanged (commit w)); [|right; left; auto].
  rewrite commit2_stable. right; right; reflexivity.
Qed.

Lemma rerender_stable w : stable (rerender w).
Proof.
  destruct (rerender_cases w) as [[H ->]|[[H ->]| ->]]; auto using commit2_stable.
Qed.

Lemma rerender_ind (P : World -> Prop) (w : World) :
  P w -> (forall x, P x -> P (commit x)) -> P (rerender w).
Proof.
  intros H0 HS.
  destruct (rerender_cases w) as [[_ ->]|[[_ ->]| ->]]; auto.
Qed.

Lemma rerender_frame {A : Type} (P : World -> A) (w : World) :
  (forall x, P (commit x) = P x) -> P (rerender w) = P w.
Proof.
  intros H.
  destruct (rerender_cases w) as [[_ ->]|[[_ ->]| ->]]; rewrite ?H; reflexivity.
Qed.

Lemma rerender_of_stable w : stable w -> rerender w = w.
Proof.
  unfold stable, rerender; simpl. intros ->. reflexivity.
Qed.

(** More fuel changes nothing: two commits always reach a stable world. *)
Lemma flush_enough (n : nat) (w : World) : flush (2 + n) w = flush 2 w.
Proof.
  simpl. destruct (anyChanged w); [|reflexivity].
  destruct (anyChanged (commit w)); [|reflexivity].
  destruct n; [reflexivity|]. simpl. rewrite commit2_stable. reflexivity.
Qed.

Lemma stable_flags w :
  stable w ->
  clockChanged w = false /\ timerChanged w = false /\ visualChanged w = false
  /\ audioChanged w = false /\ sensorChanged w = false.
Proof.
  unfold stable, anyChanged.
  destruct (clockChanged w), (timerChanged w), (visualChanged w),
    (audioChanged w), (sensorChanged w); simpl; intros H;
    try discriminate; auto.
Qed.

Lemma rerender_one x :
  anyChanged x = true -> stable (commit x) -> rerender x = commit x.
Proof.
  unfold rerender, stable. simpl. intros -> ->. reflexivity.
Qed.

(** One commit reaches a stable world when its effects set no state
    they depend on. *)
Lemma commit_stable x :
  timer (commit x) = timer x ->
  permissionStateOf (commit x) = permissionStateOf x ->
  stable (commit x).
Proof.
  intros Ht Hp. unfold stable, anyChanged.
  rewrite commit_clock_stable, commit_visual_stable, commit_audio_stable.
  assert (H1 : timerChanged (commit x) = false).
  { apply timerChanged_false. rewrite commit_hTimerDeps.
    unfold timerDepsOf. rewrite Ht. reflexivity. }
  assert (H2 : sensorChanged (commit x) = false).
  { apply sensorChanged_false. rewrite commit_hSensorDeps, commit_sensorDepsOf.
    rewrite Hp. reflexivity. }
  rewrite H1, H2. reflexivity.
Qed.

Lemma rerender_two x :
  anyChanged x = true -> anyChanged (commit x) = true ->
  rerender x = commit (commit x).
Proof.
  unfold rerender. simpl. intros -> ->. rewrite commit2_stable. reflexivity.
Qed.


(* ================================================================== *)
(** * Invariants of the timer pool *)
(* ================================================================== *)

Lemma Owner_eqb_eq a b : Owner_eqb a b = true <-> a = b.
Proof. destruct a, b; simpl; split; congruence. Qed.

Lemma Adds_refl o w : Adds o w w.
Proof. split; [lia|auto]. Qed.

Lemma Adds_IdsOK o w w' : Adds o w w' -> IdsOK w -> IdsOK w'.
Proof.
  intros [Hn H] [H1 Hw]. split; [lia|]. intros e He.
  destruct (H e He) as [Hin|[_ Hb]].
  - specialize (Hw e Hin). lia.
  - lia.
Qed.

Lemma Adds_pending o o' w w' :
  Adds o w w' -> o <> o' -> incl (pending o' w') (pending o' w).
Proof.
  intros [_ H] Hne e He. unfold pending in *.
  apply filter_In in He as [Hin Hk]. apply filter_In. split; [|exact Hk].
  destruct (H e Hin) as [?|[Ho _]]; [assumption|].
  unfold ownedBy in Hk. apply Owner_eqb_eq in Hk. congruence.
Qed.

Ltac solve_adds :=
  intros; unfold Adds, nextId; unfold_projs; unfold_steps; unfold_prims; cbn;
  repeat (break_match; cbn);
  (split; [lia|]);
  (let e := fresh "e" in let He := fresh "He" in
   intros e He; rewrite ?in_app_iff, ?filter_In in He; cbn in He;
   intuition (subst; cbn; auto with zarith; try (right; split; [reflexivity|lia]))).

Lemma clockCleanup_adds o w : Adds o w (clockCleanup w).
Proof. solve_adds. Qed.
Lemma timerCleanup_adds o w : Adds o w (timerCleanup w).
Proof. solve_adds. Qed.
Lemma visualCleanupFn_adds o w : Adds o w (visualCleanupFn w).
Proof. solve_adds. Qed.
Lemma audioCleanupFn_adds o w : Adds o w (audioCleanupFn w).
Proof. solve_adds. Qed.
Lemma sensorCleanup_adds o w : Adds o w (sensorCleanup w).
Proof. solve_adds. Qed.
Lemma clockEffect_adds snap w : Adds OClock w (clockEffect snap w).
Proof. solve_adds. Qed.
Lemma timerEffect_adds snap w : Adds OTimer w (timerEffect snap w).
Proof. solve_adds. Qed.
Lemma visualEffect_adds snap w : Adds OVisual w (visualEffect snap w).
Proof. solve_adds. Qed.
Lemma audioEffect_adds snap w : Adds OAudio w (audioEffect snap w).
Proof. solve_adds. Qed.
Lemma sensorEffect_adds snap w : Adds OSensor w (sensorEffect snap w).
Proof. solve_adds. Qed.
Lemma clearVisualSosTimeouts_adds o w : Adds o w (clearVisualSosTimeouts w).
Proof. solve_adds. Qed.
Lemma clearAudioSosTimeouts_adds o w : Adds o w (clearAudioSosTimeouts w).
Proof. solve_adds. Qed.
Lemma schedulePatternVisual_adds w : Adds OVisual w (schedulePatternVisual w).
Proof. solve_adds. Qed.
Lemma schedulePatternAudio_adds w : Adds OAudio w (schedulePatternAudio w).
Proof. solve_adds. Qed.
Lemma clearTimeout_adds o id w : Adds o w (clearTimeout id w).
Proof. solve_adds. Qed.

Create HintDb adds.
#[local] Hint Resolve clockCleanup_adds timerCleanup_adds visualCleanupFn_adds
  audioCleanupFn_adds sensorCleanup_adds clockEffect_adds timerEffect_adds
  visualEffect_adds audioEffect_adds sensorEffect_adds
  clearVisualSosTimeouts_adds clearAudioSosTimeouts_adds
  schedulePatternVisual_adds schedulePatternAudio_adds clearTimeout_adds
  : adds.

(** [pending o] can only shrink under a step of another owner. *)
Ltac shrink_with o :=
  eapply (Adds_pending o); [solve [eauto with adds]|discriminate].
Ltac shrinks :=
  first [ shrink_with OClock | shrink_with OTimer | shrink_with OVisual
        | shrink_with OAudio | shrink_with OSensor ].

Ltac ids_with o := eapply (Adds_IdsOK o); [solve [eauto with adds]|].
Ltac ids_step :=
  first [ ids_with OClock | ids_with OTimer | ids_with OVisual
        | ids_with OAudio | ids_with OSensor ].

Lemma pending_dropTimers o ids w :
  pending o (dropTimers ids w) = filter (notIn ids) (pending o w).
Proof.
  unfold pending, dropTimers; simpl. rewrite !filter_andb.
  apply filter_ext. intros e. apply andb_comm.
Qed.

Lemma pending_pushTimers o new w :
  pending o (pushTimers new w) = pending o w ++ filter (ownedBy o) new.
Proof. unfold pending, pushTimers; simpl. apply filter_app. Qed.

Lemma pending_clearTimeout o id w :
  pending o (clearTimeout id w)
  = filter (fun e => negb (Nat.eqb (tid e) id)) (pending o w).
Proof.
  unfold pending, clearTimeout; simpl. rewrite !filter_andb.
  apply filter_ext. intros e. apply andb_comm.
Qed.

Lemma NoPending_shrink o w w' :
  incl (pending o w') (pending o w) -> NoPending o w -> NoPending o w'.
Proof.
  unfold NoPending. intros Hi H. rewrite H in Hi. apply incl_nil_eq, Hi.
Qed.

Lemma commit_IdsOK w : IdsOK w -> IdsOK (commit w).
Proof.
  intros H. unfold commit; cbv zeta.
  do 10 (apply whenb_pres; [intros x Hx; ids_step; exact Hx|]).
  exact H.
Qed.

(* ----- the clock interval ----- *)

Lemma ClockOK_shrink w w' :
  incl (pending OClock w') (pending OClock w) -> hClock w' = hClock w ->
  ClockOK w -> ClockOK w'.
Proof.
  unfold hClock, ClockOK. intros Hi [= Hd Hc] H e He.
  rewrite Hd, Hc. apply H, Hi, He.
Qed.

Lemma clockCleanup_clears w : ClockOK w -> NoPending OClock (clockCleanup w).
Proof.
  intros H. unfold NoPending, clockCleanup, clearInterval.
  rewrite pending_clearTimeout. apply filter_nil_iff. intros e He.
  destruct (H e He) as [_ ->]. rewrite Nat.eqb_refl. reflexivity.
Qed.

Lemma clockEffect_ok snap w : NoPending OClock w -> ClockOK (clockEffect snap w).
Proof.
  unfold NoPending, ClockOK, clockEffect, setInterval, addTimer, pending.
  simpl. intros H e He. rewrite filter_app, H in He. simpl in He.
  destruct He as [<-|[]]. auto.
Qed.

Ltac not_clock :=
  first [ apply ClockOK_shrink; [shrinks|solve_frame]
        | apply NoPending_shrink; shrinks ].

Lemma commit_ClockOK w : ClockOK w -> ClockOK (commit w).
Proof.
  intros H. unfold commit; cbv zeta.
  destruct (clockChanged w); rewrite ?whenb_true, ?whenb_false.
  - do 4 (apply whenb_pres; [intros x; not_clock|]).
    apply clockEffect_ok.
    do 4 (apply whenb_pres; [intros x; not_clock|]).
    apply clockCleanup_clears, H.
  - do 8 (apply whenb_pres; [intros x; not_clock|]).
    exact H.
Qed.

(* ----- the timer interval ----- *)

Lemma TimerOK_shrink w w' :
  incl (pending OTimer w') (pending OTimer w) -> hTimer w' = hTimer w ->
  TimerOK w -> TimerOK w'.
Proof.
  unfold hTimer, TimerOK. intros Hi Hd H e He. rewrite Hd. apply H, Hi, He.
Qed.

Lemma timerCleanup_clears w : TimerOK w -> NoPending OTimer (timerCleanup w).
Proof.
  intros H. unfold NoPending, timerCleanup, clearInterval.
  destruct (timerInterval (hooks w)) as [id|] eqn:E.
  - rewrite pending_clearTimeout. apply filter_nil_iff. intros e He.
    specialize (H e He). rewrite E in H. injection H as <-.
    rewrite Nat.eqb_refl. reflexivity.
  - destruct (pending OTimer w) as [|e l] eqn:P; [reflexivity|].
    specialize (H e). rewrite P, E in H. discriminate H. left; reflexivity.
Qed.

Lemma timerEffect_ok snap w : NoPending OTimer w -> TimerOK (timerEffect snap w).
Proof.
  unfold NoPending, TimerOK, timerEffect, setInterval, addTimer, pending.
  intros H e. repeat (break_match; cbn); rewrite ?filter_app, ?H; cbn;
    intros He; intuition (subst; auto).
Qed.

Ltac not_timer :=
  first [ apply TimerOK_shrink; [shrinks|solve_frame]
        | apply NoPending_shrink; shrinks ].

Lemma commit_TimerOK w : TimerOK w -> TimerOK (commit w).
Proof.
  intros H. unfold commit; cbv zeta.
  destruct (timerChanged w); rewrite ?whenb_true, ?whenb_false.
  - do 3 (apply whenb_pres; [intros x; not_timer|]).
    apply timerEffect_ok.
    do 4 (apply whenb_pres; [intros x; not_timer|]).
    apply timerCleanup_clears.
    apply whenb_pres; [intros x; not_timer|].
    exact H.
  - do 8 (apply whenb_pres; [intros x; not_timer|]).
    exact H.
Qed.

(* ----- the signal channels ----- *)

Lemma VisualOK_shrink w w' :
  incl (pending OVisual w') (pending OVisual w) ->
  sosTimeoutRefOf w' = sosTimeoutRefOf w ->
  VisualOK w -> VisualOK w'.
Proof.
  intros Hi Hr [H|[base [H1 H2]]].
  - left. rewrite H in Hi. apply incl_nil_eq, Hi.
  - right. exists base. split; [eapply incl_tran; eassumption|congruence].
Qed.

Lemma AudioOK_shrink w w' :
  incl (pending OAudio w') (pending OAudio w) ->
  sosAudioTimeoutRefOf w' = sosAudioTimeoutRefOf w ->
  AudioOK w -> AudioOK w'.
Proof.
  intros Hi Hr [H|[base [H1 H2]]].
  - left. rewrite H in Hi. apply incl_nil_eq, Hi.
  - right. exists base. split; [eapply incl_tran; eassumption|congruence].
Qed.

Lemma VisualOK_owned w :
  VisualOK w ->
  forall e, In e (pending OVisual w) -> notIn (sosTimeoutRefOf w) e = false.
Proof.
  intros [H|[base [H1 H2]]] e He.
  - rewrite H in He. destruct He.
  - apply notIn_false_iff. rewrite H2. apply in_map, H1, He.
Qed.

Lemma AudioOK_owned w :
  AudioOK w ->
  forall e, In e (pending OAudio w) -> notIn (sosAudioTimeoutRefOf w) e = false.
Proof.
  intros [H|[base [H1 H2]]] e He.
  - rewrite H in He. destruct He.
  - apply notIn_false_iff. rewrite H2. apply in_map, H1, He.
Qed.

Lemma pending_on_flashlight o f w : pending o (on_flashlight f w) = pending o w.
Proof. reflexivity. Qed.

(** Cancelling leaves no timeout of the channel pending. *)
Lemma clearVisual_clears w :
  VisualOK w -> pending OVisual (clearVisualSosTimeouts w) = [].
Proof.
  intros H. rewrite clearVisualSosTimeouts_eq, pending_on_flashlight,
    pending_dropTimers.
  apply filter_nil_iff, VisualOK_owned, H.
Qed.

Lemma clearAudio_clears w :
  AudioOK w -> pending OAudio (clearAudioSosTimeouts w) = [].
Proof.
  intros H. rewrite clearAudioSosTimeouts_eq, pending_on_flashlight,
    pending_dropTimers.
  apply filter_nil_iff, AudioOK_owned, H.
Qed.

(** After a scheduling pass exactly the timeouts of the new run are
    pending on the channel. *)
Lemma schedulePatternVisual_pending w :
  VisualOK w ->
  pending OVisual (schedulePatternVisual w) = visualRun (nextId w)
  /\ sosTimeoutRefOf (schedulePatternVisual w) = map tid (visualRun (nextId w)).
Proof.
  intros H. unfold schedulePatternVisual. rewrite schedulePatternVisualOn_eq.
  split; [|reflexivity].
  rewrite pending_on_flashlight, pending_pushTimers, pending_dropTimers.
  replace (filter _ (pending OVisual w)) with (@nil TimerEntry).
  - reflexivity.
  - symmetry. apply filter_nil_iff, VisualOK_owned, H.
Qed.

Lemma schedulePatternAudio_pending w :
  AudioOK w ->
  pending OAudio (schedulePatternAudio w) = audioRun (nextId w)
  /\ sosAudioTimeoutRefOf (schedulePatternAudio w)
     = map tid (audioRun (nextId w)).
Proof.
  intros H. unfold schedulePatternAudio. rewrite schedulePatternAudioOn_eq.
  split; [|reflexivity].
  rewrite pending_on_flashlight, pending_pushTimers, pending_dropTimers.
  replace (filter _ (pending OAudio w)) with (@nil TimerEntry).
  - reflexivity.
  - symmetry. apply filter_nil_iff, AudioOK_owned, H.
Qed.

Lemma clearVisual_ok w : VisualOK w -> VisualOK (clearVisualSosTimeouts w).
Proof. intros H. left. apply clearVisual_clears, H. Qed.

Lemma clearAudio_ok w : AudioOK w -> AudioOK (clearAudioSosTimeouts w).
Proof. intros H. left. apply clearAudio_clears, H. Qed.

Lemma schedulePatternVisual_ok w : VisualOK w -> VisualOK (schedulePatternVisual w).
Proof.
  intros H. destruct (schedulePatternVisual_pending w H) as [H1 H2].
  right. exists (nextId w). rewrite H1. split; [apply incl_refl|exact H2].
Qed.

Lemma schedulePatternAudio_ok w : AudioOK w -> AudioOK (schedulePatternAudio w).
Proof.
  intros H. destruct (schedulePatternAudio_pending w H) as [H1 H2].
  right. exists (nextId w). rewrite H1. split; [apply incl_refl|exact H2].
Qed.

Lemma VisualOK_on_hooks f w : VisualOK (on_hooks f w) <-> VisualOK w.
Proof. reflexivity. Qed.

Lemma AudioOK_on_hooks f w : AudioOK (on_hooks f w) <-> AudioOK w.
Proof. reflexivity. Qed.

Lemma visualCleanupFn_ok w : VisualOK w -> VisualOK (visualCleanupFn w).
Proof.
  unfold visualCleanupFn. destruct (visualCleanup (hooks w));
    auto using clearVisual_ok.
Qed.

Lemma audioCleanupFn_ok w : AudioOK w -> AudioOK (audioCleanupFn w).
Proof.
  unfold audioCleanupFn. destruct (audioCleanup (hooks w));
    auto using clearAudio_ok.
Qed.

Lemma visualEffect_ok snap w : VisualOK w -> VisualOK (visualEffect snap w).
Proof.
  intros H. unfold visualEffect.
  destruct (negb (isSosActive (flashlight snap))); apply VisualOK_on_hooks.
  - apply (clearVisual_ok w) in H. exact H.
  - apply schedulePatternVisual_ok, H.
Qed.

Lemma audioEffect_ok snap w : AudioOK w -> AudioOK (audioEffect snap w).
Proof.
  intros H. unfold audioEffect.
  destruct (negb (isAudioSosActive (flashlight snap))
            || negb (audioContextRef (flashlight w)));
    apply AudioOK_on_hooks.
  - apply clearAudio_ok, H.
  - apply schedulePatternAudio_ok, H.
Qed.

Ltac not_visual := apply VisualOK_shrink; [shrinks|solve_frame].
Ltac not_audio := apply AudioOK_shrink; [shrinks|solve_frame].

Lemma commit_VisualOK w : VisualOK w -> VisualOK (commit w).
Proof.
  intros H. unfold commit; cbv zeta.
  do 2 (apply whenb_pres; [intros x; not_visual|]).
  apply whenb_pres; [apply visualEffect_ok|].
  do 4 (apply whenb_pres; [intros x; not_visual|]).
  apply whenb_pres; [apply visualCleanupFn_ok|].
  do 2 (apply whenb_pres; [intros x; not_visual|]).
  exact H.
Qed.

Lemma commit_AudioOK w : AudioOK w -> AudioOK (commit w).
Proof.
  intros H. unfold commit; cbv zeta.
  apply whenb_pres; [intros x; not_audio|].
  apply whenb_pres; [apply audioEffect_ok|].
  do 4 (apply whenb_pres; [intros x; not_audio|]).
  apply whenb_pres; [apply audioCleanupFn_ok|].
  do 3 (apply whenb_pres; [intros x; not_audio|]).
  exact H.
Qed.

(* ----- the detection timeout ----- *)

Lemma SensorOK_shrink w w' :
  incl (pending OSensor w') (pending OSensor w) ->
  sensorRefOf w' = sensorRefOf w ->
  SensorOK w -> SensorOK w'.
Proof.
  unfold SensorOK. intros Hi Hd H e He. rewrite Hd. apply H, Hi, He.
Qed.

Lemma IdsOK_pending o w e : IdsOK w -> In e (pending o w) -> (1 <= tid e)%nat.
Proof.
  intros [_ H] He. apply filter_In in He as [He _]. apply H in He. lia.
Qed.

(** Clearing the timeout the ref names leaves no detection timeout. *)
Lemma clear_sensorRef w :
  IdsOK w -> SensorOK w ->
  match sensorRefOf w with
  | Some id => truthy (Some id) = true
               /\ NoPending OSensor (clearTimeout id w)
  | None => NoPending OSensor w
  end
  \/ NoPending OSensor w.
Proof.
  intros Hi H. destruct (pending OSensor w) as [|e l] eqn:P; [right; exact P|].
  left. assert (He : In e (pending OSensor w)) by (rewrite P; left; reflexivity).
  rewrite (H e He). split.
  - pose proof (IdsOK_pending _ _ _ Hi He). destruct (tid e); [lia|reflexivity].
  - unfold NoPending. rewrite pending_clearTimeout. apply filter_nil_iff.
    intros x Hx. pose proof (H x Hx) as E. rewrite (H e He) in E.
    injection E as ->. rewrite Nat.eqb_refl. reflexivity.
Qed.

Lemma sensorCleanup_clears w :
  IdsOK w -> SensorOK w -> NoPending OSensor (sensorCleanup w).
Proof.
  intros Hi H. unfold sensorCleanup.
  set (w1 := removeEventListener _ w).
  assert (Hi1 : IdsOK w1) by exact Hi.
  assert (H1 : SensorOK w1) by exact H.
  destruct (clear_sensorRef w1 Hi1 H1) as [Hc|Hc].
  - unfold sensorRefOf in Hc.
    destruct (sensorCheckTimeoutRef (sensor w1)) as [id|]; [|exact Hc].
    destruct Hc as [-> Hc]. exact Hc.
  - destruct (sensorCheckTimeoutRef (sensor w1)) as [id|]; [|exact Hc].
    destruct (truthy (Some id)); [|exact Hc].
    unfold NoPending in *. rewrite pending_clearTimeout, Hc. reflexivity.
Qed.

Lemma sensorEffect_ok snap w : NoPending OSensor w -> SensorOK (sensorEffect snap w).
Proof.
  unfold NoPending, SensorOK, sensorRefOf, pending. intros H e.
  unfold_steps; unfold_prims; cbn.
  repeat (break_match; cbn); rewrite ?filter_app, ?H; cbn;
    intros He; intuition (subst; auto).
Qed.

Ltac not_sensor :=
  first [ apply SensorOK_shrink; [shrinks|solve_frame]
        | apply NoPending_shrink; shrinks ].

Lemma commit_SensorOK w : IdsOK w -> SensorOK w -> SensorOK (commit w).
Proof.
  intros Hi H. unfold commit; cbv zeta.
  destruct (sensorChanged w); rewrite ?whenb_true, ?whenb_false.
  - apply sensorEffect_ok.
    do 4 (apply whenb_pres; [intros x; not_sensor|]).
    apply sensorCleanup_clears.
    + do 4 (apply whenb_pres; [intros x Hx; ids_step; exact Hx|]).
      exact Hi.
    + do 4 (apply whenb_pres; [intros x; not_sensor|]).
      exact H.
  - do 8 (apply whenb_pres; [intros x; not_sensor|]).
    exact H.
Qed.

(* ================================================================== *)
(** * The invariant holds in every reachable world *)
(* ================================================================== *)

Lemma Struct_pres (o : Owner) (w w' : World) :
  Adds o w w' ->
  (ClockOK w -> ClockOK w') -> (TimerOK w -> TimerOK w') ->
  (VisualOK w -> VisualOK w') -> (AudioOK w -> AudioOK w') ->
  (IdsOK w -> SensorOK w -> SensorOK w') ->
  Struct w -> Struct w'.
Proof.
  intros Ha Hc Ht Hv Hu Hs (Hi & H1 & H2 & H3 & H4 & H5).
  split; [|split; [|split; [|split; [|split]]]]; auto.
  eapply Adds_IdsOK; eassumption.
Qed.

(** Steps that touch neither the timer pool, nor the hooks of the two
    intervals, nor the three id refs. *)
Lemma Struct_same (w w' : World) :
  timers (window w') = timers (window w) -> nextId w' = nextId w ->
  hClock w' = hClock w -> hTimer w' = hTimer w ->
  sosTimeoutRefOf w' = sosTimeoutRefOf w ->
  sosAudioTimeoutRefOf w' = sosAudioTimeoutRefOf w ->
  sensorRefOf w' = sensorRefOf w ->
  Struct w -> Struct w'.
Proof.
  intros Ht Hn Hc Hti Hv Hu Hs.
  assert (Hp : forall o, incl (pending o w') (pending o w)).
  { intros o. unfold pending. rewrite Ht. apply incl_refl. }
  apply (Struct_pres OClock).
  - split; [rewrite Hn; lia|]. intros e He. left. rewrite <- Ht. exact He.
  - apply ClockOK_shrink; auto.
  - apply TimerOK_shrink; auto.
  - apply VisualOK_shrink; auto.
  - apply AudioOK_shrink; auto.
  - intros _. apply SensorOK_shrink; auto.
Qed.

Ltac same :=
  apply Struct_same; unfold_projs; unfold_handlers; cbn;
  repeat (break_match; cbn); reflexivity.

Lemma Struct_clearVisual w : Struct w -> Struct (clearVisualSosTimeouts w).
Proof.
  apply (Struct_pres OVisual);
    [auto with adds|not_clock|not_timer|apply clearVisual_ok|not_audio
    |intros _; not_sensor].
Qed.

Lemma Struct_clearAudio w : Struct w -> Struct (clearAudioSosTimeouts w).
Proof.
  apply (Struct_pres OAudio);
    [auto with adds|not_clock|not_timer|not_visual|apply clearAudio_ok
    |intros _; not_sensor].
Qed.

Lemma Struct_scheduleVisual w : Struct w -> Struct (schedulePatternVisual w).
Proof.
  apply (Struct_pres OVisual);
    [auto with adds|not_clock|not_timer|apply schedulePatternVisual_ok
    |not_audio|intros _; not_sensor].
Qed.

Lemma Struct_scheduleAudio w : Struct w -> Struct (schedulePatternAudio w).
Proof.
  apply (Struct_pres OAudio);
    [auto with adds|not_clock|not_timer|not_visual
    |apply schedulePatternAudio_ok|intros _; not_sensor].
Qed.

Lemma Struct_clearTimeout id w : Struct w -> Struct (clearTimeout id w).
Proof.
  apply (Struct_pres OClock);
    [auto with adds
    |apply ClockOK_shrink; [shrink_with OTimer|reflexivity]
    |not_timer|not_visual|not_audio|intros _; not_sensor].
Qed.

Lemma Struct_runCallback cb now w : Struct w -> Struct (runCallback cb now w).
Proof.
  destruct cb; simpl;
    [same|same|same|apply Struct_scheduleVisual|same
    |apply Struct_scheduleAudio|same].
Qed.

Lemma Struct_fireTimer id now w : Struct w -> Struct (fireTimer id now w).
Proof.
  intros H. unfold fireTimer. destruct (findTimer id w) as [e|]; [|exact H].
  destruct (repeating e); [|apply Struct_clearTimeout];
    apply Struct_runCallback, H.
Qed.

Lemma Struct_clearSensorCheck w : Struct w -> Struct (clearSensorCheck w).
Proof.
  intros H. unfold clearSensorCheck.
  destruct (sensorCheckTimeoutRef (sensor w)) as [id|] eqn:E; [|exact H].
  destruct (truthy (Some id)) eqn:T; [|exact H].
  revert H. apply (Struct_pres OClock).
  - apply (clearTimeout_adds OClock id w).
  - apply ClockOK_shrink; [|reflexivity].
    apply (Adds_pending OTimer); [apply clearTimeout_adds|discriminate].
  - apply TimerOK_shrink; [|reflexivity].
    apply (Adds_pending OClock); [apply clearTimeout_adds|discriminate].
  - apply VisualOK_shrink; [|reflexivity].
    apply (Adds_pending OClock); [apply clearTimeout_adds|discriminate].
  - apply AudioOK_shrink; [|reflexivity].
    apply (Adds_pending OClock); [apply clearTimeout_adds|discriminate].
  - intros Hi Hs e He. exfalso.
    change (In e (pending OSensor (clearTimeout id w))) in He.
    destruct (clear_sensorRef w Hi Hs) as [Hc|Hc].
    + unfold sensorRefOf in Hc. rewrite E in Hc. destruct Hc as [_ Hc].
      rewrite Hc in He. destruct He.
    + rewrite pending_clearTimeout in He. unfold NoPending in Hc.
      rewrite Hc in He. destruct He.
Qed.

Lemma Struct_runListener l e w : Struct w -> Struct (runListener l e w).
Proof.
  destruct l as [r|r]; simpl; [|same].
  intros H. apply Struct_clearSensorCheck in H. revert H. same.
Qed.

Lemma Struct_deviceorientation e w : Struct w -> Struct (deviceorientation e w).
Proof.
  unfold deviceorientation. generalize (listeners (window w)).
  intros ls. revert w. induction ls as [|l ls IH]; intros w H; simpl; [exact H|].
  apply IH. unfold deliver. destruct (existsb _ _); [apply Struct_runListener|]; exact H.
Qed.

Lemma Struct_handleBackClick w : Struct w -> Struct (handleBackClick w).
Proof.
  intros H. unfold handleBackClick.
  destruct (appState (nav w)); [exact H|revert H; same|].
  destruct (activeHologram (nav w)); cbn [ActiveHologram_beq isSensorHologram andb];
    try (revert H; same).
  assert (H1 : Struct
    (clearAudioSosTimeouts
       (clearVisualSosTimeouts
          (on_flashlight (setIsAudioSosActive false)
             (on_flashlight (setIsSosActive false)
                (on_flashlight (setIsFlashlightOn false) w)))))).
  { apply Struct_clearAudio, Struct_clearVisual. revert H. same. }
  revert H1. same.
Qed.

Lemma Struct_handle ev w : Struct w -> Struct (handle ev w).
Proof.
  destruct ev; simpl;
    try (apply Struct_handleBackClick || apply Struct_fireTimer
         || apply Struct_deviceorientation);
    same.
Qed.

Lemma Struct_commit w : Struct w -> Struct (commit w).
Proof.
  intros (Hi & H1 & H2 & H3 & H4 & H5).
  split; [|split; [|split; [|split; [|split]]]];
    auto using commit_IdsOK, commit_ClockOK, commit_TimerOK, commit_VisualOK,
      commit_AudioOK, commit_SensorOK.
Qed.

Lemma Inv_invoke ev w : Inv w -> Inv (invoke ev w).
Proof.
  intros [_ H]. split; [apply rerender_stable|].
  unfold invoke. apply rerender_ind; [apply Struct_handle, H|].
  apply Struct_commit.
Qed.

Lemma Inv_dispatch ev w : Inv w -> Inv (dispatch ev w).
Proof.
  intros H. unfold dispatch. destruct (enabled ev w); [apply Inv_invoke|]; exact H.
Qed.

Lemma Struct_mount now r a : Struct (mount (unmounted now r a)).
Proof.
  split; [|split; [|split; [|split; [|split]]]].
  - split; [unfold nextId; simpl; lia|].
    intros e [<-|[]]. unfold nextId; simpl. lia.
  - intros e [<-|[]]. split; reflexivity.
  - intros e [].
  - left. reflexivity.
  - left. reflexivity.
  - intros e [].
Qed.

Lemma Inv_initialWorld now r a : Inv (initialWorld now r a).
Proof.
  split; [apply rerender_stable|].
  unfold initialWorld. apply rerender_ind; [apply Struct_mount|].
  apply Struct_commit.
Qed.

Theorem reachable_Inv w : reachable w -> Inv w.
Proof.
  induction 1; [apply Inv_initialWorld|apply Inv_dispatch; assumption].
Qed.

Lemma reachable_run evs w : reachable w -> reachable (run evs w).
Proof.
  revert w. induction evs as [|ev evs IH]; intros w H; simpl; [exact H|].
  apply IH, reach_step, H.
Qed.

Lemma findTimer_In id w e :
  findTimer id w = Some e -> In e (timers (window w)) /\ tid e = id.
Proof.
  unfold findTimer. intros H. apply find_some in H as [H1 H2].
  split; [exact H1|apply Nat.eqb_eq, H2].
Qed.

Lemma reachable_stable w : reachable w -> stable w.
Proof. intros H. apply (reachable_Inv w H). Qed.

Lemma reachable_IdsOK w : reachable w -> IdsOK w.
Proof. intros H. apply (reachable_Inv w H). Qed.

Lemma reachable_VisualOK w : reachable w -> VisualOK w.
Proof. intros H. apply (reachable_Inv w H). Qed.

Lemma reachable_AudioOK w : reachable w -> AudioOK w.
Proof. intros H. apply (reachable_Inv w H). Qed.


(* ================================================================== *)
(** * Alarm *)
(* ================================================================== *)

Lemma rerender_alarm x : alarm (rerender x) = alarm x.
Proof. apply rerender_frame, commit_alarm. Qed.

Lemma runListener_alarm l e w : alarm (runListener l e w) = alarm w.
Proof. destruct l; cbn [runListener]; solve_frame. Qed.

Lemma deviceorientation_alarm e w : alarm (deviceorientation e w) = alarm w.
Proof.
  unfold deviceorientation. generalize (listeners (window w)).
  intros ls. revert w. induction ls as [|l ls IH]; intros w; simpl; [reflexivity|].
  rewrite IH. unfold deliver.
  destruct (existsb _ _); [apply runListener_alarm|reflexivity].
Qed.

Lemma runCallback_alarm cb now w :
  alarm (runCallback cb now w)
  = match cb with
    | CbClock a r => alarm (clockTick a r now w)
    | _ => alarm w
    end.
Proof. destruct cb; cbn [runCallback]; try reflexivity; solve_frame. Qed.

Lemma fireTimer_alarm id now w :
  alarm (fireTimer id now w)
  = match findTimer id w with
    | Some e => alarm (runCallback (callback e) now w)
    | None => alarm w
    end.
Proof.
  unfold fireTimer. destruct (findTimer id w) as [e|]; [|reflexivity].
  destruct (repeating e); reflexivity.
Qed.

(** What a clock tick does to the alarm. *)
Lemma clockTick_alarm a r now w :
  alarm (clockTick a r now w)
  = if truthyString a && negb r
       && match a with Some s => alarmMatches s now | None => false end
    then setIsAlarmRinging true (alarm w) else alarm w.
Proof.
  unfold clockTick. destruct (truthyString a && negb r); [|reflexivity].
  destruct a as [s|]; [|reflexivity]. simpl.
  destruct (alarmMatches s now); reflexivity.
Qed.

Lemma alarmMatches_spec s now :
  alarmMatches s now = true ->
  exists h m,
    parseInt10 (nth_error (split_colon s) 0) = Some h
    /\ parseInt10 (nth_error (split_colon s) 1) = Some m
    /\ getHours now = h /\ getMinutes now = m /\ getSeconds now = 0.
Proof.
  unfold alarmMatches, strictEq. rewrite !andb_true_iff.
  destruct (parseInt10 (nth_error (split_colon s) 0)) as [h|];
    [|intros [[? _] _]; discriminate].
  destruct (parseInt10 (nth_error (split_colon s) 1)) as [m|];
    [|intros [[_ ?] _]; discriminate].
  intros [[H1 H2] H3]. exists h, m.
  rewrite Z.eqb_eq in *. auto.
Qed.

(** In a reachable world a pending clock tick has captured the current
    alarm time and ringing flag. *)
Lemma reachable_clock_current w e a r :
  reachable w -> In e (timers (window w)) -> callback e = CbClock a r ->
  a = alarmTime (alarm w) /\ r = isAlarmRinging (alarm w).
Proof.
  intros H He Hc. destruct (reachable_Inv w H) as [Hs (_ & Hk & _)].
  destruct (Hk e) as [Hcb _].
  - apply filter_In. split; [exact He|]. unfold ownedBy. rewrite Hc. reflexivity.
  - assert (Hd : hClockDeps w = clockDepsOf w).
    { apply clockChanged_false. unfold stable, anyChanged in Hs.
      destruct (clockChanged w); [discriminate|reflexivity]. }
    unfold hClockDeps, clockDepsOf in Hd. rewrite Hd in Hcb. simpl in Hcb.
    rewrite Hc in Hcb. injection Hcb as -> ->. auto.
Qed.

Lemma handleBackClick_alarm w :
  alarm (handleBackClick w)
  = if AppState_beq (appState (nav w)) app_hologram
       && ActiveHologram_beq (activeHologram (nav w)) h_alarm
       && isAlarmRinging (alarm w)
    then setIsAlarmRinging false (alarm w) else alarm w.
Proof.
  unfold handleBackClick.
  destruct (appState (nav w)); cbn [AppState_beq andb]; try reflexivity.
  destruct (activeHologram (nav w));
    cbn [ActiveHologram_beq isSensorHologram andb];
    unfold_prims; cbn; try reflexivity.
  destruct (isAlarmRinging (alarm w)); reflexivity.
Qed.

Lemma alarm_unchanged (w x : World) (P Q : Prop) :
  alarm x = alarm w ->
  (isAlarmRinging (alarm w) = false -> isAlarmRinging (alarm x) = true -> P)
  /\ (isAlarmRinging (alarm w) = true -> isAlarmRinging (alarm x) = false -> Q).
Proof. intros ->. split; congruence. Qed.

(** Claim C3, as amended.  In every reachable world and for every
    event: the alarm's [ringing] flag goes from false to true only
    when a timer fires whose callback is the clock tick, at a time
    whose hour and minute are those of the configured alarm time and
    whose second is 0; it goes from true to false only by the stop
    command, the clear command, or the back command issued while the
    alarm panel is shown.  (The set-alarm and clear handlers write
    false, too; the render offers neither while the alarm rings.) *)
Theorem C3_ringing_transitions (w : World) (ev : Event) :
  reachable w ->
  (isAlarmRinging (alarm w) = false ->
   isAlarmRinging (alarm (dispatch ev w)) = true ->
   exists id now s h m,
     ev = TimerFire id now
     /\ alarmTime (alarm w) = Some s
     /\ parseInt10 (nth_error (split_colon s) 0) = Some h
     /\ parseInt10 (nth_error (split_colon s) 1) = Some m
     /\ getHours now = h /\ getMinutes now = m /\ getSeconds now = 0)
  /\
  (isAlarmRinging (alarm w) = true ->
   isAlarmRinging (alarm (dispatch ev w)) = false ->
   ev = StopRingingClick \/ ev = ClearAlarmClick
   \/ (ev = BackClick /\ appState (nav w) = app_hologram
       /\ activeHologram (nav w) = h_alarm)).
Proof.
  intros Hr. unfold dispatch.
  destruct (enabled ev w) eqn:En; [|split; congruence].
  unfold invoke. rewrite rerender_alarm.
  destruct ev; cbn [handle]; cbn [enabled] in En;
    try (apply alarm_unchanged; unfold_handlers; cbn;
         repeat (break_match; cbn); reflexivity).
  - (* back *)
    rewrite handleBackClick_alarm.
    destruct (AppState_beq (appState (nav w)) app_hologram) eqn:E1;
      [|apply alarm_unchanged; reflexivity].
    destruct (ActiveHologram_beq (activeHologram (nav w)) h_alarm) eqn:E2;
      [|apply alarm_unchanged; reflexivity].
    destruct (isAlarmRinging (alarm w)) eqn:R; cbn [andb];
      [|rewrite R; split; discriminate].
    split; [discriminate|]. intros _ _. right; right.
    apply AppState_beq_eq in E1. apply ActiveHologram_beq_eq in E2. auto.
  - (* set alarm: not offered while ringing *)
    apply andb_true_iff in En as [_ En]. apply negb_true_iff in En.
    rewrite En. unfold handleSetAlarm.
    split; [|discriminate]. destruct (truthyString (Some value)); cbn; congruence.
  - (* clear *)
    split; [cbn; discriminate|auto].
  - (* stop *)
    split; [cbn; discriminate|auto].
  - (* a timer fires *)
    rewrite fireTimer_alarm.
    destruct (findTimer id w) as [e|] eqn:F; [|apply alarm_unchanged; reflexivity].
    apply findTimer_In in F as [He _].
    rewrite runCallback_alarm.
    destruct (callback e) as [a r| | | | | |] eqn:Cb;
      try (apply alarm_unchanged; reflexivity).
    destruct (reachable_clock_current w e a r Hr He Cb) as [-> ->].
    rewrite clockTick_alarm.
    destruct (isAlarmRinging (alarm w)) eqn:R.
    + rewrite andb_false_r. cbn [andb]. rewrite R. split; discriminate.
    + rewrite andb_true_r.
      destruct (alarmTime (alarm w)) as [s|] eqn:A;
        [|rewrite andb_false_r, R; split; discriminate].
      destruct (truthyString (Some s)); cbn [andb];
        [|rewrite R; split; discriminate].
      destruct (alarmMatches s now) eqn:M; [|rewrite R; split; discriminate].
      split; [|discriminate]. intros _ _.
      destruct (alarmMatches_spec s now M) as (h & m & H1 & H2 & H3 & H4 & H5).
      exists id, now, s, h, m. auto 10.
  - (* an orientation event *)
    rewrite deviceorientation_alarm. apply alarm_unchanged; reflexivity.
Qed.

(** The alarm set for 07:30 and the clock tick of 07:30:00. *)
Lemma C3_ringing_transitions_witness :
  reachable alarmSet
  /\ ((isAlarmRinging (alarm alarmSet) = false ->
       isAlarmRinging (alarm (dispatch (TimerFire 2 t0730) alarmSet)) = true ->
       exists id now s h m,
         TimerFire 2 t0730 = TimerFire id now
         /\ alarmTime (alarm alarmSet) = Some s
         /\ parseInt10 (nth_error (split_colon s) 0) = Some h
         /\ parseInt10 (nth_error (split_colon s) 1) = Some m
         /\ getHours now = h /\ getMinutes now = m /\ getSeconds now = 0)
      /\
      (isAlarmRinging (alarm alarmSet) = true ->
       isAlarmRinging (alarm (dispatch (TimerFire 2 t0730) alarmSet)) = false ->
       TimerFire 2 t0730 = StopRingingClick
       \/ TimerFire 2 t0730 = ClearAlarmClick
       \/ (TimerFire 2 t0730 = BackClick
           /\ appState (nav alarmSet) = app_hologram
           /\ activeHologram (nav alarmSet) = h_alarm))).
Proof.
  assert (H : reachable alarmSet) by (apply reachable_run, reach_init).
  split; [exact H|].
  exact (C3_ringing_transitions alarmSet (TimerFire 2 t0730) H).
Defined.

(** Claim C3 as stated fails: with the alarm ringing and its panel
    shown, the back command (lines 419-421) clears [ringing], and it
    is neither the stop nor the clear command. *)
Lemma C3_back_stops_ringing :
  reachable alarmRinging
  /\ isAlarmRinging (alarm alarmRinging) = true
  /\ isAlarmRinging (alarm (dispatch BackClick alarmRinging)) = false
  /\ BackClick <> StopRingingClick
  /\ BackClick <> ClearAlarmClick.
Proof.
  split; [apply reach_step, reachable_run, reach_init|].
  split; [vm_compute; reflexivity|].
  split; [vm_compute; reflexivity|].
  split; discriminate.
Qed.

(** The alarm set for 07:30 rings on the tick of 07:30:00, keeps
    ringing on the next tick, and stops on the stop command. *)
Example alarm_rings_at_0730 :
  isAlarmRinging (alarm alarmSet) = false
  /\ isAlarmRinging (alarm alarmRinging) = true
  /\ isAlarmRinging
       (alarm (dispatch
                 (TimerFire 3 {| getHours := 7; getMinutes := 30;
                                 getSeconds := 1 |}) alarmRinging)) = true
  /\ isAlarmRinging (alarm (dispatch StopRingingClick alarmRinging)) = false.
Proof. vm_compute. repeat split. Qed.

(* ================================================================== *)
(** * Timer *)
(* ================================================================== *)

Lemma commit_timerSeconds x : timerSecondsOf (commit x) = timerSecondsOf x.
Proof.
  unfold timerSecondsOf. rewrite commit_timer.
  destruct (timerChanged x && timerExpired (timer x)); reflexivity.
Qed.

Lemma commit_timerMode x : timerModeOf (commit x) = timerModeOf x.
Proof.
  unfold timerModeOf. rewrite commit_timer.
  destruct (timerChanged x && timerExpired (timer x)); reflexivity.
Qed.

Lemma rerender_timerSeconds x :
  timerSeconds (timer (rerender x)) = timerSeconds (timer x).
Proof. apply (rerender_frame timerSecondsOf), commit_timerSeconds. Qed.

Lemma rerender_timerMode x : timerMode (timer (rerender x)) = timerMode (timer x).
Proof. apply (rerender_frame timerModeOf), commit_timerMode. Qed.

Lemma rerender_nav x : nav (rerender x) = nav x.
Proof. apply rerender_frame, commit_nav. Qed.

(** Rendering leaves a timer that is not running alone. *)
Lemma rerender_timer_inactive x :
  isTimerActive (timer x) = false -> timer (rerender x) = timer x.
Proof.
  intros H.
  assert (Hc : forall y, isTimerActive (timer y) = false ->
                         timer (commit y) = timer y).
  { intros y Hy. rewrite commit_timer. unfold timerExpired. rewrite Hy.
    rewrite andb_false_r. reflexivity. }
  destruct (rerender_cases x) as [[_ ->]|[[_ ->]| ->]]; auto.
  rewrite Hc; rewrite Hc; auto.
Qed.

Lemma handleBackClick_timer w :
  appState (nav w) = app_hologram -> activeHologram (nav w) = h_timer ->
  timer (handleBackClick w)
  = setTimerFinished false (setIsTimerActive false (timer w)).
Proof. intros H1 H2. unfold handleBackClick. rewrite H1, H2. reflexivity. Qed.

Lemma enabled_back w :
  appState (nav w) = app_hologram -> enabled BackClick w = true.
Proof. intros H. unfold enabled. rewrite H. reflexivity. Qed.

(** Claim C10.  The back command issued in the timer panel sets
    [active] and [finished] to false and leaves the seconds and the
    mode as they were; entering the timer again finds the same seconds
    and mode; the reset command sets the seconds to 0. *)
Theorem C10_back_keeps_seconds_and_mode (w : World) :
  appState (nav w) = app_hologram ->
  activeHologram (nav w) = h_timer ->
  let w1 := dispatch BackClick w in
  let w2 := dispatch (HologramSelect h_timer) w1 in
  (isTimerActive (timer w1) = false
   /\ timerFinished (timer w1) = false
   /\ timerSeconds (timer w1) = timerSeconds (timer w)
   /\ timerMode (timer w1) = timerMode (timer w))
  /\ (appState (nav w2) = app_hologram
      /\ activeHologram (nav w2) = h_timer
      /\ timerSeconds (timer w2) = timerSeconds (timer w)
      /\ timerMode (timer w2) = timerMode (timer w))
  /\ timerSeconds (timer (invoke ResetClick w)) = 0.
Proof.
  intros H1 H2 w1 w2.
  assert (E1 : timer w1
               = setTimerFinished false (setIsTimerActive false (timer w))).
  { unfold w1, dispatch. rewrite enabled_back by assumption.
    unfold invoke. cbn [handle]. rewrite rerender_timer_inactive.
    - apply handleBackClick_timer; assumption.
    - rewrite handleBackClick_timer by assumption. reflexivity. }
  assert (E2 : timer w2 = timer w1 /\ nav w2 = nav (handleHologramSelect h_timer w1)).
  { unfold w2, dispatch. cbn [enabled]. unfold invoke. cbn [handle].
    rewrite rerender_nav. split; [|reflexivity].
    rewrite rerender_timer_inactive; [reflexivity|].
    cbn. rewrite E1. reflexivity. }
  destruct E2 as [E2 E3].
  split; [rewrite E1; auto|]. split.
  - rewrite E3, E2, E1. auto.
  - unfold invoke. rewrite rerender_timerSeconds. reflexivity.
Qed.

Lemma commit_onlyTimer x :
  onlyTimerDue x -> commit x = timerEffect x (timerCleanup x).
Proof.
  intros (H1 & H2 & H3 & H4 & H5). unfold commit.
  rewrite H1, H2, H3, H4, H5. reflexivity.
Qed.

Lemma onlyTimerDue_any x : onlyTimerDue x -> anyChanged x = true.
Proof.
  intros (H1 & H2 & H3 & H4 & H5). unfold anyChanged.
  rewrite H1, H2, H3, H4, H5. reflexivity.
Qed.

Lemma find_fresh (l : list TimerEntry) (n : nat) (e : TimerEntry)
  (p : TimerEntry -> bool) :
  (forall x, In x l -> (tid x < n)%nat) -> tid e = n ->
  find (fun x => Nat.eqb (tid x) n) (filter p l ++ [e]) = Some e.
Proof.
  intros H He. induction l as [|a l IH]; simpl.
  - rewrite He, Nat.eqb_refl. reflexivity.
  - assert (Ha : Nat.eqb (tid a) n = false).
    { apply Nat.eqb_neq. specialize (H a (or_introl eq_refl)). lia. }
    destruct (p a); simpl; rewrite ?Ha; apply IH; intros x Hx; apply H;
      right; exact Hx.
Qed.

(** Rendering a running countdown with seconds left re-arms the
    interval. *)
Lemma rerender_arm x s f :
  onlyTimerDue x -> IdsOK x -> 0 < s ->
  timer x = {| timerSeconds := s; isTimerActive := true; timerFinished := f;
               timerMode := countdown |} ->
  timer (rerender x) = timer x
  /\ exists id, timerInterval (hooks (rerender x)) = Some id
                /\ findTimer id (rerender x) = Some (stepEntry id).
Proof.
  intros Hd [_ Hi] Hs Ht.
  pose proof (commit_onlyTimer x Hd) as E.
  assert (Hpos : (0 <? s) = true) by (apply Z.ltb_lt; exact Hs).
  assert (T : timer (commit x) = timer x).
  { rewrite commit_timer. unfold timerExpired. rewrite Ht. cbn.
    rewrite Hpos. rewrite andb_false_r. reflexivity. }
  assert (R : rerender x = commit x).
  { apply rerender_one; [apply onlyTimerDue_any, Hd|].
    apply commit_stable; [exact T|].
    rewrite commit_permission. destruct Hd as (_ & _ & _ & -> & _).
    reflexivity. }
  rewrite R. split; [exact T|].
  rewrite E. unfold timerEffect. rewrite Ht. cbn [isTimerActive timerMode timerSeconds].
  rewrite Hpos. unfold setInterval, addTimer. cbn.
  exists (nextTimerId (window (timerCleanup x))). split; [reflexivity|].
  unfold findTimer. cbn.
  unfold timerCleanup, clearInterval, clearTimeout.
  destruct (timerInterval (hooks x)) as [i|]; cbn.
  - apply find_fresh; [|reflexivity]. intros y Hy. apply Hi in Hy. unfold nextId in Hy. lia.
  - rewrite <- (filter_true (timers (window x))) at 1.
    apply find_fresh; [|reflexivity]. intros y Hy. apply Hi in Hy. unfold nextId in Hy. lia.
Qed.

(** Rendering a running countdown at zero stops and finishes it. *)
Lemma rerender_finish x f :
  onlyTimerDue x ->
  timer x = {| timerSeconds := 0; isTimerActive := true; timerFinished := f;
               timerMode := countdown |} ->
  timer (rerender x) = countdownDone
  /\ timerInterval (hooks (rerender x)) = None.
Proof.
  intros Hd Ht.
  pose proof (commit_onlyTimer x Hd) as E.
  assert (T : timer (commit x) = countdownDone).
  { rewrite commit_timer. destruct Hd as (_ & _ & _ & _ & ->).
    unfold timerExpired. rewrite Ht. reflexivity. }
  assert (D : onlyTimerDue (commit x)).
  { split; [apply commit_clock_stable|].
    split; [apply commit_visual_stable|].
    split; [apply commit_audio_stable|].
    split.
    - apply sensorChanged_false.
      rewrite commit_hSensorDeps, commit_sensorDepsOf, commit_permission.
      destruct Hd as (_ & _ & _ & -> & _). reflexivity.
    - destruct (timerChanged (commit x)) eqn:C; [reflexivity|].
      apply timerChanged_false in C. rewrite commit_hTimerDeps in C.
      unfold timerDepsOf in C. rewrite T, Ht in C. discriminate C. }
  assert (R : rerender x = commit (commit x)).
  { apply rerender_two; apply onlyTimerDue_any; assumption. }
  rewrite R. rewrite (commit_onlyTimer (commit x) D).
  unfold timerEffect. rewrite T. cbn [isTimerActive countdownDone].
  split; [|reflexivity]. cbn.
  unfold timerCleanup. destruct (timerInterval (hooks (commit x))); exact T.
Qed.

(** Changing only the timer state of a stable world makes at most the
    timer effect due. *)
Lemma on_timer_due w g :
  stable w -> timerDepsOf (on_timer g w) <> timerDepsOf w ->
  onlyTimerDue (on_timer g w).
Proof.
  intros Hs Hn. destruct (stable_flags w Hs) as (F1 & F2 & F3 & F4 & F5).
  split; [exact F1|]. split; [exact F3|]. split; [exact F4|].
  split; [exact F5|].
  destruct (timerChanged (on_timer g w)) eqn:C; [reflexivity|].
  apply timerChanged_false in C. apply timerChanged_false in F2.
  exfalso. apply Hn. rewrite <- C, <- F2. reflexivity.
Qed.

Lemma Running_tick k now w :
  Running k w ->
  ((k < 59)%nat -> Running (S k) (timerTick now w))
  /\ (k = 59%nat -> Finished (timerTick now w)).
Proof.
  intros (Hr & Ht & id & Hi & Hf).
  assert (Rt : reachable (timerTick now w)).
  { unfold timerTick. rewrite Hi. apply reach_step, Hr. }
  assert (E : timerTick now w
              = rerender (on_timer
                            (fun t => setTimerSeconds (timerSeconds t + -1) t) w)).
  { unfold timerTick. rewrite Hi. unfold dispatch. cbn [enabled].
    unfold invoke. cbn [handle]. unfold fireTimer. rewrite Hf. reflexivity. }
  set (x := on_timer (fun t => setTimerSeconds (timerSeconds t + -1) t) w) in E.
  assert (Tx : timer x = countdownAt (60 - Z.of_nat k - 1)).
  { unfold x. cbn. rewrite Ht. reflexivity. }
  assert (D : onlyTimerDue x).
  { apply on_timer_due; [apply reachable_stable, Hr|].
    unfold timerDepsOf. fold x. rewrite Tx, Ht. cbn. intros [= H]. lia. }
  split.
  - intros Hk.
    destruct (rerender_arm x (60 - Z.of_nat k - 1) false D) as [T [i [I F]]].
    + apply (reachable_IdsOK w Hr).
    + lia.
    + exact Tx.
    + split; [exact Rt|]. rewrite E. split.
      * rewrite T, Tx. f_equal. lia.
      * exists i. auto.
  - intros ->.
    destruct (rerender_finish x false D Tx) as [T I].
    split; [exact Rt|]. rewrite E. auto.
Qed.

Lemma Finished_tick now w : Finished w -> timerTick now w = w.
Proof. intros (_ & _ & H). unfold timerTick. rewrite H. reflexivity. Qed.

Lemma ticks_app a b w : ticks (a ++ b) w = ticks b (ticks a w).
Proof. unfold ticks. apply fold_left_app. Qed.

Lemma Running_ticks nows : forall k w,
  Running k w -> (k + List.length nows < 60)%nat ->
  Running (k + List.length nows) (ticks nows w).
Proof.
  induction nows as [|now nows IH]; intros k w H Hk; simpl in *.
  - rewrite Nat.add_0_r. exact H.
  - rewrite Nat.add_succ_r. apply (IH (S k)); [|lia].
    apply (Running_tick k now w H). lia.
Qed.

Lemma Finished_ticks nows w : Finished w -> ticks nows w = w.
Proof.
  intros H. induction nows as [|now nows IH]; simpl; [reflexivity|].
  rewrite Finished_tick by exact H. exact IH.
Qed.

Lemma Running_finish nows w :
  Running 0 w -> (60 <= List.length nows)%nat -> Finished (ticks nows w).
Proof.
  intros H Hl.
  rewrite <- (firstn_skipn 59 nows), ticks_app.
  assert (L : List.length (firstn 59 nows) = 59%nat).
  { rewrite length_firstn. lia. }
  pose proof (Running_ticks (firstn 59 nows) 0 w H) as H1.
  rewrite L in H1. specialize (H1 ltac:(lia)). simpl in H1.
  destruct (skipn 59 nows) as [|now rest] eqn:S.
  - exfalso. apply (f_equal (@List.length Date)) in S.
    rewrite length_skipn in S. simpl in S. lia.
  - simpl. destruct (Running_tick 59 now _ H1) as [_ H2].
    specialize (H2 eq_refl). rewrite Finished_ticks; assumption.
Qed.

Lemma handleSetPreset_timer minutes w :
  timer (handleSetPreset minutes w) = countdownAt (minutes * 60).
Proof. reflexivity. Qed.

Lemma preset_starts w :
  reachable w -> enabled (PresetClick 1) w = true ->
  Running 0 (dispatch (PresetClick 1) w).
Proof.
  intros Hr He.
  assert (Rt : reachable (dispatch (PresetClick 1) w)) by (apply reach_step, Hr).
  split; [exact Rt|].
  unfold dispatch. rewrite He. unfold invoke. cbn [handle].
  assert (Hact : isTimerActive (timer w) = false).
  { cbn [enabled] in He. rewrite !andb_true_iff in He.
    destruct He as [[_ He] _]. apply negb_true_iff, orb_false_iff in He.
    apply He. }
  assert (D : onlyTimerDue (handleSetPreset 1 w)).
  { unfold handleSetPreset.
    assert (G : forall g h i j,
      on_timer g (on_timer h (on_timer i (on_timer j w)))
      = on_timer (fun t => g (h (i (j t)))) w) by reflexivity.
    rewrite G. apply on_timer_due; [apply reachable_stable, Hr|].
    unfold timerDepsOf. cbn. rewrite Hact. discriminate. }
  destruct (rerender_arm (handleSetPreset 1 w) 60 false D) as [T [i [I F]]].
  - apply (reachable_IdsOK w Hr).
  - lia.
  - reflexivity.
  - split; [rewrite T; reflexivity|]. exists i. auto.
Qed.

(** Once no timer interval is held, no firing timer touches the timer
    state. *)
Lemma idle_timer_untouched id now w :
  reachable w -> isTimerActive (timer w) = false ->
  timerInterval (hooks w) = None ->
  timer (dispatch (TimerFire id now) w) = timer w.
Proof.
  intros Hr Ha Hn. unfold dispatch. cbn [enabled]. unfold invoke. cbn [handle].
  assert (E : timer (fireTimer id now w) = timer w).
  { unfold fireTimer. destruct (findTimer id w) as [e|] eqn:F; [|reflexivity].
    apply findTimer_In in F as [He _].
    assert (Hcb : forall d, callback e <> CbTimerStep d).
    { intros d Hd. destruct (reachable_Inv w Hr) as [_ (_ & _ & Ht & _)].
      specialize (Ht e). rewrite Hn in Ht. discriminate Ht.
      apply filter_In. split; [exact He|]. unfold ownedBy. rewrite Hd.
      reflexivity. }
    assert (E1 : timer (runCallback (callback e) now w) = timer w).
    { destruct (callback e) as [a r|d| | | | |]; cbn [runCallback];
        try (exfalso; apply (Hcb d); reflexivity);
        unfold_handlers; solve_frame. }
    destruct (repeating e); [exact E1|]. exact E1. }
  rewrite rerender_timer_inactive; rewrite E; auto.
Qed.

(** Claim C7.  [setPreset(1)] yields the state (countdown, 60 seconds,
    active, not finished).  From a reachable world in which the preset
    button is offered: after fewer than 60 ticks of the timer interval
    the countdown is still running with 60 less the number of ticks on
    the display and [finished] false; after 60 ticks, and after any
    greater number, the state is (0 seconds, not active, finished);
    from then on no timer the browser may fire changes it, so the
    finished transition happens once and the seconds never go below
    0. *)
Theorem C7_preset_countdown (w : World) :
  reachable w ->
  enabled (PresetClick 1) w = true ->
  let w0 := dispatch (PresetClick 1) w in
  timer (handleSetPreset 1 w) = countdownAt 60
  /\ timer w0 = countdownAt 60
  /\ (forall nows, (List.length nows < 60)%nat ->
        timer (ticks nows w0) = countdownAt (60 - Z.of_nat (List.length nows)))
  /\ (forall nows, (60 <= List.length nows)%nat ->
        timer (ticks nows w0) = countdownDone
        /\ forall id now,
             timer (dispatch (TimerFire id now) (ticks nows w0)) = countdownDone).
Proof.
  intros Hr He w0.
  pose proof (preset_starts w Hr He) as H0. fold w0 in H0.
  split; [reflexivity|].
  split; [apply H0|].
  split.
  - intros nows Hl. apply (Running_ticks nows 0 w0 H0). simpl. exact Hl.
  - intros nows Hl. destruct (Running_finish nows w0 H0 Hl) as (R & T & I).
    split; [exact T|]. intros id now.
    rewrite idle_timer_untouched; auto. rewrite T. reflexivity.
Qed.

(** The one-minute preset from the timer panel, then 60 ticks. *)
Lemma C7_preset_countdown_witness :
  reachable timerShown
  /\ enabled (PresetClick 1) timerShown = true
  /\ timer (dispatch (PresetClick 1) timerShown) = countdownAt 60
  /\ timer (ticks (repeat t0730 60) (dispatch (PresetClick 1) timerShown))
     = countdownDone.
Proof.
  assert (H : reachable timerShown) by (apply reachable_run, reach_init).
  assert (E : enabled (PresetClick 1) timerShown = true)
    by (vm_compute; reflexivity).
  split; [exact H|]. split; [exact E|].
  pose proof (C7_preset_countdown timerShown H E) as H0. cbv zeta in H0.
  destruct H0 as (_ & H1 & _ & H2).
  split; [exact H1|].
  assert (L : (60 <= List.length (repeat t0730 60))%nat)
    by (rewrite repeat_length; apply le_n).
  destruct (H2 (repeat t0730 60) L) as [H3 _]. exact H3.
Defined.

(** A countdown at 58 seconds, left by the back command. *)
Lemma C10_back_keeps_seconds_and_mode_witness :
  appState (nav timerRunning) = app_hologram
  /\ activeHologram (nav timerRunning) = h_timer
  /\ timer timerRunning = countdownAt 58
  /\ timerSeconds (timer (dispatch BackClick timerRunning)) = 58
  /\ timerMode (timer (dispatch BackClick timerRunning)) = countdown
  /\ isTimerActive (timer (dispatch BackClick timerRunning)) = false.
Proof.
  assert (H1 : appState (nav timerRunning) = app_hologram)
    by (vm_compute; reflexivity).
  assert (H2 : activeHologram (nav timerRunning) = h_timer)
    by (vm_compute; reflexivity).
  assert (H3 : timer timerRunning = countdownAt 58)
    by (vm_compute; reflexivity).
  split; [exact H1|]. split; [exact H2|]. split; [exact H3|].
  pose proof (C10_back_keeps_seconds_and_mode timerRunning H1 H2) as H0.
  cbv zeta in H0. destruct H0 as ((A & _ & S & M) & _).
  split; [rewrite S, H3; reflexivity|].
  split; [rewrite M, H3; reflexivity|exact A].
Defined.

(* ================================================================== *)
(** * Flashlight: the SOS signal *)
(* ================================================================== *)

Lemma schedulePatternVisual_timers w :
  timers (window (schedulePatternVisual w))
  = timers (window (clearVisualSosTimeouts w)) ++ visualRun (nextId w).
Proof.
  unfold schedulePatternVisual.
  rewrite schedulePatternVisualOn_eq, clearVisualSosTimeouts_eq. reflexivity.
Qed.

Lemma schedulePatternAudio_timers w :
  timers (window (schedulePatternAudio w))
  = timers (window (clearAudioSosTimeouts w)) ++ audioRun (nextId w).
Proof.
  unfold schedulePatternAudio.
  rewrite schedulePatternAudioOn_eq, clearAudioSosTimeouts_eq. reflexivity.
Qed.

(** Claim C1.  The SOS pattern has 18 steps whose durations sum to
    7600 ms.  One pass of the visual [schedulePattern], in any world,
    registers exactly 19 timeouts after cancelling the old ones: the
    k-th (from 0) at the sum of the durations of the steps before step
    k, with a callback that sets the light-visible flag to the [on]
    value of step k, and last the loop restart at 7600 ms, whose
    callback is another pass. *)
Theorem C1_sos_visual_pass (w : World) :
  List.length sosPattern = 18%nat
  /\ totalDuration sosPattern = 7600
  /\ exists registered,
       timers (window (schedulePatternVisual w))
       = timers (window (clearVisualSosTimeouts w)) ++ registered
       /\ List.length registered = 19%nat
       /\ (forall k s, nth_error sosPattern k = Some s ->
             nth_error registered k
             = Some {| tid := (k + nextId w)%nat;
                       delay := offsetOf k sosPattern;
                       repeating := false;
                       callback := CbSetLight (on s) |})
       /\ nth_error registered 18
          = Some {| tid := (18 + nextId w)%nat; delay := 7600;
                    repeating := false; callback := CbVisualLoop |}
       /\ (forall b now x,
             isSosLightVisible (flashlight (runCallback (CbSetLight b) now x))
             = b)
       /\ (forall now x,
             runCallback CbVisualLoop now x = schedulePatternVisual x).
Proof.
  split; [reflexivity|]. split; [reflexivity|].
  exists (visualRun (nextId w)).
  split; [apply schedulePatternVisual_timers|].
  split; [reflexivity|]. split; [|split; [|split]; reflexivity].
  intros k s H.
  do 18 (destruct k as [|k]; [injection H as <-; reflexivity|]).
  destruct k; discriminate.
Qed.

Lemma visualRun_base b b' e : In e (visualRun b) -> In e (visualRun b') -> b = b'.
Proof.
  intros H H'. cbn in H.
  repeat (destruct H as [H|H];
          [subst e; cbn in H';
           repeat (destruct H' as [H'|H'];
                   [pose proof (f_equal delay H') as D;
                    pose proof (f_equal tid H') as T;
                    cbn in D, T; first [discriminate D|lia]|]);
           destruct H'|]).
  destruct H.
Qed.

Lemma audioRun_base b b' e : In e (audioRun b) -> In e (audioRun b') -> b = b'.
Proof.
  intros H H'. cbn in H.
  repeat (destruct H as [H|H];
          [subst e; cbn in H';
           repeat (destruct H' as [H'|H'];
                   [pose proof (f_equal delay H') as D;
                    pose proof (f_equal tid H') as T;
                    cbn in D, T; first [discriminate D|lia]|]);
           destruct H'|]).
  destruct H.
Qed.

(* ---------- oscillators ---------- *)

Lemma rerender_tones x : tones (rerender x) = tones x.
Proof. apply rerender_frame, commit_tones. Qed.

Lemma runCallback_tones cb now w :
  tones (runCallback cb now w)
  = tones w ++ match cb with CbPlayTone d => [toneOf d] | _ => [] end.
Proof.
  destruct cb; cbn [runCallback]; rewrite ?app_nil_r;
    try reflexivity; unfold_handlers; solve_frame.
Qed.

Lemma fireTimer_tones id now w :
  tones (fireTimer id now w)
  = tones w ++ match findTimer id w with
               | Some e => match callback e with
                           | CbPlayTone d => [toneOf d]
                           | _ => []
                           end
               | None => []
               end.
Proof.
  unfold fireTimer. destruct (findTimer id w) as [e|]; [|symmetry; apply app_nil_r].
  rewrite <- (runCallback_tones (callback e) now w).
  destruct (repeating e); reflexivity.
Qed.

Lemma runListener_tones l e w : tones (runListener l e w) = tones w.
Proof. destruct l; cbn [runListener]; solve_frame. Qed.

Lemma deviceorientation_tones e w : tones (deviceorientation e w) = tones w.
Proof.
  unfold deviceorientation. generalize (listeners (window w)).
  intros ls. revert w. induction ls as [|l ls IH]; intros w; simpl; [reflexivity|].
  rewrite IH. unfold deliver.
  destruct (existsb _ _); [apply runListener_tones|reflexivity].
Qed.

Lemma handleBackClick_tones w : tones (handleBackClick w) = tones w.
Proof.
  unfold handleBackClick.
  destruct (appState (nav w)); try reflexivity.
  destruct (activeHologram (nav w));
    cbn [ActiveHologram_beq isSensorHologram andb];
    unfold_prims; cbn; repeat (break_match; cbn); reflexivity.
Qed.

Lemma clearAudioSosTimeouts_tones w : tones (clearAudioSosTimeouts w) = tones w.
Proof. solve_frame. Qed.

Lemma handle_tones ev w :
  exists started, tones (handle ev w) = tones w ++ started.
Proof.
  destruct ev; cbn [handle];
    try (exists []; rewrite app_nil_r; unfold_handlers; solve_frame).
  - exists []. rewrite app_nil_r. apply handleBackClick_tones.
  - eexists. apply fireTimer_tones.
  - exists []. rewrite app_nil_r. apply deviceorientation_tones.
Qed.

Lemma dispatch_tones ev w :
  exists started, tones (dispatch ev w) = tones w ++ started.
Proof.
  unfold dispatch. destruct (enabled ev w).
  - unfold invoke. rewrite rerender_tones. apply handle_tones.
  - exists []. symmetry. apply app_nil_r.
Qed.

Lemma dispatch_back_tones w : tones (dispatch BackClick w) = tones w.
Proof.
  unfold dispatch. destruct (enabled BackClick w); [|reflexivity].
  unfold invoke. rewrite rerender_tones. apply handleBackClick_tones.
Qed.

(* ---------- the channels after a cancel ---------- *)

Lemma VisualOK_run w : VisualOK w -> exists base, incl (pending OVisual w) (visualRun base).
Proof.
  intros [H|[base [H _]]]; [exists O; rewrite H; intros e []|exists base; exact H].
Qed.

Lemma AudioOK_run w : AudioOK w -> exists base, incl (pending OAudio w) (audioRun base).
Proof.
  intros [H|[base [H _]]]; [exists O; rewrite H; intros e []|exists base; exact H].
Qed.

(** Claim C5.  In every reachable world the pending timeouts of the
    visual channel all belong to one run (the timeouts one scheduling
    pass registered from one base id), and so do those of the audio
    channel; two passes with different base ids share no timeout.
    A scheduling pass first cancels: the cancel leaves no timeout of
    the channel pending, the pass adds its timeouts to what the cancel
    left, and after the pass exactly the timeouts of the new run are
    pending on the channel. *)
Theorem C5_single_live_run (w : World) :
  reachable w ->
  ((exists base, incl (pending OVisual w) (visualRun base))
   /\ (exists base, incl (pending OAudio w) (audioRun base)))
  /\ (pending OVisual (clearVisualSosTimeouts w) = []
      /\ timers (window (schedulePatternVisual w))
         = timers (window (clearVisualSosTimeouts w)) ++ visualRun (nextId w)
      /\ pending OVisual (schedulePatternVisual w) = visualRun (nextId w))
  /\ (pending OAudio (clearAudioSosTimeouts w) = []
      /\ timers (window (schedulePatternAudio w))
         = timers (window (clearAudioSosTimeouts w)) ++ audioRun (nextId w)
      /\ pending OAudio (schedulePatternAudio w) = audioRun (nextId w))
  /\ (forall b b' e, In e (visualRun b) -> In e (visualRun b') -> b = b')
  /\ (forall b b' e, In e (audioRun b) -> In e (audioRun b') -> b = b').
Proof.
  intros Hr.
  pose proof (reachable_VisualOK w Hr) as Hv.
  pose proof (reachable_AudioOK w Hr) as Ha.
  split; [split; [apply VisualOK_run|apply AudioOK_run]; assumption|].
  split; [split; [apply clearVisual_clears, Hv|split;
                  [apply schedulePatternVisual_timers
                  |apply schedulePatternVisual_pending, Hv]]|].
  split; [split; [apply clearAudio_clears, Ha|split;
                  [apply schedulePatternAudio_timers
                  |apply schedulePatternAudio_pending, Ha]]|].
  split; [exact visualRun_base|exact audioRun_base].
Qed.

Lemma visualEffect_inactive_adds o snap y :
  isSosActive (flashlight snap) = false -> Adds o y (visualEffect snap y).
Proof. intros H. unfold visualEffect. rewrite H. cbn [negb]. solve_adds. Qed.

Lemma audioEffect_inactive_adds o snap y :
  isAudioSosActive (flashlight snap) = false -> Adds o y (audioEffect snap y).
Proof.
  intros H. unfold audioEffect. rewrite H. cbn [negb orb]. solve_adds.
Qed.

Lemma commit_NoPending_visual x :
  isSosActive (flashlight x) = false ->
  NoPending OVisual x -> NoPending OVisual (commit x).
Proof.
  intros Hi H. unfold commit; cbv zeta.
  do 2 (apply whenb_pres; [intros y; apply NoPending_shrink; shrinks|]).
  apply whenb_pres.
  { intros y. apply NoPending_shrink.
    apply (Adds_pending OClock); [|discriminate].
    apply visualEffect_inactive_adds, Hi. }
  do 7 (apply whenb_pres; [intros y; apply NoPending_shrink; shrinks|]).
  exact H.
Qed.

Lemma commit_NoPending_audio x :
  isAudioSosActive (flashlight x) = false ->
  NoPending OAudio x -> NoPending OAudio (commit x).
Proof.
  intros Hi H. unfold commit; cbv zeta.
  apply whenb_pres; [intros y; apply NoPending_shrink; shrinks|].
  apply whenb_pres.
  { intros y. apply NoPending_shrink.
    apply (Adds_pending OClock); [|discriminate].
    apply audioEffect_inactive_adds, Hi. }
  do 8 (apply whenb_pres; [intros y; apply NoPending_shrink; shrinks|]).
  exact H.
Qed.

Lemma visualEffect_inactive_light snap y :
  isSosActive (flashlight snap) = false ->
  isSosLightVisibleOf (visualEffect snap y) = true.
Proof.
  intros H. unfold visualEffect. rewrite H. cbn [negb].
  rewrite clearVisualSosTimeouts_eq. reflexivity.
Qed.

Lemma commit_light x :
  isSosActive (flashlight x) = false ->
  isSosLightVisibleOf (commit x)
  = if visualChanged x then true else isSosLightVisibleOf x.
Proof.
  intros Hi. unfold commit; cbv zeta.
  rewrite !whenb_frame by solve_frame.
  destruct (visualChanged x); rewrite ?whenb_true, ?whenb_false.
  - apply visualEffect_inactive_light, Hi.
  - rewrite !whenb_frame by solve_frame. reflexivity.
Qed.


Lemma Silent_commit x : Silent x -> Silent (commit x).
Proof.
  intros (H1 & H2 & H3 & H4). split; [|split; [|split]].
  - fold (isSosActiveOf (commit x)). rewrite commit_isSosActive. exact H1.
  - fold (isAudioSosActiveOf (commit x)). rewrite commit_isAudioSosActive.
    exact H2.
  - apply commit_NoPending_visual; assumption.
  - apply commit_NoPending_audio; assumption.
Qed.

Lemma Silent_rerender x : Silent x -> Silent (rerender x).
Proof. intros H. apply rerender_ind; [exact H|apply Silent_commit]. Qed.

Lemma Silent_light_commit x :
  Silent x -> isSosLightVisibleOf x = true \/ visualChanged x = true ->
  isSosLightVisibleOf (commit x) = true.
Proof.
  intros (H1 & _) H. rewrite commit_light by exact H1.
  destruct (visualChanged x); [reflexivity|].
  destruct H as [H|H]; [exact H|discriminate].
Qed.

Lemma Silent_light_rerender x :
  Silent x -> isSosLightVisibleOf x = true \/ visualChanged x = true ->
  isSosLightVisible (flashlight (rerender x)) = true.
Proof.
  intros Hs H. fold (isSosLightVisibleOf (rerender x)).
  destruct (rerender_cases x) as [[St ->]|[[_ ->]| ->]].
  - destruct H as [H|H]; [exact H|].
    apply stable_flags in St. destruct St as (_ & _ & St & _). congruence.
  - apply Silent_light_commit; assumption.
  - apply Silent_light_commit; [apply Silent_commit, Hs|].
    left. apply Silent_light_commit; assumption.
Qed.

Lemma handleBackClick_flashlight w :
  shown h_flashlight w = true ->
  handleBackClick w
  = on_nav (setAppState app_menu)
      (on_nav (setActiveHologram h_none)
         (clearAudioSosTimeouts
            (clearVisualSosTimeouts
               (on_flashlight (setIsAudioSosActive false)
                  (on_flashlight (setIsSosActive false)
                     (on_flashlight (setIsFlashlightOn false) w)))))).
Proof.
  unfold shown. rewrite andb_true_iff, AppState_beq_eq, ActiveHologram_beq_eq.
  intros [H1 H2]. unfold handleBackClick. rewrite H1, H2. reflexivity.
Qed.

(** The back command in the flashlight panel silences both channels. *)
Lemma back_silences w :
  reachable w -> shown h_flashlight w = true -> Silent (handleBackClick w).
Proof.
  intros Hr Hs. rewrite (handleBackClick_flashlight w Hs).
  set (y := on_flashlight (setIsAudioSosActive false)
              (on_flashlight (setIsSosActive false)
                 (on_flashlight (setIsFlashlightOn false) w))).
  assert (Vy : VisualOK y) by exact (reachable_VisualOK w Hr).
  assert (Ay : AudioOK y) by exact (reachable_AudioOK w Hr).
  split; [|split; [|split]].
  - rewrite clearAudioSosTimeouts_eq, clearVisualSosTimeouts_eq. reflexivity.
  - rewrite clearAudioSosTimeouts_eq, clearVisualSosTimeouts_eq. reflexivity.
  - change (pending OVisual (clearAudioSosTimeouts (clearVisualSosTimeouts y)) = []).
    apply (NoPending_shrink OVisual (clearVisualSosTimeouts y)).
    + apply (Adds_pending OAudio); [apply clearAudioSosTimeouts_adds|discriminate].
    + apply clearVisual_clears, Vy.
  - change (pending OAudio (clearAudioSosTimeouts (clearVisualSosTimeouts y)) = []).
    apply clearAudio_clears.
    revert Ay. apply AudioOK_shrink; [|solve_frame].
    apply (Adds_pending OVisual); [apply clearVisualSosTimeouts_adds|discriminate].
Qed.

Lemma enabled_back_shown h w : shown h w = true -> enabled BackClick w = true.
Proof.
  unfold shown. rewrite andb_true_iff, AppState_beq_eq. intros [H _].
  apply enabled_back, H.
Qed.

(** In a silent world a firing timer is none of a signal run: it
    changes neither the flashlight state nor the oscillators. *)
Lemma Silent_fireTimer id now w :
  Silent w ->
  Silent (fireTimer id now w)
  /\ isSosLightVisibleOf (fireTimer id now w) = isSosLightVisibleOf w
  /\ tones (fireTimer id now w) = tones w.
Proof.
  intros (H1 & H2 & H3 & H4). unfold fireTimer.
  destruct (findTimer id w) as [e|] eqn:F;
    [|split; [split; [|split; [|split]]|split]; auto].
  apply findTimer_In in F as [He _].
  assert (Hv : owner (callback e) <> OVisual).
  { intros Ho. assert (In e (pending OVisual w)).
    { apply filter_In. split; [exact He|]. unfold ownedBy. rewrite Ho.
      reflexivity. }
    rewrite H3 in H. destruct H. }
  assert (Ha : owner (callback e) <> OAudio).
  { intros Ho. assert (In e (pending OAudio w)).
    { apply filter_In. split; [exact He|]. unfold ownedBy. rewrite Ho.
      reflexivity. }
    rewrite H4 in H. destruct H. }
  assert (E : flashlight (runCallback (callback e) now w) = flashlight w
              /\ timers (window (runCallback (callback e) now w))
                 = timers (window w)
              /\ tones (runCallback (callback e) now w) = tones w).
  { destruct (callback e); cbn [owner] in Hv, Ha; try congruence;
      cbn [runCallback]; unfold_handlers; unfold tones; cbn;
      repeat (break_match; cbn); auto. }
  destruct E as (E1 & E2 & E3).
  assert (P : forall o, pending o (runCallback (callback e) now w) = pending o w).
  { intros o. unfold pending. rewrite E2. reflexivity. }
  destruct (repeating e).
  - unfold Silent, isSosLightVisibleOf. rewrite E1, !P. auto 10.
  - unfold Silent, isSosLightVisibleOf.
    rewrite !pending_clearTimeout, !P, H3, H4.
    change (flashlight (clearTimeout id (runCallback (callback e) now w)))
      with (flashlight (runCallback (callback e) now w)).
    change (tones (clearTimeout id (runCallback (callback e) now w)))
      with (tones (runCallback (callback e) now w)).
    rewrite E1. auto 10.
Qed.


(** A silent world with the light visible stays so whatever timers
    fire. *)
Lemma Silent_fires fires : forall w,
  Silent w -> isSosLightVisible (flashlight w) = true ->
  let w' := run (map fire fires) w in
  Silent w' /\ isSosLightVisible (flashlight w') = true /\ tones w' = tones w.
Proof.
  induction fires as [|[id now] fires IH]; intros w Hs Hl; simpl; [auto|].
  destruct (Silent_fireTimer id now w Hs) as (S1 & L1 & T1).
  assert (E : dispatch (fire (id, now)) w = rerender (fireTimer id now w))
    by reflexivity.
  rewrite E.
  assert (S2 : Silent (rerender (fireTimer id now w)))
    by (apply Silent_rerender, S1).
  assert (L2 : isSosLightVisible (flashlight (rerender (fireTimer id now w)))
               = true).
  { apply Silent_light_rerender; [exact S1|]. left. rewrite L1. exact Hl. }
  destruct (IH _ S2 L2) as (S3 & L3 & T3).
  split; [exact S3|]. split; [exact L3|].
  rewrite T3, rerender_tones. exact T1.
Qed.

(** Claim C4.  In every reachable world, whatever part of a run has
    already fired: cancelling a channel leaves none of its callbacks
    pending.  With the flashlight panel shown and the visual run
    active, the back command (the cancel of both channels) leaves no
    callback of either channel pending and the light-visible flag
    true; whatever timers the browser fires afterwards, no callback of
    a run is pending, the light stays visible and no tone is started. *)
Theorem C4_cancel_stops_run (w : World) :
  reachable w ->
  shown h_flashlight w = true ->
  isSosActive (flashlight w) = true ->
  let w' := dispatch BackClick w in
  (pending OVisual (clearVisualSosTimeouts w) = []
   /\ pending OAudio (clearAudioSosTimeouts w) = [])
  /\ (pending OVisual w' = [] /\ pending OAudio w' = []
      /\ isSosLightVisible (flashlight w') = true)
  /\ (forall fires,
        let w'' := run (map fire fires) w' in
        pending OVisual w'' = [] /\ pending OAudio w'' = []
        /\ isSosLightVisible (flashlight w'') = true
        /\ tones w'' = tones w').
Proof.
  intros Hr Hs Ha w'.
  split.
  { split; [apply clearVisual_clears, reachable_VisualOK, Hr
           |apply clearAudio_clears, reachable_AudioOK, Hr]. }
  assert (E : w' = rerender (handleBackClick w)).
  { unfold w', dispatch. rewrite (enabled_back_shown _ _ Hs). reflexivity. }
  pose proof (back_silences w Hr Hs) as S0.
  assert (S1 : Silent w') by (rewrite E; apply Silent_rerender, S0).
  assert (L1 : isSosLightVisible (flashlight w') = true).
  { rewrite E. apply Silent_light_rerender; [exact S0|]. right.
    destruct (stable_flags w (reachable_stable w Hr)) as (_ & _ & F & _).
    apply visualChanged_false in F. unfold hVisualDeps in F.
    unfold visualChanged. destruct S0 as (S0 & _). rewrite S0.
    rewrite (handleBackClick_flashlight w Hs).
    rewrite clearAudioSosTimeouts_eq, clearVisualSosTimeouts_eq. cbn.
    rewrite F, Ha. reflexivity. }
  split.
  { destruct S1 as (_ & _ & S3 & S4). auto. }
  intros fires w''.
  destruct (Silent_fires fires w' S1 L1) as ((_ & _ & S3 & S4) & L & T).
  auto.
Qed.

(** Claim C6.  One pass of the audio [schedulePattern] registers,
    after cancelling the old timeouts, a tone start at the offset of
    each step that is on, and of no other step (9 of the 18), then
    the loop restart.  A tone start adds one oscillator at 660 Hz that
    stops after the step's duration.  No event removes or changes an
    oscillator once started: neither the cancel of the audio channel
    nor the back command touch the oscillators, and every event leaves
    the earlier ones in place.  The cancel leaves no tone start
    pending. *)
Theorem C6_audio_pass_and_tones (w : World) :
  reachable w ->
  (exists registered,
     timers (window (schedulePatternAudio w))
     = timers (window (clearAudioSosTimeouts w)) ++ registered
     /\ map delayAndCallback registered
        = [ (0, CbPlayTone 200); (400, CbPlayTone 200); (800, CbPlayTone 200);
            (1700, CbPlayTone 600); (2500, CbPlayTone 600);
            (3300, CbPlayTone 600);
            (4600, CbPlayTone 200); (5000, CbPlayTone 200);
            (5400, CbPlayTone 200);
            (7600, CbAudioLoop) ]
     /\ (forall k s, nth_error sosPattern k = Some s ->
           (on s = true
            <-> In (offsetOf k sosPattern, CbPlayTone (duration s))
                  (map delayAndCallback registered)))
     /\ List.length (filter isToneStart registered) = 9%nat
     /\ List.length (filter on sosPattern) = 9%nat)
  /\ (forall d now x,
        tones (runCallback (CbPlayTone d) now x) = tones x ++ [toneOf d])
  /\ (forall d,
        toneFrequency (toneOf d) = 660
        /\ (toneStopAfter (toneOf d) * inject_Z 1000 == inject_Z d)%Q)
  /\ (forall x, tones (clearAudioSosTimeouts x) = tones x)
  /\ (forall x, tones (dispatch BackClick x) = tones x)
  /\ (forall x ev, exists started, tones (dispatch ev x) = tones x ++ started)
  /\ pending OAudio (clearAudioSosTimeouts w) = [].
Proof.
  intros Hr. split.
  { exists (audioRun (nextId w)).
    split; [apply schedulePatternAudio_timers|].
    split; [reflexivity|]. split; [|split; reflexivity].
    intros k s H.
    do 18 (destruct k as [|k];
           [injection H as <-; cbn; split;
            [intros; tauto || discriminate
            |intros X; repeat (destruct X as [X|X]; try discriminate X);
             reflexivity || destruct X]|]).
    destruct k; discriminate. }
  split; [intros; apply runCallback_tones|].
  split.
  { intros d. split; [reflexivity|].
    unfold toneOf, Qeq; simpl. ring. }
  split; [exact clearAudioSosTimeouts_tones|].
  split; [exact dispatch_back_tones|].
  split; [intros; apply dispatch_tones|].
  apply clearAudio_clears, reachable_AudioOK, Hr.
Qed.

Lemma reachable_sosRunning : reachable sosRunning.
Proof. apply reachable_run, reach_init. Qed.

(** Both channels running: the back command silences them. *)
Lemma C4_cancel_stops_run_witness :
  reachable sosRunning
  /\ shown h_flashlight sosRunning = true
  /\ isSosActive (flashlight sosRunning) = true
  /\ (pending OVisual (dispatch BackClick sosRunning) = []
      /\ pending OAudio (dispatch BackClick sosRunning) = []
      /\ isSosLightVisible (flashlight (dispatch BackClick sosRunning)) = true).
Proof.
  split; [exact reachable_sosRunning|].
  split; [vm_compute; reflexivity|].
  split; [vm_compute; reflexivity|].
  assert (H1 : shown h_flashlight sosRunning = true)
    by (vm_compute; reflexivity).
  assert (H2 : isSosActive (flashlight sosRunning) = true)
    by (vm_compute; reflexivity).
  pose proof (C4_cancel_stops_run sosRunning reachable_sosRunning H1 H2) as H.
  cbv zeta in H. destruct H as (_ & H & _). exact H.
Defined.

(** Both channels running, part of each run already fired. *)
Lemma C5_single_live_run_witness :
  reachable sosRunning
  /\ pending OVisual sosRunning <> []
  /\ pending OAudio sosRunning <> []
  /\ (exists base, incl (pending OVisual sosRunning) (visualRun base))
  /\ (exists base, incl (pending OAudio sosRunning) (audioRun base)).
Proof.
  split; [exact reachable_sosRunning|].
  split; [vm_compute; discriminate|].
  split; [vm_compute; discriminate|].
  pose proof (C5_single_live_run sosRunning reachable_sosRunning) as H.
  destruct H as (H & _). exact H.
Defined.

(** One tone has started; the cancel leaves it and no tone start. *)
Lemma C6_audio_pass_and_tones_witness :
  reachable sosRunning
  /\ tones sosRunning = [toneOf 200]
  /\ pending OAudio sosRunning <> []
  /\ pending OAudio (clearAudioSosTimeouts sosRunning) = [].
Proof.
  split; [exact reachable_sosRunning|].
  split; [vm_compute; reflexivity|].
  split; [vm_compute; discriminate|].
  pose proof (C6_audio_pass_and_tones sosRunning reachable_sosRunning) as H.
  destruct H as (_ & _ & _ & _ & _ & _ & H). exact H.
Defined.

(* ================================================================== *)
(** * Sensor acquisition *)
(* ================================================================== *)


Lemma negotiate_none r s p : negotiate r h_none s p = p.
Proof. reflexivity. Qed.



Lemma handleBackClick_sensor w :
  appState (nav w) = app_hologram ->
  isSensorHologram (activeHologram (nav w)) = true ->
  sensorSupportState (sensor (handleBackClick w)) = checking
  /\ permissionState (sensor (handleBackClick w)) = unknown
  /\ nav (handleBackClick w)
     = setAppState app_menu (setActiveHologram h_none (nav w)).
Proof.
  intros H1 H2. unfold handleBackClick. rewrite H1.
  destruct (activeHologram (nav w)); try discriminate; cbn; auto.
Qed.

Lemma Listener_eqb_eq a b : Listener_eqb a b = true <-> a = b.
Proof.
  destruct a, b; simpl; rewrite ?Nat.eqb_eq; split; congruence.
Qed.

Lemma addEventListener_In l w : In l (listeners (window (addEventListener l w))).
Proof.
  unfold addEventListener. simpl.
  destruct (existsb (Listener_eqb l) (listeners (window w))) eqn:E.
  - apply existsb_exists in E as [x [Hx E]]. apply Listener_eqb_eq in E.
    subst. exact Hx.
  - simpl. apply in_or_app. right. left. reflexivity.
Qed.




(* ------------------------------------------------------------------ *)
(** ** Detection: what ends it and what exit cancels *)

Lemma NoDetect_frame w w' :
  listenersOf w' = listenersOf w -> NoDetect w -> NoDetect w'.
Proof. unfold NoDetect, listenersOf. intros -> H. exact H. Qed.

Lemma NoDetect_removeEventListener l w :
  NoDetect w -> NoDetect (removeEventListener l w).
Proof.
  intros H r Hr. apply (H r). unfold removeEventListener in Hr. simpl in Hr.
  apply filter_In in Hr. apply Hr.
Qed.

Lemma NoDetect_sensorCleanup w : NoDetect w -> NoDetect (sensorCleanup w).
Proof.
  intros H. apply (NoDetect_removeEventListener (LHandle (sensorRun (hooks w)))) in H.
  revert H. apply NoDetect_frame. solve_frame.
Qed.

Lemma addEventListener_handle_NoDetect r w :
  NoDetect w -> NoDetect (addEventListener (LHandle r) w).
Proof.
  intros H r' Hr. apply (H r'). unfold addEventListener in Hr. simpl in Hr.
  destruct (existsb _ _); [exact Hr|]. simpl in Hr.
  apply in_app_or in Hr as [Hr|[Hr|[]]]; [exact Hr|discriminate].
Qed.

Lemma sensorEffect_off_NoDetect snap y :
  detectionOff snap -> NoDetect y -> NoDetect (sensorEffect snap y).
Proof.
  intros Hoff H. unfold sensorEffect, sensorCheck, sensorListen.
  destruct (isSensorHologram (activeHologram (nav snap))) eqn:Hh; [|exact H].
  destruct (sensorSupportState (sensor snap)) eqn:Hs.
  - destruct Hoff as [Hoff|Hoff]; congruence.
  - destruct (requestPermissionIsFunction (window y)).
    + destruct (permissionState (sensor snap));
        try exact H; apply addEventListener_handle_NoDetect, H.
    + apply (addEventListener_handle_NoDetect _
               (on_sensor (setPermissionState granted) y)), H.
  - exact H.
Qed.

Ltac keeps_listeners := intros y; apply NoDetect_frame; solve_frame.

Lemma commit_NoDetect x : detectionOff x -> NoDetect x -> NoDetect (commit x).
Proof.
  intros Hoff H. unfold commit; cbv zeta.
  apply whenb_pres; [intros y; apply sensorEffect_off_NoDetect, Hoff|].
  do 4 (apply whenb_pres; [keeps_listeners|]).
  apply whenb_pres; [intros y; apply NoDetect_sensorCleanup|].
  do 4 (apply whenb_pres; [keeps_listeners|]).
  exact H.
Qed.

Lemma sensorEffect_off_adds o snap y :
  detectionOff snap -> Adds o y (sensorEffect snap y).
Proof.
  intros Hoff. unfold sensorEffect, sensorCheck.
  destruct (isSensorHologram (activeHologram (nav snap))) eqn:Hh;
    [|solve_adds].
  destruct (sensorSupportState (sensor snap)) eqn:Hs;
    [destruct Hoff; congruence| |]; solve_adds.
Qed.

Lemma commit_NoPending_sensor x :
  detectionOff x -> NoPending OSensor x -> NoPending OSensor (commit x).
Proof.
  intros Hoff H. unfold commit; cbv zeta.
  apply whenb_pres.
  { intros y. apply NoPending_shrink.
    apply (Adds_pending OClock); [|discriminate].
    apply sensorEffect_off_adds, Hoff. }
  do 9 (apply whenb_pres; [intros y; apply NoPending_shrink; shrinks|]).
  exact H.
Qed.

Lemma detectionOff_commit x : detectionOff x -> detectionOff (commit x).
Proof.
  unfold detectionOff. rewrite commit_nav.
  fold (sensorSupportStateOf (commit x)). rewrite commit_sensorSupportState.
  auto.
Qed.

Lemma rerender_sensorSupportState x :
  sensorSupportState (sensor (rerender x)) = sensorSupportState (sensor x).
Proof. apply (rerender_frame sensorSupportStateOf), commit_sensorSupportState. Qed.

(** While no detection is due, rendering starts none. *)
Lemma rerender_detectionOff x :
  detectionOff x -> NoDetect x -> NoPending OSensor x ->
  NoDetect (rerender x) /\ NoPending OSensor (rerender x).
Proof.
  intros Hoff H1 H2.
  apply (rerender_ind
           (fun y => detectionOff y /\ NoDetect y /\ NoPending OSensor y)).
  - auto.
  - intros y (A & B & C).
    auto using detectionOff_commit, commit_NoDetect, commit_NoPending_sensor.
Qed.

Lemma Decided_rerender s x : Decided s x -> Decided s (rerender x).
Proof.
  intros (H0 & H1 & H2 & H3).
  destruct (rerender_detectionOff x) as [A B]; auto.
  - left. rewrite H1. exact H0.
  - split; [exact H0|]. split; [rewrite rerender_sensorSupportState; exact H1|].
    auto.
Qed.

(** ** Events after detection has ended *)

Lemma Decided_pres s w w' :
  sensorSupportState (sensor w') = sensorSupportState (sensor w) ->
  listenersOf w' = listenersOf w ->
  incl (pending OSensor w') (pending OSensor w) ->
  Decided s w -> Decided s w'.
Proof.
  intros Hs Hl Hp (H0 & H1 & H2 & H3).
  split; [exact H0|]. split; [rewrite Hs; exact H1|]. split.
  - revert H2. apply NoDetect_frame, Hl.
  - revert H3. apply NoPending_shrink, Hp.
Qed.

Lemma Decided_same s w w' :
  sensorSupportState (sensor w') = sensorSupportState (sensor w) ->
  listenersOf w' = listenersOf w ->
  timers (window w') = timers (window w) ->
  Decided s w -> Decided s w'.
Proof.
  intros Hs Hl Ht. apply Decided_pres; [exact Hs|exact Hl|].
  unfold pending. rewrite Ht. apply incl_refl.
Qed.

Ltac decided_same :=
  apply Decided_same; unfold_projs; unfold_handlers; cbn;
  repeat (break_match; cbn); reflexivity.

Lemma Decided_clearTimeout s id w : Decided s w -> Decided s (clearTimeout id w).
Proof.
  apply Decided_pres; [reflexivity|reflexivity|].
  apply (Adds_pending OClock); [apply clearTimeout_adds|discriminate].
Qed.

Lemma Decided_runCallback s cb now w :
  owner cb <> OSensor -> Decided s w -> Decided s (runCallback cb now w).
Proof.
  intros Ho. destruct cb; cbn [runCallback];
    try (exfalso; apply Ho; reflexivity);
    try (apply Decided_same; unfold_handlers; solve_frame).
  - apply Decided_pres; [solve_frame|solve_frame|].
    apply (Adds_pending OVisual); [apply schedulePatternVisual_adds|discriminate].
  - apply Decided_pres; [solve_frame|solve_frame|].
    apply (Adds_pending OAudio); [apply schedulePatternAudio_adds|discriminate].
Qed.

Lemma pending_owner o w e :
  In e (timers (window w)) -> owner (callback e) = o -> In e (pending o w).
Proof.
  intros Hin Ho. unfold pending. apply filter_In. split; [exact Hin|].
  unfold ownedBy. rewrite Ho. apply Owner_eqb_eq. reflexivity.
Qed.

Lemma Decided_fireTimer s id now w :
  Decided s w -> Decided s (fireTimer id now w).
Proof.
  intros H. unfold fireTimer. destruct (findTimer id w) as [e|] eqn:F; [|exact H].
  assert (Ho : owner (callback e) <> OSensor).
  { intros Ho. apply findTimer_In in F as [Hin _].
    pose proof (pending_owner OSensor w e Hin Ho) as Hp.
    destruct H as (_ & _ & _ & H3). rewrite H3 in Hp. exact Hp. }
  destruct (repeating e); [|apply Decided_clearTimeout];
    apply Decided_runCallback; assumption.
Qed.

Lemma Decided_deliver s e ls : forall w,
  Decided s w -> Decided s (fold_left (deliver e) ls w).
Proof.
  induction ls as [|l ls IH]; intros w H; cbn [fold_left]; [exact H|].
  apply IH. unfold deliver.
  destruct (existsb (Listener_eqb l) (listeners (window w))) eqn:E; [|exact H].
  destruct l as [r|r].
  - exfalso. apply existsb_exists in E as (l' & Hin & Hl).
    apply Listener_eqb_eq in Hl. subst l'.
    destruct H as (_ & _ & H2 & _). exact (H2 r Hin).
  - revert H. cbn [runListener]. apply Decided_same; solve_frame.
Qed.

Lemma Decided_handle s ev w :
  ev <> BackClick -> Decided s w -> Decided s (handle ev w).
Proof.
  intros Hev. destruct ev; cbn [handle];
    try (exfalso; apply Hev; reflexivity);
    try decided_same.
  - apply Decided_fireTimer.
  - apply Decided_deliver.
Qed.

Lemma Decided_dispatch s ev w :
  ev <> BackClick -> Decided s w -> Decided s (dispatch ev w).
Proof.
  intros Hev H. unfold dispatch. destruct (enabled ev w); [|exact H].
  apply Decided_rerender, Decided_handle; assumption.
Qed.

Lemma Decided_run s evs : forall w,
  ~ In BackClick evs -> Decided s w -> Decided s (run evs w).
Proof.
  induction evs as [|ev evs IH]; intros w Hn H; [exact H|].
  cbn [run]. apply IH; [intros Hi; apply Hn; right; exact Hi|].
  apply Decided_dispatch; [|exact H].
  intros ->. apply Hn. left. reflexivity.
Qed.

(** ** Leaving a sensor feature *)

Lemma commit_clears_sensor x :
  IdsOK x -> SensorOK x -> sensorChanged x = true -> detectionOff x ->
  NoPending OSensor (commit x).
Proof.
  intros Hi H Hc Hoff. unfold commit; cbv zeta.
  rewrite Hc, !whenb_true.
  apply NoPending_shrink with
    (w := whenb (audioChanged x) (audioEffect x)
            (whenb (visualChanged x) (visualEffect x)
               (whenb (timerChanged x) (timerEffect x)
                  (whenb (clockChanged x) (clockEffect x)
                     (sensorCleanup
                        (whenb (audioChanged x) audioCleanupFn
                           (whenb (visualChanged x) visualCleanupFn
                              (whenb (timerChanged x) timerCleanup
                                 (whenb (clockChanged x) clockCleanup x))))))))).
  { apply (Adds_pending OClock); [|discriminate].
    apply sensorEffect_off_adds, Hoff. }
  do 4 (apply whenb_pres; [intros y; not_sensor|]).
  apply sensorCleanup_clears.
  - do 4 (apply whenb_pres; [intros y Hy; ids_step; exact Hy|]). exact Hi.
  - do 4 (apply whenb_pres; [intros y; not_sensor|]). exact H.
Qed.

Lemma ListenOK_frame w w' :
  listenersOf w' = listenersOf w -> sensorRun (hooks w') = sensorRun (hooks w) ->
  ListenOK w -> ListenOK w'.
Proof. unfold ListenOK, listenersOf. intros -> ->. auto. Qed.

Lemma NoHandle_frame w w' :
  listenersOf w' = listenersOf w -> NoHandle w -> NoHandle w'.
Proof. unfold NoHandle, listenersOf. intros ->. auto. Qed.

Lemma NoHandle_ListenOK w : NoHandle w -> ListenOK w.
Proof. intros H r Hr. destruct (H r Hr). Qed.

Lemma sensorCleanup_listeners w :
  listenersOf (sensorCleanup w)
  = filter (fun x => negb (Listener_eqb (LHandle (sensorRun (hooks w))) x))
      (listenersOf w).
Proof. solve_frame. Qed.

Lemma sensorCleanup_NoHandle w : ListenOK w -> NoHandle (sensorCleanup w).
Proof.
  intros H r Hr. fold (listenersOf (sensorCleanup w)) in Hr.
  rewrite sensorCleanup_listeners in Hr.
  apply filter_In in Hr as [Hin Hne].
  rewrite (H r Hin) in Hne. cbn in Hne. rewrite Nat.eqb_refl in Hne. discriminate.
Qed.

Lemma addEventListener_inv l' l w :
  In l' (listenersOf (addEventListener l w)) -> In l' (listenersOf w) \/ l' = l.
Proof.
  unfold addEventListener, listenersOf. simpl.
  destruct (existsb _ _); [auto|]. simpl. rewrite in_app_iff. simpl.
  intuition.
Qed.

(** The listeners a run of the sensor effect can register. *)
Lemma sensorEffect_listeners snap y l :
  In l (listenersOf (sensorEffect snap y)) ->
  In l (listenersOf y)
  \/ (l = LDetect (S (sensorRun (hooks y)))
      /\ isSensorHologram (activeHologram (nav snap)) = true
      /\ sensorSupportState (sensor snap) = checking)
  \/ (l = LHandle (S (sensorRun (hooks y)))
      /\ isSensorHologram (activeHologram (nav snap)) = true
      /\ sensorSupportState (sensor snap) = supported).
Proof.
  unfold sensorEffect, sensorCheck, sensorListen.
  set (run := S (sensorRun (hooks y))).
  destruct (isSensorHologram (activeHologram (nav snap))); [|auto].
  destruct (sensorSupportState (sensor snap)).
  - intros Hr.
    change (In l (listenersOf (addEventListener (LDetect run) y))) in Hr.
    apply addEventListener_inv in Hr as [Hr|Hr]; auto.
  - destruct (requestPermissionIsFunction (window y)).
    + destruct (permissionState (sensor snap)); auto.
      intros Hr.
      change (In l (listenersOf (addEventListener (LHandle run) y))) in Hr.
      apply addEventListener_inv in Hr as [Hr|Hr]; auto.
    + intros Hr.
      change (In l (listenersOf
                      (addEventListener (LHandle run)
                         (on_sensor (setPermissionState granted) y)))) in Hr.
      apply addEventListener_inv in Hr as [Hr|Hr]; auto.
  - auto.
Qed.

Lemma sensorEffect_ListenOK snap y : NoHandle y -> ListenOK (sensorEffect snap y).
Proof.
  intros H r Hr.
  apply sensorEffect_listeners in Hr as [Hr|[[Hr _]|[Hr _]]].
  - destruct (H r Hr).
  - discriminate.
  - injection Hr as ->. unfold sensorEffect. reflexivity.
Qed.

Lemma sensorEffect_none_NoHandle snap y :
  isSensorHologram (activeHologram (nav snap)) = false ->
  NoHandle y -> NoHandle (sensorEffect snap y).
Proof.
  intros Hh H. unfold sensorEffect. rewrite Hh. revert H.
  apply NoHandle_frame. reflexivity.
Qed.

Ltac keeps_handle := intros y; apply ListenOK_frame; solve_frame.
Ltac keeps_nohandle := intros y; apply NoHandle_frame; solve_frame.

(** The orientation listener is the one of the last run of the sensor
    effect. *)
Lemma commit_ListenOK x : ListenOK x -> ListenOK (commit x).
Proof.
  intros H. unfold commit; cbv zeta.
  destruct (sensorChanged x); rewrite ?whenb_true, ?whenb_false.
  - apply sensorEffect_ListenOK.
    do 4 (apply whenb_pres; [keeps_nohandle|]).
    apply sensorCleanup_NoHandle.
    do 4 (apply whenb_pres; [keeps_handle|]).
    exact H.
  - do 8 (apply whenb_pres; [keeps_handle|]). exact H.
Qed.

Lemma commit_clears_handle x :
  ListenOK x -> sensorChanged x = true ->
  isSensorHologram (activeHologram (nav x)) = false ->
  NoHandle (commit x).
Proof.
  intros H Hc Hh. unfold commit; cbv zeta. rewrite Hc, !whenb_true.
  apply sensorEffect_none_NoHandle; [exact Hh|].
  do 4 (apply whenb_pres; [keeps_nohandle|]).
  apply sensorCleanup_NoHandle.
  do 4 (apply whenb_pres; [keeps_handle|]).
  exact H.
Qed.

Lemma removeEventListener_NoHandle l w :
  NoHandle w -> NoHandle (removeEventListener l w).
Proof.
  intros H r Hr. apply (H r). unfold removeEventListener in Hr. simpl in Hr.
  apply filter_In in Hr. apply Hr.
Qed.

Lemma commit_NoHandle x :
  isSensorHologram (activeHologram (nav x)) = false ->
  NoHandle x -> NoHandle (commit x).
Proof.
  intros Hh H. unfold commit; cbv zeta.
  apply whenb_pres; [intros y; apply sensorEffect_none_NoHandle, Hh|].
  do 4 (apply whenb_pres; [keeps_nohandle|]).
  apply whenb_pres.
  { intros y Hy.
    apply (removeEventListener_NoHandle (LHandle (sensorRun (hooks y)))) in Hy.
    revert Hy. apply NoHandle_frame. solve_frame. }
  do 4 (apply whenb_pres; [keeps_nohandle|]).
  exact H.
Qed.

(** ** The orientation listener along every run *)

Lemma ListenOK_shrink w w' :
  incl (listenersOf w') (listenersOf w) ->
  sensorRun (hooks w') = sensorRun (hooks w) ->
  ListenOK w -> ListenOK w'.
Proof.
  unfold ListenOK. intros Hi Hr H r Hin. rewrite Hr. apply H, Hi, Hin.
Qed.

Ltac listen_same := apply ListenOK_frame; unfold_handlers; solve_frame.

Lemma removeEventListener_incl l w :
  incl (listenersOf (removeEventListener l w)) (listenersOf w).
Proof.
  intros x Hx. unfold removeEventListener, listenersOf in Hx. simpl in Hx.
  apply filter_In in Hx. apply Hx.
Qed.

Lemma ListenOK_runCallback cb now w :
  ListenOK w -> ListenOK (runCallback cb now w).
Proof.
  destruct cb as [a r|d|b| |d| |r]; cbn [runCallback]; try listen_same.
  apply ListenOK_shrink; [|reflexivity].
  apply (removeEventListener_incl (LDetect r)
           (on_sensor (setSensorSupportState unsupported) w)).
Qed.

Lemma ListenOK_fireTimer id now w : ListenOK w -> ListenOK (fireTimer id now w).
Proof.
  intros H. unfold fireTimer. destruct (findTimer id w) as [e|]; [|exact H].
  apply (ListenOK_runCallback (callback e) now) in H.
  destruct (repeating e); [exact H|]. revert H. listen_same.
Qed.

Lemma runListener_detect_listeners r e w :
  listenersOf (runListener (LDetect r) e w)
  = filter (fun y => negb (Listener_eqb (LDetect r) y)) (listenersOf w).
Proof. cbn [runListener]. solve_frame. Qed.

Lemma runListener_incl l e w :
  incl (listenersOf (runListener l e w)) (listenersOf w).
Proof.
  destruct l as [r|r]; [|apply incl_refl].
  rewrite runListener_detect_listeners. intros x Hx.
  apply filter_In in Hx. apply Hx.
Qed.

Lemma runListener_sensorRun l e w :
  sensorRun (hooks (runListener l e w)) = sensorRun (hooks w).
Proof. destruct l; cbn [runListener]; solve_frame. Qed.

Lemma ListenOK_deviceorientation e w :
  ListenOK w -> ListenOK (deviceorientation e w).
Proof.
  unfold deviceorientation. generalize (listeners (window w)).
  intros ls. revert w.
  induction ls as [|l ls IH]; intros w H; cbn [fold_left]; [exact H|].
  apply IH. unfold deliver. destruct (existsb _ _); [|exact H].
  revert H. apply ListenOK_shrink;
    [apply runListener_incl|apply runListener_sensorRun].
Qed.

Ltac back_frame w :=
  unfold handleBackClick;
  destruct (appState (nav w)); [reflexivity|reflexivity|];
  destruct (activeHologram (nav w));
  cbn [ActiveHologram_beq isSensorHologram andb];
  solve_frame.

Lemma handleBackClick_listeners w :
  listenersOf (handleBackClick w) = listenersOf w.
Proof. back_frame w. Qed.

Lemma handleBackClick_hooks w : hooks (handleBackClick w) = hooks w.
Proof. back_frame w. Qed.

Lemma ListenOK_handle ev w : ListenOK w -> ListenOK (handle ev w).
Proof.
  destruct ev; cbn [handle]; try listen_same.
  - apply ListenOK_frame;
      [apply handleBackClick_listeners|rewrite handleBackClick_hooks; reflexivity].
  - apply ListenOK_fireTimer.
  - apply ListenOK_deviceorientation.
Qed.

Lemma ListenOK_dispatch ev w : ListenOK w -> ListenOK (dispatch ev w).
Proof.
  intros H. unfold dispatch. destruct (enabled ev w); [|exact H].
  unfold invoke. apply rerender_ind; [apply ListenOK_handle, H|].
  apply commit_ListenOK.
Qed.

Lemma reachable_ListenOK w : reachable w -> ListenOK w.
Proof.
  induction 1 as [now rp ac|w ev _ IH]; [|apply ListenOK_dispatch, IH].
  unfold initialWorld, mount. apply rerender_ind; [|apply commit_ListenOK].
  intros r Hr. destruct Hr.
Qed.

(** ** What exit does cancel *)

Lemma reachable_Struct w : reachable w -> Struct w.
Proof. intros H. apply (reachable_Inv w H). Qed.

(** Leaving a sensor feature cancels the detection timeout and removes
    the orientation listener [handleOrientation]. *)
Theorem exit_cancels_timeout_and_handler (w : World) :
  reachable w ->
  appState (nav w) = app_hologram ->
  isSensorHologram (activeHologram (nav w)) = true ->
  let w1 := dispatch BackClick w in
  NoPending OSensor w1 /\ NoHandle w1.
Proof.
  intros Hr H1 H2 w1.
  set (x := handleBackClick w).
  assert (E1 : w1 = rerender x).
  { unfold w1, dispatch. rewrite enabled_back by assumption. reflexivity. }
  destruct (handleBackClick_sensor w H1 H2) as (B1 & B2 & B3). fold x in B1, B2, B3.
  assert (Hn : isSensorHologram (activeHologram (nav x)) = false)
    by (rewrite B3; reflexivity).
  assert (Hoff : detectionOff x) by (right; exact Hn).
  assert (Hs : Struct x) by (apply Struct_handleBackClick, reachable_Struct, Hr).
  assert (Hl : ListenOK x).
  { apply (ListenOK_handle BackClick), reachable_ListenOK, Hr. }
  assert (Hc : sensorChanged x = true).
  { pose proof (reachable_stable w Hr) as St.
    apply stable_flags in St as (_ & _ & _ & _ & F5).
    apply sensorChanged_false in F5. unfold hSensorDeps, sensorDepsOf in F5.
    unfold sensorChanged. unfold x at 1. rewrite handleBackClick_hooks, F5, B3.
    destruct (activeHologram (nav w)); try discriminate; reflexivity. }
  assert (C1 : NoPending OSensor (commit x)).
  { destruct Hs as (Hi & _ & _ & _ & _ & Hso).
    apply commit_clears_sensor; assumption. }
  assert (C2 : NoHandle (commit x)) by (apply commit_clears_handle; assumption).
  rewrite E1.
  destruct (rerender_cases x) as [[St _]|[[_ ->]| ->]].
  - apply stable_flags in St as (_ & _ & _ & _ & F5). congruence.
  - split; assumption.
  - split.
    + apply commit_NoPending_sensor; [apply detectionOff_commit, Hoff|exact C1].
    + apply commit_NoHandle; [rewrite commit_nav; exact Hn|exact C2].
Qed.

(** ** How detection ends *)

Lemma detected_not_checking e : detected e <> checking.
Proof. unfold detected. destruct (_ || _); discriminate. Qed.

Lemma clearSensorCheck_clears y :
  IdsOK y -> SensorOK y -> NoPending OSensor (clearSensorCheck y).
Proof.
  intros Hi H. unfold clearSensorCheck.
  destruct (clear_sensorRef y Hi H) as [Hc|Hc].
  - unfold sensorRefOf in Hc.
    destruct (sensorCheckTimeoutRef (sensor y)) as [id|]; [|exact Hc].
    destruct Hc as [-> Hc]. exact Hc.
  - destruct (sensorCheckTimeoutRef (sensor y)) as [id|]; [|exact Hc].
    destruct (truthy (Some id)); [|exact Hc].
    revert Hc. apply (NoPending_shrink OSensor y (clearTimeout id y)).
    apply (Adds_pending OClock); [apply clearTimeout_adds|discriminate].
Qed.

(** What the detection listener does when it runs. *)
Lemma runListener_detect r e y :
  Struct y ->
  sensorSupportState (sensor (runListener (LDetect r) e y)) = detected e
  /\ NoPending OSensor (runListener (LDetect r) e y).
Proof.
  intros (Hi & _ & _ & _ & _ & Hs). split.
  - cbn [runListener]. unfold detected.
    destruct (notNull (ev_beta e) || notNull (ev_gamma e) || notNull (ev_alpha e));
      reflexivity.
  - pose proof (clearSensorCheck_clears y Hi Hs) as Hc.
    revert Hc. apply NoPending_shrink. cbn [runListener].
    destruct (notNull (ev_beta e) || notNull (ev_gamma e) || notNull (ev_alpha e));
      apply incl_refl.
Qed.

Lemma deliver_NoDetect e ls : forall y,
  (forall r, In (LDetect r) (listenersOf y) -> In (LDetect r) ls) ->
  NoDetect (fold_left (deliver e) ls y).
Proof.
  induction ls as [|l ls IH]; intros y H; cbn [fold_left].
  - intros r Hr. exact (H r Hr).
  - apply IH. intros r Hr. unfold deliver in Hr.
    destruct (existsb (Listener_eqb l) (listeners (window y))) eqn:E.
    + destruct l as [r0|r0].
      * rewrite runListener_detect_listeners in Hr.
        apply filter_In in Hr as [Hin Hne].
        destruct (H r Hin) as [Heq|Hin']; [|exact Hin'].
        rewrite Heq in Hne. cbn in Hne. rewrite Nat.eqb_refl in Hne.
        discriminate.
      * destruct (H r Hr) as [Heq|Hin']; [discriminate|exact Hin'].
    + destruct (H r Hr) as [Heq|Hin']; [|exact Hin'].
      exfalso. subst l.
      assert (Ex : existsb (Listener_eqb (LDetect r)) (listeners (window y)) = true).
      { apply existsb_exists. exists (LDetect r). split; [exact Hr|].
        apply Listener_eqb_eq. reflexivity. }
      congruence.
Qed.

Lemma deliver_decides e ls : forall y,
  Struct y ->
  (forall r, In (LDetect r) (listenersOf y) -> In (LDetect r) ls) ->
  (exists r, In (LDetect r) (listenersOf y))
  \/ (sensorSupportState (sensor y) = detected e /\ NoPending OSensor y) ->
  sensorSupportState (sensor (fold_left (deliver e) ls y)) = detected e
  /\ NoPending OSensor (fold_left (deliver e) ls y).
Proof.
  induction ls as [|l ls IH]; intros y Hs H Hd; cbn [fold_left].
  - destruct Hd as [[r Hr]|Hd]; [destruct (H r Hr)|exact Hd].
  - assert (Hs' : Struct (deliver e y l)).
    { unfold deliver. destruct (existsb _ _); [apply Struct_runListener|]; exact Hs. }
    unfold deliver in *.
    destruct (existsb (Listener_eqb l) (listeners (window y))) eqn:E.
    + destruct l as [r0|r0].
      * apply IH; [exact Hs'| |right; apply runListener_detect, Hs].
        intros r Hr. rewrite runListener_detect_listeners in Hr.
        apply filter_In in Hr as [Hin Hne].
        destruct (H r Hin) as [Heq|Hin']; [|exact Hin'].
        rewrite Heq in Hne. cbn in Hne. rewrite Nat.eqb_refl in Hne.
        discriminate.
      * apply IH; [exact Hs'| |].
        -- intros r Hr. destruct (H r Hr) as [Heq|Hin']; [discriminate|exact Hin'].
        -- destruct Hd as [Hd|Hd]; [left; exact Hd|right; exact Hd].
    + apply IH; [exact Hs| |exact Hd].
      intros r Hr. destruct (H r Hr) as [Heq|Hin']; [|exact Hin'].
      exfalso. subst l.
      assert (Ex : existsb (Listener_eqb (LDetect r)) (listeners (window y)) = true).
      { apply existsb_exists. exists (LDetect r). split; [exact Hr|].
        apply Listener_eqb_eq. reflexivity. }
      congruence.
Qed.

(** The first orientation event delivered while a detection listener
    is registered decides the capability from that event's readings,
    cancels the detection timeout and removes every detection
    listener. *)
Theorem first_event_decides (w : World) (e : DeviceOrientationEvent) (r : nat) :
  reachable w ->
  In (LDetect r) (listeners (window w)) ->
  Decided (detected e) (dispatch (DeviceOrientation e) w).
Proof.
  intros Hr Hin. unfold dispatch. cbn [enabled]. unfold invoke. cbn [handle].
  apply Decided_rerender.
  pose proof (reachable_Struct w Hr) as Hs.
  destruct (deliver_decides e (listeners (window w)) w Hs) as [D1 D2].
  { intros r0 Hr0. exact Hr0. }
  { left. exists r. exact Hin. }
  split; [apply detected_not_checking|]. split; [exact D1|]. split; [|exact D2].
  apply deliver_NoDetect. intros r0 Hr0. exact Hr0.
Qed.

(** The detection timeout of an activation whose detection listener is
    the only one registered decides [unsupported] and ends detection. *)
Theorem timeout_decides (w : World) (id : nat) (now : Date) (d : Z) (r : nat) :
  reachable w ->
  findTimer id w
  = Some {| tid := id; delay := d; repeating := false;
            callback := CbSensorTimeout r |} ->
  (forall r', In (LDetect r') (listeners (window w)) -> r' = r) ->
  Decided unsupported (dispatch (TimerFire id now) w).
Proof.
  intros Hr Hf Hone. unfold dispatch. cbn [enabled]. unfold invoke. cbn [handle].
  apply Decided_rerender. unfold fireTimer. rewrite Hf.
  cbn [repeating callback runCallback].
  split; [discriminate|]. split; [reflexivity|]. split.
  - intros r' Hin.
    assert (Hl : In (LDetect r')
                   (filter (fun y => negb (Listener_eqb (LDetect r) y))
                      (listeners (window w)))) by exact Hin.
    apply filter_In in Hl as [Hin' Hne].
    rewrite (Hone r' Hin') in Hne. cbn in Hne. rewrite Nat.eqb_refl in Hne.
    discriminate.
  - pose proof (reachable_Struct w Hr) as (_ & _ & _ & _ & _ & Hs).
    apply findTimer_In in Hf as [Hin _].
    pose proof (pending_owner OSensor w _ Hin eq_refl) as Hp.
    pose proof (Hs _ Hp) as Href. cbn [tid] in Href.
    unfold NoPending.
    destruct (pending OSensor
                (clearTimeout id
                   (removeEventListener (LDetect r)
                      (on_sensor (setSensorSupportState unsupported) w))))
      as [|e' l'] eqn:P; [reflexivity|].
    exfalso.
    assert (He : In e' (filter (ownedBy OSensor)
                          (filter (fun t => negb (Nat.eqb (tid t) id))
                             (timers (window w))))).
    { change (filter (ownedBy OSensor)
                (filter (fun t => negb (Nat.eqb (tid t) id)) (timers (window w))))
        with (pending OSensor
                (clearTimeout id
                   (removeEventListener (LDetect r)
                      (on_sensor (setSensorSupportState unsupported) w)))).
      rewrite P. left. reflexivity. }
    apply filter_In in He as [He Ho]. apply filter_In in He as [He Hne].
    assert (Hp' : In e' (pending OSensor w)).
    { apply filter_In. split; assumption. }
    pose proof (Hs _ Hp') as Href'. rewrite Href in Href'.
    injection Href' as Heq. rewrite <- Heq, Nat.eqb_refl in Hne. discriminate.
Qed.

(** Once detection has ended, capability keeps its value under every
    event other than the back command. *)
Theorem decided_capability_stays (s : SensorSupportState) (w : World)
  (evs : list Event) :
  Decided s w -> ~ In BackClick evs ->
  sensorSupportState (sensor (run evs w)) = s.
Proof. intros H Hn. apply (Decided_run s evs w Hn H). Qed.

(** The three theorems on the spirit level while it is detecting. *)
Lemma first_event_decides_witness :
  Decided supported (dispatch (DeviceOrientation heading) levelChecking).
Proof.
  apply (first_event_decides levelChecking heading 2).
  - apply reachable_run, reach_init.
  - vm_compute. left. reflexivity.
Defined.

Lemma timeout_decides_witness :
  Decided unsupported (dispatch (TimerFire 2 t0730) levelChecking).
Proof.
  apply (timeout_decides levelChecking 2 t0730 1000 2).
  - apply reachable_run, reach_init.
  - vm_compute. reflexivity.
  - intros r' Hr. vm_compute in Hr. destruct Hr as [Hr|[]].
    injection Hr as <-. reflexivity.
Defined.

Lemma exit_cancels_timeout_and_handler_witness :
  NoPending OSensor levelLeft /\ NoHandle levelLeft.
Proof.
  apply (exit_cancels_timeout_and_handler levelChecking).
  - apply reachable_run, reach_init.
  - vm_compute. reflexivity.
  - vm_compute. reflexivity.
Defined.

(** The compass found its sensor; the permission dialogue that follows
    leaves the capability as it is. *)
Lemma decided_capability_stays_witness :
  sensorSupportState
    (sensor (run [PermissionRequestClick; PermissionSettled resolvedGranted;
                  DeviceOrientation heading]
               (run [StartClick; HologramSelect h_compass;
                     DeviceOrientation heading] world0)))
  = supported.
Proof.
  apply (decided_capability_stays supported).
  - split; [discriminate|]. split; [vm_compute; reflexivity|].
    split; [intros r Hr; vm_compute in Hr; exact Hr|vm_compute; reflexivity].
  - intros [H|[H|[H|[]]]]; discriminate H.
Defined.

(** Claim C2 fails on the code.  The spirit level is entered and left
    by the back command while detection is under way.  The exit
    cancels the detection timeout, but the detection listener
    ([listener], lines 298-310, out of the cleanup's scope) stays
    registered; an orientation event that arrives after the exit runs
    it, and it sets the capability of the feature that was left.

    The rest of the claim holds of every exit:
    [exit_cancels_timeout_and_handler] shows that the detection
    timeout is cancelled and [handleOrientation] removed. *)
Theorem C2_detection_listener_survives_exit :
  (sensorSupportState (sensor levelChecking) = checking
   /\ listeners (window levelChecking) = [LDetect 2]
   /\ pending OSensor levelChecking
      = [{| tid := 2; delay := 1000; repeating := false;
            callback := CbSensorTimeout 2 |}])
  /\ (activeHologram (nav levelLeft) = h_none
      /\ pending OSensor levelLeft = []
      /\ listeners (window levelLeft) = [LDetect 2])
  /\ (sensorSupportState (sensor levelLeft) = checking
      /\ sensorSupportState
           (sensor (dispatch (DeviceOrientation heading) levelLeft))
         = supported).
Proof. vm_compute. repeat split. Qed.

(** Claim C8 fails on the code, by the defect of C2.  The spirit level
    is entered again after such an exit; no event arrives and the
    detection timeout of the second activation sets the capability to
    [unsupported]; the listener left by the first activation is still
    registered, and the next orientation event sets the capability to
    [supported] within the same activation.

    The event half of the claim holds as stated
    ([first_event_decides]); the timeout half holds of an activation
    that finds no detection listener of an earlier one
    ([timeout_decides], [decided_capability_stays]). *)
Theorem C8_leaked_listener_flips_capability :
  (activeHologram (nav levelAgain) = h_spirit_level
   /\ sensorSupportState (sensor levelAgain) = checking
   /\ pending OSensor levelAgain
      = [{| tid := 3; delay := 1000; repeating := false;
            callback := CbSensorTimeout 4 |}]
   /\ listeners (window levelAgain) = [LDetect 2; LDetect 4])
  /\ (activeHologram (nav levelTimedOut) = h_spirit_level
      /\ sensorSupportState (sensor levelTimedOut) = unsupported
      /\ listeners (window levelTimedOut) = [LDetect 2])
  /\ (activeHologram
        (nav (dispatch (DeviceOrientation heading) levelTimedOut))
      = h_spirit_level
      /\ sensorSupportState
           (sensor (dispatch (DeviceOrientation heading) levelTimedOut))
         = supported).
Proof. vm_compute. repeat split. Qed.
(* ================================================================== *)
(** * The timer display *)
(* ================================================================== *)

Lemma digitOf_isDigit c : isDigit c = true -> exists d, digitOf c = Some d.
Proof.
  unfold isDigit, digitOf. intros ->. eauto.
Qed.

Lemma string_of_uint_digits d : allDigits (NilEmpty.string_of_uint d) = true.
Proof. induction d; simpl; auto. Qed.

Ltac eval_digitOf :=
  match goal with
  | |- context [digitOf ?c] =>
      let v := eval vm_compute in (digitOf c) in change (digitOf c) with v
  end.

Lemma digits_uint_acc d : forall acc,
  digits (Some (Z.pos acc)) (NilEmpty.string_of_uint d)
  = Some (Z.pos (Pos.of_uint_acc d acc)).
Proof.
  induction d; intros acc; [reflexivity|..];
    cbn [NilEmpty.string_of_uint Pos.of_uint_acc];
    rewrite <- IHd; cbn [digits]; eval_digitOf; cbv iota;
    f_equal; f_equal; lia.
Qed.

Lemma digits_uint_zero d :
  digits (Some 0) (NilEmpty.string_of_uint d) = Some (Z.of_N (Pos.of_uint d)).
Proof.
  induction d; [reflexivity|..];
    cbn [NilEmpty.string_of_uint Pos.of_uint];
    cbn [digits]; eval_digitOf; cbv iota;
    first [ rewrite <- IHd; reflexivity
          | cbn [Z.of_N]; rewrite <- digits_uint_acc; reflexivity ].
Qed.

Lemma digits_None_nonempty c s :
  isDigit c = true ->
  digits None (String c s) = digits (Some 0) (String c s).
Proof.
  intros H. cbn [digits]. destruct (digitOf_isDigit c H) as [d ->]. reflexivity.
Qed.

Lemma string_of_uint_NilZero d :
  d <> Decimal.Nil -> NilZero.string_of_uint d = NilEmpty.string_of_uint d.
Proof. destruct d; try reflexivity. intros H. destruct H. reflexivity. Qed.

Lemma toString_numeral n : 0 <= n -> numeral (toString n).
Proof.
  intros Hn. unfold toString. destruct n as [|p|p]; [split; [reflexivity|discriminate]| |lia].
  cbn [Z.to_int NilZero.string_of_int].
  rewrite string_of_uint_NilZero by apply Unsigned.to_uint_nonnil.
  split; [apply string_of_uint_digits|].
  pose proof (Unsigned.to_uint_nonnil p) as Hp.
  destruct (Pos.to_uint p); [destruct Hp; reflexivity|..]; discriminate.
Qed.

Lemma numeral_parse_zero s :
  numeral s -> digits None s = digits (Some 0) s.
Proof.
  intros [Hd Hn]. destruct s as [|c s]; [destruct Hn; reflexivity|].
  apply digits_None_nonempty. simpl in Hd. apply andb_true_iff in Hd. apply Hd.
Qed.

Lemma numeral_not_sign s :
  numeral s -> parseInt10 (Some s) = digits None s.
Proof.
  intros [Hd Hn]. destruct s as [|c s]; [destruct Hn; reflexivity|].
  simpl in Hd. apply andb_true_iff in Hd as [Hc _].
  unfold parseInt10. cbn [trimStart].
  assert (Hw : isWhiteSpace c = false).
  { unfold isDigit in Hc. unfold isWhiteSpace.
    apply andb_true_iff in Hc as [H1 H2]. apply Nat.leb_le in H1.
    destruct (Nat.leb_spec 9 (nat_of_ascii c)), (Nat.leb_spec (nat_of_ascii c) 13),
      (Nat.eqb_spec (nat_of_ascii c) 32); simpl; try reflexivity; lia. }
  rewrite Hw.
  destruct c as [[] [] [] [] [] [] [] []]; try reflexivity; discriminate Hc.
Qed.

Lemma parseInt10_toString n : 0 <= n -> parseInt10 (Some (toString n)) = Some n.
Proof.
  intros Hn. pose proof (toString_numeral n Hn) as Hnum.
  rewrite numeral_not_sign, numeral_parse_zero by exact Hnum.
  unfold toString. destruct n as [|p|p]; [reflexivity| |lia].
  cbn [Z.to_int NilZero.string_of_int].
  rewrite string_of_uint_NilZero by apply Unsigned.to_uint_nonnil.
  rewrite digits_uint_zero, DecimalPos.Unsigned.of_to. reflexivity.
Qed.

Lemma numeral_length s : numeral s -> (1 <= String.length s)%nat.
Proof. intros [_ H]. destruct s; [destruct H; reflexivity|simpl; lia]. Qed.

(** [padStart(2, '0')] on a numeral: a leading zero when it has one
    digit. *)
Lemma padStart_numeral s :
  numeral s ->
  padStart 2 "0" s = (if (String.length s =? 1)%nat then String "0" s else s)
  /\ numeral (padStart 2 "0" s)
  /\ (2 <= String.length (padStart 2 "0" s))%nat
  /\ parseInt10 (Some (padStart 2 "0" s)) = parseInt10 (Some s).
Proof.
  intros Hs. pose proof (numeral_length s Hs) as Hl.
  assert (E : padStart 2 "0" s
              = if (String.length s =? 1)%nat then String "0" s else s).
  { unfold padStart. destruct (String.length s) as [|[|n]] eqn:L; [lia| |];
      reflexivity. }
  rewrite E. split; [reflexivity|].
  destruct (Nat.eqb_spec (String.length s) 1) as [L|L].
  - assert (Hn : numeral (String "0" s)).
    { destruct Hs as [Hd _]. split; [simpl; exact Hd|discriminate]. }
    split; [exact Hn|]. split; [simpl; lia|].
    rewrite !numeral_not_sign, !numeral_parse_zero by assumption.
    reflexivity.
  - split; [exact Hs|]. split; [lia|reflexivity].
Qed.

Lemma allDigits_no_colon s : allDigits s = true -> split_colon s = [s].
Proof.
  induction s as [|c s IH]; [reflexivity|]. simpl. intros H.
  apply andb_true_iff in H as [Hc Hs]. rewrite (IH Hs).
  destruct (isColon c) eqn:E; [|reflexivity].
  unfold isColon in E. apply Ascii.eqb_eq in E. subst c. discriminate Hc.
Qed.








(* ================================================================== *)
(** * The alarm time *)
(* ================================================================== *)

Lemma split_colon_cons a rest :
  allDigits a = true ->
  split_colon (a ++ String ":" rest) = a :: split_colon rest.
Proof.
  intros Ha. induction a as [|c a IH]; [reflexivity|].
  simpl in Ha. apply andb_true_iff in Ha as [Hc Ha].
  cbn [append split_colon]. rewrite (IH Ha).
  destruct (isColon c) eqn:E; [|reflexivity].
  unfold isColon in E. apply Ascii.eqb_eq in E. subst c. discriminate Hc.
Qed.

Lemma split_colon_timeValue h m seconds :
  0 <= h -> 0 <= m ->
  exists rest,
    split_colon (timeValue h m seconds)
    = padStart 2 "0" (toString h) :: padStart 2 "0" (toString m) :: rest.
Proof.
  intros Hh Hm. unfold timeValue.
  destruct (padStart_numeral (toString h)) as (_ & [Dh _] & _);
    [apply toString_numeral, Hh|].
  destruct (padStart_numeral (toString m)) as (_ & [Dm _] & _);
    [apply toString_numeral, Hm|].
  cbn [append]. rewrite split_colon_cons by exact Dh.
  destruct seconds as [s|].
  - cbn [append]. rewrite split_colon_cons by exact Dm. eauto.
  - assert (E : (padStart 2 "0" (toString m) ++ "")%string
                = padStart 2 "0" (toString m)).
    { generalize (padStart 2 "0" (toString m)). intros x.
      induction x as [|c x IH]; [reflexivity|]. simpl. rewrite IH. reflexivity. }
    rewrite E, (allDigits_no_colon _ Dm). eauto.
Qed.

(** An alarm set from a time control matches a tick exactly at that
    hour and minute and second 0: [parseInt(_, 10)] reads the two
    digits, a leading zero included. *)
Theorem alarmMatches_timeValue (h m : Z) (seconds : option string) (now : Date) :
  0 <= h -> 0 <= m ->
  alarmMatches (timeValue h m seconds) now = true
  <-> getHours now = h /\ getMinutes now = m /\ getSeconds now = 0.
Proof.
  intros Hh Hm. unfold alarmMatches; cbv zeta.
  destruct (split_colon_timeValue h m seconds Hh Hm) as [rest ->].
  cbn [nth_error].
  destruct (padStart_numeral (toString h)) as (_ & _ & _ & ->);
    [apply toString_numeral, Hh|].
  destruct (padStart_numeral (toString m)) as (_ & _ & _ & ->);
    [apply toString_numeral, Hm|].
  rewrite !parseInt10_toString by assumption. cbn [strictEq].
  rewrite !andb_true_iff, !Z.eqb_eq. tauto.
Qed.

Lemma alarmMatches_timeValue_witness :
  timeValue 7 5 None = "07:05"%string
  /\ alarmMatches "07:05"
       {| getHours := 7; getMinutes := 5; getSeconds := 0 |} = true
  /\ alarmMatches "07:05"
       {| getHours := 7; getMinutes := 5; getSeconds := 1 |} = false.
Proof.
  split; [reflexivity|].
  pose proof (alarmMatches_timeValue 7 5 None
                {| getHours := 7; getMinutes := 5; getSeconds := 0 |}) as H.
  split; [apply H; [lia|lia|auto]|reflexivity].
Defined.
(* ================================================================== *)
(** * Compass and spirit level views *)
(* ================================================================== *)

Local Open Scope Q_scope.

Lemma Qfloor_half_odd (n d : Z) :
  (0 < d)%Z -> Qfloor (inject_Z n / inject_Z d) = (n / d)%Z.
Proof. intros _. symmetry. apply Zdiv_Qdiv. Qed.

(** On an integer heading the index is computed in integers: with
    [t = 2 * a + 45] (twice [a + 22.5]). *)
Lemma cardinal_index_nonneg (a : Z) :
  (-22 <= a)%Z ->
  Qfloor (jsRem (inject_Z a + (45 # 2)) 360 / 45)
  = (((2 * a + 45) mod 720) / 90)%Z.
Proof.
  intros Ha. unfold jsRem, Qtrunc.
  assert (Hx : inject_Z a + (45 # 2) == inject_Z (2 * a + 45) / inject_Z 2).
  { rewrite inject_Z_plus, inject_Z_mult. field. }
  assert (Hpos : 0 <= (inject_Z a + (45 # 2)) / 360).
  { apply Qle_shift_div_l; [reflexivity|]. rewrite Qmult_0_l.
    rewrite Hx. apply Qle_shift_div_l; [reflexivity|]. rewrite Qmult_0_l.
    change 0 with (inject_Z 0). rewrite <- Zle_Qle. lia. }
  apply Qle_bool_iff in Hpos. rewrite Hpos.
  assert (Hq : Qfloor ((inject_Z a + (45 # 2)) / 360) = ((2 * a + 45) / 720)%Z).
  { rewrite (Zdiv_Qdiv (2 * a + 45) 720). apply Qfloor_comp.
    rewrite Hx. change (inject_Z 720) with (inject_Z 2 * 360). field. }
  rewrite Hq.
  rewrite (Zdiv_Qdiv ((2 * a + 45) mod 720) 90). apply Qfloor_comp.
  rewrite Hx.
  rewrite Z.mod_eq by lia. unfold Z.sub.
  generalize ((2 * a + 45) / 720)%Z (2 * a + 45)%Z. intros q t.
  rewrite inject_Z_plus, inject_Z_opp, inject_Z_mult.
  change (inject_Z 90) with (inject_Z 2 * 45).
  change (inject_Z 720) with (inject_Z 2 * 360). field.
Qed.


Lemma cardinal_lookup (a : Z) :
  (-22 <= a)%Z ->
  getCardinalDirection (inject_Z a)
  = nth_error directions (Z.to_nat ((2 * a + 45) mod 720 / 90))
  /\ (0 <= (2 * a + 45) mod 720 / 90 < 8)%Z.
Proof.
  intros Ha. unfold getCardinalDirection; cbv zeta.
  rewrite cardinal_index_nonneg by exact Ha.
  pose proof (Z.mod_pos_bound (2 * a + 45) 720 ltac:(lia)) as Hr.
  assert (Hi0 : (0 <= (2 * a + 45) mod 720 / 90 < 8)%Z).
  { split; [apply Z.div_pos; lia|apply Z.div_lt_upper_bound; lia]. }
  assert (Hlt : ((2 * a + 45) mod 720 / 90 <? 0)%Z = false)
    by (apply Z.ltb_ge; lia).
  rewrite Hlt. split; [reflexivity|exact Hi0].
Qed.





Lemma Math_round_bounds (x : Q) (lo hi : Z) :
  inject_Z lo <= x -> x < inject_Z hi ->
  (lo <= Math_round x <= hi)%Z.
Proof.
  intros Hlo Hhi. unfold Math_round. split.
  - rewrite <- (Qfloor_Z lo). apply Qfloor_resp_le. lra.
  - destruct (Z_lt_le_dec hi (Qfloor (x + (1 # 2)))) as [L|L]; [exfalso|exact L].
    pose proof (Qfloor_le (x + (1 # 2))) as F1.
    assert (L' : inject_Z (hi + 1) <= inject_Z (Qfloor (x + (1 # 2))))
      by (rewrite <- Zle_Qle; lia).
    rewrite inject_Z_plus in L'. change (inject_Z 1) with 1 in L'. lra.
Qed.

(** A reading within a full turn gives a heading between 0 and 360
    and a compass point. *)
Theorem compassView_defined (o : Orientation) :
  0 <= alpha o -> alpha o < 360 ->
  (0 <= degrees (compassView o) <= 360)%Z
  /\ cardinal (compassView o) <> None
  /\ roseRotation (compassView o) = (- degrees (compassView o))%Z.
Proof.
  intros H0 H1. unfold compassView; cbv zeta; cbn [degrees cardinal roseRotation].
  pose proof (Math_round_bounds (alpha o) 0 360 H0 H1) as Hb.
  split; [exact Hb|]. split; [|reflexivity].
  destruct (cardinal_lookup (Math_round (alpha o))) as [E Hi]; [lia|].
  rewrite E. intros En. apply nth_error_None in En.
  change (List.length directions) with 8%nat in En. lia.
Qed.

Lemma compassView_defined_witness :
  0 <= 359 # 1 /\ 359 # 1 < 360
  /\ cardinal (compassView {| alpha := 359 # 1; beta := 0; gamma := 0 |})
     = Some "N"%string
  /\ cardinal (compassView {| alpha := 359 # 1; beta := 0; gamma := 0 |})
     <> None.
Proof.
  split; [discriminate|]. split; [reflexivity|]. split; [reflexivity|].
  apply (compassView_defined {| alpha := 359 # 1; beta := 0; gamma := 0 |});
    [discriminate|reflexivity].
Defined.

(* ---------- the spirit level ---------- *)

Lemma clamp_bounds (x : Q) : -90 <= Qmax (-90) (Qmin 90 x) <= 90.
Proof.
  split; [apply Q.le_max_l|].
  apply Q.max_lub; [discriminate|apply Q.le_min_l].
Qed.

(** The bubbles stay inside their vials, whatever the sensor reports:
    the readings are clamped to a quarter turn, which bounds the
    displacements by 110 and 45 pixels. *)
Theorem spiritLevelView_bounds (o : Orientation) :
  Qabs (tubeX (spiritLevelView o)) <= 110
  /\ Qabs (bullseyeX (spiritLevelView o)) <= 45
  /\ Qabs (bullseyeY (spiritLevelView o)) <= 45
  /\ (-90 <= tilt (spiritLevelView o) <= 90).
Proof.
  unfold spiritLevelView; cbv zeta; cbn [tubeX bullseyeX bullseyeY tilt].
  pose proof (clamp_bounds (gamma o)) as [G1 G2].
  pose proof (clamp_bounds (beta o)) as [B1 B2].
  set (g := Qmax (-90) (Qmin 90 (gamma o))) in *.
  set (b := Qmax (-90) (Qmin 90 (beta o))) in *.
  assert (Eg1 : g / 90 * 110 == g * (11 # 9)) by field.
  assert (Eg2 : g / 90 * 45 == g * (1 # 2)) by field.
  assert (Eb : b / 90 * 45 == b * (1 # 2)) by field.
  rewrite Eg1, Eg2, Eb.
  repeat split; try assumption; apply Qabs_Qle_condition; split; lra.
Qed.



Local Close Scope Q_scope.
(* ================================================================== *)
(** * Calculator *)
(* ================================================================== *)

Section CalculatorFacts.

Context {N : JsNumber}.

Lemma isDigit_digitChar d : isDigit (digitChar d) = true.
Proof. destruct d; reflexivity. Qed.

Lemma handle_digit d st :
  handleCalcInput (digitKey d) st
  = if isFreshEntry st then
      {| display := digitKey d; memory := memory st; operator := operator st;
         isFreshEntry := false |}
    else
      {| display := if String.eqb (display st) "0" then digitKey d
                    else display st ++ digitKey d;
         memory := memory st; operator := operator st;
         isFreshEntry := isFreshEntry st |}.
Proof. destruct d; reflexivity. Qed.

Lemma handle_dot st :
  handleCalcInput "." st
  = if isFreshEntry st then
      {| display := "0."; memory := memory st; operator := operator st;
         isFreshEntry := false |}
    else if negb (includesDot (display st)) then
      {| display := display st ++ "."; memory := memory st;
         operator := operator st; isFreshEntry := isFreshEntry st |}
    else st.
Proof. reflexivity. Qed.

Lemma press_app a b (st : CalcState N) : press (a ++ b) st = press b (press a st).
Proof. unfold press. apply fold_left_app. Qed.

Lemma text_app a b : text (a ++ b) = (text a ++ text b)%string.
Proof. induction a as [|d a IH]; [reflexivity|]. simpl. rewrite IH. reflexivity. Qed.

Lemma stripZeros_nonempty ds : ds <> [] -> stripZeros ds <> [].
Proof.
  induction ds as [|d ds IH]; [intros H; destruct H; reflexivity|].
  intros _. destruct d; try discriminate.
  destruct ds as [|d' ds']; [discriminate|]. cbn [stripZeros].
  apply IH. discriminate.
Qed.

Lemma stripZeros_snoc ds d :
  ds <> [] ->
  stripZeros (ds ++ [d])
  = if String.eqb (text (stripZeros ds)) "0" then [d] else stripZeros ds ++ [d].
Proof.
  induction ds as [|a ds IH]; [intros H; destruct H; reflexivity|]. intros _.
  destruct ds as [|b ds'].
  - destruct a; destruct d; reflexivity.
  - assert (Hne : b :: ds' <> []) by discriminate.
    specialize (IH Hne).
    destruct a; try (cbn [app stripZeros text]; reflexivity).
    change (stripZeros ((k0 :: b :: ds') ++ [d]))
      with (stripZeros ((b :: ds') ++ [d])).
    change (stripZeros (k0 :: b :: ds')) with (stripZeros (b :: ds')).
    exact IH.
Qed.

Lemma text_nonzero_start ds :
  String.eqb (text (stripZeros ds)) "0" = false ->
  forall d, (text (stripZeros ds) ++ digitKey d)%string
            = text (stripZeros ds ++ [d]).
Proof. intros _ d. rewrite text_app. reflexivity. Qed.

Lemma press_digits ds : forall d disp mem op,
  press (map digitKey (d :: ds))
    {| display := disp; memory := mem; operator := op; isFreshEntry := true |}
  = {| display := text (stripZeros (d :: ds)); memory := mem; operator := op;
       isFreshEntry := false |}.
Proof.
  induction ds as [|x ds IH] using rev_ind; intros d disp mem op.
  - cbn [map press fold_left]. rewrite handle_digit. destruct d; reflexivity.
  - change (d :: ds ++ [x]) with ((d :: ds) ++ [x]).
    rewrite map_app, press_app, IH.
    cbn [map press fold_left]. rewrite handle_digit.
    cbn [isFreshEntry display memory operator].
    rewrite stripZeros_snoc by discriminate.
    destruct (String.eqb (text (stripZeros (d :: ds))) "0") eqn:E.
    + destruct x; reflexivity.
    + rewrite text_app. reflexivity.
Qed.

(** Typing digits into a fresh entry: the display is the digits typed
    less their leading zeros; memory and operator are untouched. *)
Theorem calculator_digit_entry (d : Digit) (ds : list Digit)
  (disp : string) (mem : option number) (op : option string) :
  press (map digitKey (d :: ds))
    {| display := disp; memory := mem; operator := op; isFreshEntry := true |}
  = {| display := text (stripZeros (d :: ds)); memory := mem; operator := op;
       isFreshEntry := false |}.
Proof. apply press_digits. Qed.

(* ---------- well-formed entry ---------- *)

Lemma allDigits_snoc s d :
  allDigits s = true -> allDigits (s ++ digitKey d) = true.
Proof.
  induction s as [|c s IH]; simpl.
  - intros _. rewrite isDigit_digitChar. reflexivity.
  - intros H. apply andb_true_iff in H as [H1 H2]. rewrite H1, IH by exact H2.
    reflexivity.
Qed.

Lemma isDigit_not_dot c : isDigit c = true -> Ascii.eqb c "." = false.
Proof.
  intros H. destruct (Ascii.eqb c ".") eqn:E; [|reflexivity].
  apply Ascii.eqb_eq in E. subst c. discriminate H.
Qed.

Lemma digitsThenFraction_snoc s d :
  digitsThenFraction s = true -> digitsThenFraction (s ++ digitKey d) = true.
Proof.
  induction s as [|c s IH]; simpl.
  - intros _. rewrite isDigit_not_dot, isDigit_digitChar by apply isDigit_digitChar.
    reflexivity.
  - destruct (Ascii.eqb c "."); [apply allDigits_snoc|].
    intros H. apply andb_true_iff in H as [H1 H2]. rewrite H1, IH by exact H2.
    reflexivity.
Qed.

Lemma includesDot_allDigits s : allDigits s = true -> includesDot s = false.
Proof.
  induction s as [|c s IH]; [reflexivity|]. simpl. intros H.
  apply andb_true_iff in H as [H1 H2].
  rewrite isDigit_not_dot, IH by assumption. reflexivity.
Qed.

Lemma digitsThenFraction_dot s :
  digitsThenFraction s = true -> includesDot s = false ->
  digitsThenFraction (s ++ ".") = true.
Proof.
  induction s as [|c s IH]; [reflexivity|]. simpl.
  destruct (Ascii.eqb c "."); [discriminate|]. simpl.
  intros H Hd. apply andb_true_iff in H as [H1 H2]. rewrite H1, IH by assumption.
  reflexivity.
Qed.

Lemma wellFormed_digit s d :
  wellFormedEntry s = true ->
  wellFormedEntry (if String.eqb s "0" then digitKey d else s ++ digitKey d)
  = true.
Proof.
  intros H. destruct (String.eqb s "0") eqn:E.
  - destruct d; reflexivity.
  - destruct s as [|c s]; [discriminate H|].
    cbn [wellFormedEntry append] in *.
    destruct (Ascii.eqb c "0") eqn:E0.
    + destruct s as [|c' f].
      * apply Ascii.eqb_eq in E0. subst c. discriminate E.
      * cbn [append]. apply andb_true_iff in H as [H1 H2].
        rewrite H1, allDigits_snoc by exact H2. reflexivity.
    + apply andb_true_iff in H as [H1 H2].
      rewrite H1, digitsThenFraction_snoc by exact H2. reflexivity.
Qed.

Lemma wellFormed_dot s :
  wellFormedEntry s = true -> includesDot s = false ->
  wellFormedEntry (s ++ ".") = true.
Proof.
  intros H Hd. destruct s as [|c s]; [discriminate H|].
  cbn [wellFormedEntry append includesDot] in *.
  apply orb_false_iff in Hd as [Hc Hd].
  destruct (Ascii.eqb c "0") eqn:E0.
  - destruct s as [|c' f]; [reflexivity|].
    cbn [includesDot] in Hd. apply orb_false_iff in Hd as [Hc' _].
    rewrite Hc' in H. discriminate H.
  - apply andb_true_iff in H as [H1 H2].
    rewrite H1, digitsThenFraction_dot by assumption. reflexivity.
Qed.

Lemma entry_step k (st : CalcState N) :
  isFreshEntry st = false -> wellFormedEntry (display st) = true ->
  isFreshEntry (handleCalcInput (entryKey k) st) = false
  /\ wellFormedEntry (display (handleCalcInput (entryKey k) st)) = true
  /\ memory (handleCalcInput (entryKey k) st) = memory st
  /\ operator (handleCalcInput (entryKey k) st) = operator st.
Proof.
  intros Hf Hw. destruct k as [d|]; cbn [entryKey].
  - rewrite handle_digit, Hf. cbn [isFreshEntry display memory operator].
    rewrite wellFormed_digit by exact Hw. auto.
  - rewrite handle_dot, Hf.
    destruct (includesDot (display st)) eqn:E; cbn [negb];
      cbn [isFreshEntry display memory operator]; [auto|].
    rewrite wellFormed_dot by assumption. auto.
Qed.

Lemma entry_first k disp mem op :
  let st := handleCalcInput (entryKey k)
              {| display := disp; memory := mem; operator := op;
                 isFreshEntry := true |} in
  isFreshEntry st = false /\ wellFormedEntry (display st) = true
  /\ memory st = mem /\ operator st = op.
Proof.
  destruct k as [d|]; cbn [entryKey]; cbv zeta.
  - rewrite handle_digit. cbn. destruct d; auto.
  - rewrite handle_dot. cbn. auto.
Qed.

(** Whatever digits and points are typed into a fresh entry, the
    display is a well-formed decimal numeral: no superfluous zero in
    front and at most one point; memory and operator are untouched. *)
Theorem calculator_entry_well_formed (k : EntryKey) (ks : list EntryKey)
  (disp : string) (mem : option number) (op : option string) :
  let st := press (map entryKey (k :: ks))
              {| display := disp; memory := mem; operator := op;
                 isFreshEntry := true |} in
  wellFormedEntry (display st) = true
  /\ isFreshEntry st = false /\ memory st = mem /\ operator st = op.
Proof.
  cbv zeta. cbn [map press fold_left].
  destruct (entry_first k disp mem op) as (F & W & M & O).
  revert F W M O.
  generalize (handleCalcInput (entryKey k)
                {| display := disp; memory := mem; operator := op;
                   isFreshEntry := true |}).
  induction ks as [|x ks IH]; intros st F W M O; cbn [map fold_left]; [auto|].
  destruct (entry_step x st F W) as (F' & W' & M' & O').
  apply IH; congruence.
Qed.

(* ---------- operations ---------- *)

Lemma handle_op o (st : CalcState N) :
  handleCalcInput (opKey o) st
  = match operator st, memory st with
    | Some op, Some m =>
        if truthyString (Some op) && negb (isFreshEntry st) then
          let result := performCalculation m (parseFloat (display st)) op in
          {| display := numberToString result; memory := Some result;
             operator := Some (opKey o); isFreshEntry := true |}
        else
          {| display := display st; memory := Some (parseFloat (display st));
             operator := Some (opKey o); isFreshEntry := true |}
    | _, _ =>
        {| display := display st; memory := Some (parseFloat (display st));
           operator := Some (opKey o); isFreshEntry := true |}
    end.
Proof. destruct o; reflexivity. Qed.

(** A chain [a op1 b op2 c =] is evaluated from left to right, with no
    precedence among the operators: the display ends as
    [(a op1 b) op2 c]. *)
Theorem calculator_left_to_right (a b c : Digit) (A B C : list Digit)
  (op1 op2 : Op) (st : CalcState N) :
  press ("C"%string :: map digitKey (a :: A) ++ opKey op1
         :: map digitKey (b :: B) ++ opKey op2
         :: map digitKey (c :: C) ++ ["="%string]) st
  = {| display :=
         numberToString
           (performCalculation
              (performCalculation (entered (a :: A)) (entered (b :: B))
                 (opKey op1))
              (entered (c :: C)) (opKey op2));
       memory := None; operator := None; isFreshEntry := true |}.
Proof.
  change (press ("C"%string :: ?l) st) with (press l (handleCalcInput "C" st)).
  change (handleCalcInput "C" st) with calcInitial. unfold calcInitial.
  rewrite press_app, press_digits.
  change (press (opKey op1 :: ?l) ?s) with (press l (handleCalcInput (opKey op1) s)).
  rewrite handle_op. cbn [operator memory display isFreshEntry].
  rewrite press_app, press_digits.
  change (press (opKey op2 :: ?l) ?s) with (press l (handleCalcInput (opKey op2) s)).
  rewrite handle_op. cbn [operator memory display isFreshEntry].
  assert (T : truthyString (Some (opKey op1)) = true) by (destruct op1; reflexivity).
  rewrite T. cbn [andb negb]. cbv zeta.
  rewrite press_app, press_digits.
  cbn [press fold_left].
  assert (T2 : truthyString (Some (opKey op2)) = true) by (destruct op2; reflexivity).
  destruct op2; reflexivity.
Qed.

Lemma handle_equals (st : CalcState N) :
  handleCalcInput "=" st
  = match operator st, memory st with
    | Some op, Some m =>
        if truthyString (Some op) then
          {| display :=
               numberToString
                 (performCalculation m (parseFloat (display st)) op);
             memory := None; operator := None; isFreshEntry := true |}
        else st
    | _, _ => st
    end.
Proof. reflexivity. Qed.

(** [=] with nothing pending changes nothing, and a second [=] changes
    nothing after the first. *)
Theorem calculator_equals_once (st : CalcState N) :
  handleCalcInput "=" (handleCalcInput "=" st) = handleCalcInput "=" st
  /\ (operator st = None \/ memory st = None -> handleCalcInput "=" st = st).
Proof.
  split.
  - rewrite (handle_equals st).
    destruct (operator st) as [op|] eqn:O; [|rewrite handle_equals, O; reflexivity].
    destruct (memory st) as [m|] eqn:M;
      [|rewrite handle_equals, O, M; reflexivity].
    destruct (truthyString (Some op)) eqn:T; [reflexivity|].
    rewrite handle_equals, O, M, T. reflexivity.
  - rewrite handle_equals. intros [H|H]; rewrite H;
      [reflexivity|destruct (operator st); reflexivity].
Qed.

(** An operator pressed right after another replaces it: nothing is
    calculated and the display stays. *)
Theorem calculator_operator_replaced (o1 o2 : Op) (st : CalcState N) :
  let st1 := handleCalcInput (opKey o1) st in
  let st2 := handleCalcInput (opKey o2) st1 in
  display st2 = display st1
  /\ operator st2 = Some (opKey o2)
  /\ memory st2 = Some (parseFloat (display st1))
  /\ isFreshEntry st2 = true.
Proof.
  cbv zeta. rewrite (handle_op o2).
  assert (F : isFreshEntry (handleCalcInput (opKey o1) st) = true).
  { rewrite handle_op. destruct (operator st), (memory st); try reflexivity.
    destruct (_ && _); reflexivity. }
  rewrite F.
  destruct (operator (handleCalcInput (opKey o1) st)) as [op|],
    (memory (handleCalcInput (opKey o1) st)) as [m|];
    cbn [negb]; rewrite ?andb_false_r;
    cbn [display operator memory isFreshEntry]; auto.
Qed.

End CalculatorFacts.
(* ================================================================== *)
(** * Memo *)
(* ================================================================== *)

Lemma option_string_eqb_refl a : option_string_eqb a a = true.
Proof. apply option_string_eqb_eq. reflexivity. Qed.

Lemma memoCommit_note m : noteContent (memoCommit m) = noteContent m.
Proof. unfold memoCommit. destruct (option_string_eqb _ _); reflexivity. Qed.

Lemma memoCommit_Saved m :
  (saveDeps m = Some (noteContent m) -> storageItem m = Some (noteContent m)) ->
  Saved (memoCommit m).
Proof.
  intros H. unfold memoCommit.
  destruct (option_string_eqb (saveDeps m) (Some (noteContent m))) eqn:E.
  - apply option_string_eqb_eq in E. split; auto.
  - split; reflexivity.
Qed.

Lemma memoMount_note item :
  noteContent (memoMount item)
  = match item with Some s => s | None => EmptyString end.
Proof.
  unfold memoMount. rewrite memoCommit_note. cbn [noteContent].
  destruct item as [[|c s]|]; reflexivity.
Qed.

Lemma memoMount_Saved item : Saved (memoMount item).
Proof.
  unfold memoMount. apply memoCommit_Saved. cbn. intros [= <-]. reflexivity.
Qed.

Lemma memoStep_Saved m ev : Saved m -> Saved (memoStep m ev).
Proof.
  intros [H1 H2]. unfold memoStep. apply memoCommit_Saved.
  destruct ev; cbn; rewrite H1, H2; intros E; exact E.
Qed.

Lemma memoRun_Saved evs : forall m, Saved m -> Saved (memoRun evs m).
Proof.
  induction evs as [|ev evs IH]; intros m H; [exact H|].
  cbn [memoRun fold_left]. apply IH, memoStep_Saved, H.
Qed.

(** After the first render and after every event the item of
    [localStorage] is the note, so that the note survives a reload:
    mounting the component again on the storage left behind shows the
    same note. *)
Theorem memo_survives_reload (item : option string) (evs : list MemoEvent) :
  let m := memoRun evs (memoMount item) in
  storageItem m = Some (noteContent m)
  /\ noteContent (memoMount (storageItem m)) = noteContent m.
Proof.
  cbv zeta.
  destruct (memoRun_Saved evs (memoMount item) (memoMount_Saved item)) as [H _].
  split; [exact H|]. rewrite memoMount_note, H. reflexivity.
Qed.

(** Clearing the note stores the empty string (the item is not
    removed); the note typed last is the one stored. *)
Theorem memo_last_edit_stored (item : option string) (evs : list MemoEvent)
  (value : string) :
  let m := memoRun evs (memoMount item) in
  storageItem (memoStep m (NoteChange value)) = Some value
  /\ storageItem (memoStep m ClearNote) = Some EmptyString
  /\ memoStep m PrintNote = m.
Proof.
  cbv zeta.
  pose proof (memoRun_Saved evs (memoMount item) (memoMount_Saved item)) as S.
  split; [|split].
  - destruct (memoStep_Saved _ (NoteChange value) S) as [H _].
    rewrite H. unfold memoStep. rewrite memoCommit_note. reflexivity.
  - destruct (memoStep_Saved _ ClearNote S) as [H _].
    rewrite H. unfold memoStep. rewrite memoCommit_note. reflexivity.
  - destruct S as [_ S2]. unfold memoStep, memoCommit. cbn [memoHandle].
    rewrite S2, option_string_eqb_refl. reflexivity.
Qed.
(* ================================================================== *)
(** * Properties of every reachable world *)
(* ================================================================== *)

(** Induction over the worlds the component can be in: the mount, the
    commits of a render, and the handlers of the events the render
    offers. *)
Lemma reachable_invariant (P : World -> Prop) :
  (forall now r a, P (mount (unmounted now r a))) ->
  (forall x, P x -> P (commit x)) ->
  (forall w ev, reachable w -> P w -> enabled ev w = true -> P (handle ev w)) ->
  forall w, reachable w -> P w.
Proof.
  intros Hm Hc Hh w H. induction H as [now r a|w ev H IH].
  - unfold initialWorld. apply rerender_ind; [apply Hm|apply Hc].
  - unfold dispatch. destruct (enabled ev w) eqn:En; [|exact IH].
    unfold invoke. apply rerender_ind; [apply Hh; assumption|apply Hc].
Qed.

(* ---------- the lamp ---------- *)

Lemma commit_lampOf x : lampOf (commit x) = lampOf x.
Proof.
  unfold lampOf.
  pose proof (commit_isFlashlightOn x) as H1.
  pose proof (commit_isSosActive x) as H2.
  pose proof (commit_isAudioSosActive x) as H3.
  unfold isFlashlightOnOf, isSosActiveOf, isAudioSosActiveOf in *.
  rewrite H1, H2, H3. reflexivity.
Qed.

Lemma rerender_lampOf x : lampOf (rerender x) = lampOf x.
Proof. apply rerender_frame, commit_lampOf. Qed.

Lemma runCallback_lampOf cb now w : lampOf (runCallback cb now w) = lampOf w.
Proof.
  destruct cb; cbn [runCallback]; unfold lampOf; unfold_handlers; solve_frame.
Qed.

Lemma fireTimer_lampOf id now w : lampOf (fireTimer id now w) = lampOf w.
Proof.
  unfold fireTimer. destruct (findTimer id w) as [e|]; [|reflexivity].
  destruct (repeating e);
    [|change (lampOf (clearTimeout id ?x)) with (lampOf x)];
    apply runCallback_lampOf.
Qed.

Lemma runListener_lampOf l e w : lampOf (runListener l e w) = lampOf w.
Proof. destruct l; cbn [runListener]; unfold lampOf; solve_frame. Qed.

Lemma deviceorientation_lampOf e w : lampOf (deviceorientation e w) = lampOf w.
Proof.
  unfold deviceorientation. generalize (listeners (window w)).
  intros ls. revert w. induction ls as [|l ls IH]; intros w; simpl; [reflexivity|].
  rewrite IH. unfold deliver.
  destruct (existsb _ _); [apply runListener_lampOf|reflexivity].
Qed.

Lemma handleBackClick_lampOf w :
  lampOf (handleBackClick w)
  = if shown h_flashlight w then (false, false, false) else lampOf w.
Proof.
  unfold handleBackClick, shown, lampOf.
  destruct (appState (nav w)); cbn [AppState_beq andb]; try reflexivity.
  destruct (activeHologram (nav w));
    cbn [ActiveHologram_beq isSensorHologram andb];
    try reflexivity; solve_frame.
Qed.

(** While the lamp is on, nothing but the back command issued in the
    flashlight view changes the lamp or either SOS mode; that command
    switches all three off. *)
Theorem lamp_changes_only_by_back (w : World) (ev : Event) :
  isFlashlightOn (flashlight w) = true ->
  lampOf (dispatch ev w)
  = if match ev with BackClick => shown h_flashlight w | _ => false end
    then (false, false, false) else lampOf w.
Proof.
  intros Hon. unfold dispatch.
  destruct (enabled ev w) eqn:En.
  - unfold invoke. rewrite rerender_lampOf.
    destruct ev; cbn [handle]; cbn [enabled] in En;
      try (rewrite Hon in En; cbn in En; rewrite ?andb_false_r in En;
           discriminate En);
      first [ apply handleBackClick_lampOf | apply fireTimer_lampOf
            | apply deviceorientation_lampOf
            | unfold lampOf; unfold_handlers; solve_frame ].
  - destruct ev; try reflexivity.
    cbn [enabled] in En. unfold shown.
    destruct (appState (nav w)); try discriminate En; reflexivity.
Qed.

(** The back command in the flashlight, both SOS modes running. *)
Lemma lamp_changes_only_by_back_witness :
  lampOf sosRunning = (true, true, true)
  /\ lampOf (dispatch BackClick sosRunning) = (false, false, false).
Proof.
  split; [vm_compute; reflexivity|].
  rewrite (lamp_changes_only_by_back sosRunning BackClick);
    vm_compute; reflexivity.
Defined.

(* ---------- what handlers leave alone ---------- *)

Lemma runCallback_hooks cb now w : hooks (runCallback cb now w) = hooks w.
Proof. destruct cb; cbn [runCallback]; unfold_handlers; solve_frame. Qed.

Lemma fireTimer_hooks id now w : hooks (fireTimer id now w) = hooks w.
Proof.
  unfold fireTimer. destruct (findTimer id w) as [e|]; [|reflexivity].
  destruct (repeating e);
    [|change (hooks (clearTimeout id ?x)) with (hooks x)];
    apply runCallback_hooks.
Qed.

Lemma runListener_hooks l e w : hooks (runListener l e w) = hooks w.
Proof. destruct l; cbn [runListener]; solve_frame. Qed.

Lemma deviceorientation_hooks e w : hooks (deviceorientation e w) = hooks w.
Proof.
  unfold deviceorientation. generalize (listeners (window w)).
  intros ls. revert w. induction ls as [|l ls IH]; intros w; simpl; [reflexivity|].
  rewrite IH. unfold deliver.
  destruct (existsb _ _); [apply runListener_hooks|reflexivity].
Qed.

(** No handler touches what React remembers of the effects. *)
Lemma handle_hooks ev w : hooks (handle ev w) = hooks w.
Proof.
  destruct ev; cbn [handle];
    first [ apply handleBackClick_hooks | apply fireTimer_hooks
          | apply deviceorientation_hooks | unfold_handlers; solve_frame ].
Qed.

(** A callback registers timers of its own owner only. *)
Lemma runCallback_adds cb now w : Adds (owner cb) w (runCallback cb now w).
Proof.
  destruct cb as [a r|d|b| |d| |r]; cbn [runCallback owner];
    [ | | |apply schedulePatternVisual_adds| |apply schedulePatternAudio_adds| ];
    unfold_handlers; solve_adds.
Qed.

Lemma Adds_trans o a b c : Adds o a b -> Adds o b c -> Adds o a c.
Proof.
  intros [N1 H1] [N2 H2]. split; [lia|]. intros e He.
  destruct (H2 e He) as [Hb|[Ho Hr]].
  - destruct (H1 e Hb) as [Ha|[Ho Hr]]; [left; exact Ha|right; split; [exact Ho|lia]].
  - right. split; [exact Ho|lia].
Qed.

Lemma fireTimer_adds id now w :
  match findTimer id w with
  | Some e => Adds (owner (callback e)) w (fireTimer id now w)
  | None => fireTimer id now w = w
  end.
Proof.
  unfold fireTimer. destruct (findTimer id w) as [e|]; [|reflexivity].
  destruct (repeating e); [apply runCallback_adds|].
  eapply Adds_trans; [apply runCallback_adds|apply clearTimeout_adds].
Qed.

Lemma fireTimer_NoPending o id now w :
  NoPending o w -> NoPending o (fireTimer id now w).
Proof.
  intros H. pose proof (fireTimer_adds id now w) as Ha.
  destruct (findTimer id w) as [e|] eqn:F; [|rewrite Ha; exact H].
  apply findTimer_In in F as [Hin _].
  assert (Hne : owner (callback e) <> o).
  { intros Ho. pose proof (pending_owner o w e Hin Ho) as Hp.
    unfold NoPending in H. rewrite H in Hp. exact Hp. }
  revert H. apply NoPending_shrink.
  apply (Adds_pending (owner (callback e))); assumption.
Qed.

Lemma clearSensorCheck_adds o w : Adds o w (clearSensorCheck w).
Proof. solve_adds. Qed.

Lemma runListener_adds o l e w : Adds o w (runListener l e w).
Proof. destruct l as [r|r]; cbn [runListener]; solve_adds. Qed.

Lemma deliver_adds o e ls : forall w0 w,
  Adds o w0 w -> Adds o w0 (fold_left (deliver e) ls w).
Proof.
  induction ls as [|l ls IH]; intros w0 w H; cbn [fold_left]; [exact H|].
  apply IH. eapply Adds_trans; [exact H|]. unfold deliver.
  destruct (existsb _ _); [apply runListener_adds|apply Adds_refl].
Qed.

Lemma deviceorientation_adds o e w : Adds o w (deviceorientation e w).
Proof. apply deliver_adds, Adds_refl. Qed.

Lemma handleBackClick_adds o w : Adds o w (handleBackClick w).
Proof.
  unfold handleBackClick.
  destruct (appState (nav w)); [apply Adds_refl|solve_adds|].
  destruct (activeHologram (nav w));
    cbn [ActiveHologram_beq isSensorHologram andb]; solve_adds.
Qed.

Lemma Adds_all_pending o w w' :
  (forall o', Adds o' w w') -> incl (pending o w') (pending o w).
Proof.
  intros H. destruct o;
    first [ apply (Adds_pending OTimer); [apply H|discriminate]
          | apply (Adds_pending OClock); [apply H|discriminate] ].
Qed.

(** No handler registers a timer, but for the callback of a timer that
    starts the next run of its own channel. *)
Lemma handle_NoPending o ev w : NoPending o w -> NoPending o (handle ev w).
Proof.
  destruct ev; cbn [handle];
    try apply fireTimer_NoPending;
    apply NoPending_shrink, Adds_all_pending; intros o';
    first [ apply handleBackClick_adds | apply deviceorientation_adds
          | unfold_handlers; solve_adds ].
Qed.

(* ---------- signals only while a mode is active ---------- *)

Lemma runCallback_light cb now w :
  owner cb <> OVisual ->
  isSosLightVisibleOf (runCallback cb now w) = isSosLightVisibleOf w.
Proof.
  intros H. destruct cb; cbn [runCallback];
    try (exfalso; apply H; reflexivity); unfold_handlers; solve_frame.
Qed.

Lemma fireTimer_light id now w :
  NoPending OVisual w ->
  isSosLightVisibleOf (fireTimer id now w) = isSosLightVisibleOf w.
Proof.
  intros H. unfold fireTimer. destruct (findTimer id w) as [e|] eqn:F; [|reflexivity].
  apply findTimer_In in F as [Hin _].
  assert (Hne : owner (callback e) <> OVisual).
  { intros Ho. pose proof (pending_owner OVisual w e Hin Ho) as Hp.
    unfold NoPending in H. rewrite H in Hp. exact Hp. }
  destruct (repeating e);
    [|change (isSosLightVisibleOf (clearTimeout id ?x))
        with (isSosLightVisibleOf x)];
    apply runCallback_light, Hne.
Qed.

Lemma runListener_light l e w :
  isSosLightVisibleOf (runListener l e w) = isSosLightVisibleOf w.
Proof. destruct l; cbn [runListener]; solve_frame. Qed.

Lemma deviceorientation_light e w :
  isSosLightVisibleOf (deviceorientation e w) = isSosLightVisibleOf w.
Proof.
  unfold deviceorientation. generalize (listeners (window w)).
  intros ls. revert w. induction ls as [|l ls IH]; intros w; simpl; [reflexivity|].
  rewrite IH. unfold deliver.
  destruct (existsb _ _); [apply runListener_light|reflexivity].
Qed.

Lemma handleBackClick_light w :
  isSosLightVisibleOf (handleBackClick w) = isSosLightVisibleOf w.
Proof. back_frame w. Qed.

Lemma handle_light ev w :
  NoPending OVisual w ->
  isSosLightVisibleOf (handle ev w) = isSosLightVisibleOf w.
Proof.
  intros H. destruct ev; cbn [handle];
    first [ apply handleBackClick_light | apply (fireTimer_light _ _ _ H)
          | apply deviceorientation_light | unfold_handlers; solve_frame ].
Qed.

Lemma commit_clears_visual x :
  VisualOK x -> visualChanged x = true -> isSosActive (flashlight x) = false ->
  NoPending OVisual (commit x).
Proof.
  intros H Hc Hi. unfold commit; cbv zeta. rewrite Hc, !whenb_true.
  do 2 (apply whenb_pres; [intros y; apply NoPending_shrink; shrinks|]).
  unfold visualEffect at 1. rewrite Hi. cbn [negb].
  apply (clearVisual_clears
           (whenb (timerChanged x) (timerEffect x)
              (whenb (clockChanged x) (clockEffect x)
                 (whenb (sensorChanged x) sensorCleanup
                    (whenb (audioChanged x) audioCleanupFn
                       (visualCleanupFn
                          (whenb (timerChanged x) timerCleanup
                             (whenb (clockChanged x) clockCleanup x)))))))).
  do 4 (apply whenb_pres; [intros y; not_visual|]).
  apply visualCleanupFn_ok.
  do 2 (apply whenb_pres; [intros y; not_visual|]).
  exact H.
Qed.

Lemma commit_clears_audio x :
  AudioOK x -> audioChanged x = true ->
  isAudioSosActive (flashlight x) = false ->
  NoPending OAudio (commit x).
Proof.
  intros H Hc Hi. unfold commit; cbv zeta. rewrite Hc, !whenb_true.
  apply whenb_pres; [intros y; apply NoPending_shrink; shrinks|].
  unfold audioEffect at 1. rewrite Hi. cbn [negb orb].
  apply (clearAudio_clears
           (whenb (visualChanged x) (visualEffect x)
              (whenb (timerChanged x) (timerEffect x)
                 (whenb (clockChanged x) (clockEffect x)
                    (whenb (sensorChanged x) sensorCleanup
                       (audioCleanupFn
                          (whenb (visualChanged x) visualCleanupFn
                             (whenb (timerChanged x) timerCleanup
                                (whenb (clockChanged x) clockCleanup x))))))))).
  apply whenb_pres; [intros y; not_audio|].
  do 3 (apply whenb_pres; [intros y; not_audio|]).
  apply audioCleanupFn_ok.
  apply whenb_pres; [intros y; not_audio|].
  do 2 (apply whenb_pres; [intros y; not_audio|]).
  exact H.
Qed.

Lemma commit_QuietOK x : Struct x -> QuietOK x -> QuietOK (commit x).
Proof.
  intros (_ & _ & _ & Hv & Ha & _) [Q1 Q2]. split.
  - rewrite commit_hVisualDeps. intros Hi.
    destruct (visualChanged x) eqn:Hc.
    + split; [apply commit_clears_visual; assumption|].
      rewrite commit_light, Hc by exact Hi. reflexivity.
    + apply visualChanged_false in Hc. rewrite Hi in Hc.
      destruct (Q1 Hc) as [N L].
      split; [apply commit_NoPending_visual; assumption|].
      rewrite commit_light by exact Hi.
      destruct (visualChanged x); [reflexivity|exact L].
  - rewrite commit_hAudioDeps. intros Hi.
    destruct (audioChanged x) eqn:Hc.
    + apply commit_clears_audio; assumption.
    + apply audioChanged_false in Hc. rewrite Hi in Hc.
      apply commit_NoPending_audio; auto.
Qed.

Lemma handle_QuietOK ev w : QuietOK w -> QuietOK (handle ev w).
Proof.
  intros [Q1 Q2]. unfold QuietOK, hVisualDeps, hAudioDeps.
  rewrite handle_hooks. split.
  - intros Hd. destruct (Q1 Hd) as [N L].
    split; [apply handle_NoPending, N|].
    rewrite handle_light by exact N. exact L.
  - intros Hd. apply handle_NoPending, Q2, Hd.
Qed.

Lemma reachable_QuietOK w : reachable w -> QuietOK w.
Proof.
  intros H.
  apply (reachable_invariant (fun w => Struct w /\ QuietOK w)); [| | |exact H].
  - intros now r a. split; [apply Struct_mount|].
    split; intros _; vm_compute; auto.
  - intros x [S Q]. split; [apply Struct_commit, S|apply commit_QuietOK; assumption].
  - intros x ev _ [S Q] _.
    split; [apply Struct_handle, S|apply handle_QuietOK, Q].
Qed.

(** No callback of a signal channel is pending unless its mode is
    active, and the light shows whenever the visual SOS is off. *)
Theorem sos_quiet_when_inactive (w : World) :
  reachable w ->
  (isSosActive (flashlight w) = false ->
   pending OVisual w = [] /\ isSosLightVisible (flashlight w) = true)
  /\ (isAudioSosActive (flashlight w) = false -> pending OAudio w = []).
Proof.
  intros H. destruct (reachable_QuietOK w H) as [Q1 Q2].
  pose proof (reachable_stable w H) as St.
  apply stable_flags in St as (_ & _ & Fv & Fa & _).
  apply visualChanged_false in Fv. apply audioChanged_false in Fa.
  split.
  - intros Hi. apply Q1. rewrite Fv. exact Hi.
  - intros Hi. apply Q2. rewrite Fa. exact Hi.
Qed.

(** The flashlight was never switched on. *)
Lemma sos_quiet_when_inactive_witness :
  pending OVisual timerRunning = []
  /\ isSosLightVisible (flashlight timerRunning) = true
  /\ pending OAudio timerRunning = [].
Proof.
  destruct (sos_quiet_when_inactive timerRunning) as [H1 H2].
  - apply reachable_run, reachable_run, reach_init.
  - destruct H1 as [H1 H3]; [vm_compute; reflexivity|].
    split; [exact H1|]. split; [exact H3|].
    apply H2. vm_compute. reflexivity.
Defined.

(* ---------- a platform without AudioContext ---------- *)

Lemma audioEffect_noref_adds o snap y :
  audioContextRef (flashlight y) = false -> Adds o y (audioEffect snap y).
Proof.
  intros H. unfold audioEffect. rewrite H. cbn [negb]. rewrite orb_true_r.
  solve_adds.
Qed.

Lemma commit_MuteOK x : MuteOK x -> MuteOK (commit x).
Proof.
  intros M. unfold MuteOK.
  fold (hasAudioContextOf (commit x)). rewrite commit_hasAudioContext.
  intros Hc. destruct (M Hc) as (R & P & T).
  fold (audioContextRefOf (commit x)). rewrite commit_audioContextRef, commit_tones.
  split; [exact R|]. split; [|exact T].
  assert (Q : audioContextRef
                (flashlight
                   (whenb (audioChanged x) (audioEffect x)
                      (whenb (visualChanged x) (visualEffect x)
                      (whenb (timerChanged x) (timerEffect x)
                      (whenb (clockChanged x) (clockEffect x)
                      (whenb (sensorChanged x) sensorCleanup
                      (whenb (audioChanged x) audioCleanupFn
                      (whenb (visualChanged x) visualCleanupFn
                      (whenb (timerChanged x) timerCleanup
                      (whenb (clockChanged x) clockCleanup x))))))))))
              = false
              /\ NoPending OAudio
                   (whenb (audioChanged x) (audioEffect x)
                      (whenb (visualChanged x) (visualEffect x)
                      (whenb (timerChanged x) (timerEffect x)
                      (whenb (clockChanged x) (clockEffect x)
                      (whenb (sensorChanged x) sensorCleanup
                      (whenb (audioChanged x) audioCleanupFn
                      (whenb (visualChanged x) visualCleanupFn
                      (whenb (timerChanged x) timerCleanup
                      (whenb (clockChanged x) clockCleanup x)))))))))).
  { apply (whenb_pres (fun y => audioContextRef (flashlight y) = false
                                /\ NoPending OAudio y)).
    { intros y [Ry Py]. split.
      - rewrite <- Ry. solve_frame.
      - revert Py. apply NoPending_shrink.
        apply (Adds_pending OClock); [|discriminate].
        apply audioEffect_noref_adds, Ry. }
    do 8 (apply (whenb_pres (fun y => audioContextRef (flashlight y) = false
                                      /\ NoPending OAudio y));
          [intros y [Ry Py]; split;
           [rewrite <- Ry; solve_frame
           |revert Py; apply NoPending_shrink; shrinks]|]).
    split; assumption. }
  destruct Q as [_ Q]. unfold commit; cbv zeta.
  apply whenb_pres; [intros y; apply NoPending_shrink; shrinks|]. exact Q.
Qed.

Lemma handle_hasAudioContext ev w :
  hasAudioContext (window (handle ev w)) = hasAudioContext (window w).
Proof.
  destruct ev; cbn [handle].
  all: try (unfold_handlers; solve_frame).
  - back_frame w.
  - unfold fireTimer. destruct (findTimer id w) as [e|]; [|reflexivity].
    assert (R : forall cb, hasAudioContext (window (runCallback cb now w))
                           = hasAudioContext (window w)).
    { intros cb. destruct cb; cbn [runCallback]; unfold_handlers; solve_frame. }
    destruct (repeating e); [apply R|].
    change (hasAudioContext (window (clearTimeout id ?y)))
      with (hasAudioContext (window y)). apply R.
  - unfold deviceorientation. generalize (listeners (window w)).
    intros ls. revert w.
    induction ls as [|l ls IH]; intros w; simpl; [reflexivity|].
    rewrite IH. unfold deliver. destruct (existsb _ _); [|reflexivity].
    destruct l; cbn [runListener]; solve_frame.
Qed.

Lemma handle_audioContextRef ev w :
  hasAudioContext (window w) = false ->
  audioContextRef (flashlight (handle ev w)) = audioContextRef (flashlight w).
Proof.
  intros Hc. destruct ev; cbn [handle].
  all: try (unfold_handlers; rewrite ?Hc, ?andb_false_r; solve_frame).
  - back_frame w.
  - unfold fireTimer. destruct (findTimer id w) as [e|]; [|reflexivity].
    assert (R : forall cb, audioContextRef (flashlight (runCallback cb now w))
                           = audioContextRef (flashlight w)).
    { intros cb. destruct cb; cbn [runCallback]; unfold_handlers; solve_frame. }
    destruct (repeating e); [apply R|].
    change (audioContextRef (flashlight (clearTimeout id ?y)))
      with (audioContextRef (flashlight y)). apply R.
  - clear Hc. unfold deviceorientation. generalize (listeners (window w)).
    intros ls. revert w.
    induction ls as [|l ls IH]; intros w; simpl; [reflexivity|].
    rewrite IH. unfold deliver. destruct (existsb _ _); [|reflexivity].
    destruct l; cbn [runListener]; solve_frame.
Qed.

Lemma handle_tones_quiet ev w :
  NoPending OAudio w -> tones (handle ev w) = tones w.
Proof.
  intros H. destruct ev; cbn [handle].
  all: try (unfold_handlers; solve_frame).
  - apply handleBackClick_tones.
  - rewrite fireTimer_tones.
    destruct (findTimer id w) as [e|] eqn:F; [|apply app_nil_r].
    apply findTimer_In in F as [Hin _].
    destruct (callback e) eqn:Cb; try apply app_nil_r.
    exfalso.
    assert (Ho : owner (callback e) = OAudio) by (rewrite Cb; reflexivity).
    pose proof (pending_owner OAudio w e Hin Ho) as Hp.
    unfold NoPending in H. rewrite H in Hp. exact Hp.
  - apply deviceorientation_tones.
Qed.

Lemma handle_MuteOK ev w : MuteOK w -> MuteOK (handle ev w).
Proof.
  intros M. unfold MuteOK. rewrite handle_hasAudioContext. intros Hc.
  destruct (M Hc) as (R & P & T).
  rewrite handle_audioContextRef by exact Hc.
  rewrite handle_tones_quiet by exact P.
  split; [exact R|]. split; [apply handle_NoPending, P|exact T].
Qed.

(** On a platform without [AudioContext] the audio SOS schedules
    nothing and no tone is ever played. *)
Theorem no_tone_without_AudioContext (w : World) :
  reachable w ->
  hasAudioContext (window w) = false ->
  tones w = [] /\ pending OAudio w = [].
Proof.
  intros H Hc.
  assert (M : MuteOK w).
  { apply (reachable_invariant MuteOK); [| | |exact H].
    - intros now r a Ha. cbn in Ha. subst a. vm_compute. auto.
    - apply commit_MuteOK.
    - intros x ev _ Mx _. apply handle_MuteOK, Mx. }
  destruct (M Hc) as (_ & P & T). auto.
Qed.

(** The audio SOS is started on a platform without [AudioContext],
    and the timer that would start the first tone fires. *)
Lemma no_tone_without_AudioContext_witness :
  isAudioSosActive (flashlight (run silentSos (initialWorld t0729 true false)))
  = true
  /\ tones (run silentSos (initialWorld t0729 true false)) = []
  /\ pending OAudio (run silentSos (initialWorld t0729 true false)) = [].
Proof.
  split; [vm_compute; reflexivity|].
  apply (no_tone_without_AudioContext
           (run silentSos (initialWorld t0729 true false))).
  - apply reachable_run, reach_init.
  - vm_compute. reflexivity.
Defined.
(* ================================================================== *)
(** * Cancellations are confined to their feature *)
(* ================================================================== *)

Lemma Owner_eq_dec (a b : Owner) : {a = b} + {a <> b}.
Proof. decide equality. Qed.

Lemma RefsOK_pres o w w' :
  Adds o w w' -> IdsOK w ->
  (forall o', o' <> o -> refIds o' w' = refIds o' w) ->
  (forall id, In id (refIds o w') ->
     In id (refIds o w) \/ (nextId w <= id < nextId w')%nat) ->
  RefsOK w -> RefsOK w'.
Proof.
  intros [Hn Ha] [_ Hi] Hf Hr [Hb Hs]. split.
  - intros o' id Hin. destruct (Owner_eq_dec o' o) as [->|Hne].
    + destruct (Hr id Hin) as [H|H]; [apply Hb in H; lia|lia].
    + rewrite (Hf o' Hne) in Hin. apply Hb in Hin. lia.
  - intros o' e He Hin. destruct (Ha e He) as [Hold|[Ho Hnew]].
    + destruct (Owner_eq_dec o' o) as [->|Hne].
      * destruct (Hr _ Hin) as [H|H]; [apply (Hs o e Hold H)|].
        apply Hi in Hold. lia.
      * rewrite (Hf o' Hne) in Hin. apply (Hs o' e Hold Hin).
    + destruct (Owner_eq_dec o' o) as [->|Hne]; [exact Ho|].
      rewrite (Hf o' Hne) in Hin. apply Hb in Hin. lia.
Qed.

Lemma Pool_pres o w w' :
  Adds o w w' ->
  (forall o', o' <> o -> refIds o' w' = refIds o' w) ->
  (forall id, In id (refIds o w') ->
     In id (refIds o w) \/ (nextId w <= id < nextId w')%nat) ->
  Pool w -> Pool w'.
Proof.
  intros Ha Hf Hr [Hi Hk]. split; [apply (Adds_IdsOK o w w' Ha Hi)|].
  apply (RefsOK_pres o w w'); assumption.
Qed.

(** Steps that leave every ref as it is. *)
Lemma Pool_same_refs o w w' :
  Adds o w w' -> (forall o', refIds o' w' = refIds o' w) -> Pool w -> Pool w'.
Proof.
  intros Ha Hf. apply (Pool_pres o); [exact Ha|intros o' _; apply Hf|].
  intros id Hin. left. rewrite <- Hf. exact Hin.
Qed.

Ltac break_inner :=
  match goal with
  | |- context [match ?c with _ => _ end] =>
      lazymatch c with
      | context [match _ with _ => _ end] => fail
      | _ => destruct c eqn:?
      end
  end.

Ltac frame_now :=
  intros; unfold_projs; unfold_steps; unfold_handlers; unfold_prims; cbn;
  first [ reflexivity
        | repeat (break_inner; cbn in *); first [reflexivity|congruence] ].

Ltac refs_frame :=
  let o' := fresh "o" in
  intros o'; destruct o'; unfold refIds; try congruence; frame_now.

(* ----- the steps of a commit ----- *)

Lemma refIds_fresh_one o w w' id :
  refIds o w' = [id] -> (nextId w <= id < nextId w')%nat ->
  forall i, In i (refIds o w') ->
    In i (refIds o w) \/ (nextId w <= i < nextId w')%nat.
Proof. intros -> H i [<-|[]]. right. exact H. Qed.

Lemma clockCleanup_Pool w : Pool w -> Pool (clockCleanup w).
Proof. apply (Pool_same_refs OClock); [auto with adds|refs_frame]. Qed.

Lemma timerCleanup_Pool w : Pool w -> Pool (timerCleanup w).
Proof. apply (Pool_same_refs OClock); [auto with adds|refs_frame]. Qed.

Lemma sensorCleanup_Pool w : Pool w -> Pool (sensorCleanup w).
Proof. apply (Pool_same_refs OClock); [auto with adds|refs_frame]. Qed.

Lemma Pool_own_refs o w w' :
  Adds o w w' ->
  (forall o', o' <> o -> refIds o' w' = refIds o' w) ->
  (forall id, In id (refIds o w') ->
     In id (refIds o w) \/ (nextId w <= id < nextId w')%nat) ->
  Pool w -> Pool w'.
Proof. apply Pool_pres. Qed.

Ltac other_refs :=
  let o' := fresh "o" in
  let H := fresh "H" in
  intros o' H; destruct o'; try (exfalso; apply H; reflexivity);
  unfold refIds; frame_now.

Lemma clearVisual_Pool w : Pool w -> Pool (clearVisualSosTimeouts w).
Proof.
  apply (Pool_own_refs OVisual); [auto with adds|other_refs|].
  rewrite clearVisualSosTimeouts_eq. intros id [].
Qed.

Lemma clearAudio_Pool w : Pool w -> Pool (clearAudioSosTimeouts w).
Proof.
  apply (Pool_own_refs OAudio); [auto with adds|other_refs|].
  rewrite clearAudioSosTimeouts_eq. intros id [].
Qed.

Lemma visualCleanupFn_Pool w : Pool w -> Pool (visualCleanupFn w).
Proof.
  unfold visualCleanupFn. destruct (visualCleanup (hooks w));
    [apply clearVisual_Pool|auto].
Qed.

Lemma audioCleanupFn_Pool w : Pool w -> Pool (audioCleanupFn w).
Proof.
  unfold audioCleanupFn. destruct (audioCleanup (hooks w));
    [apply clearAudio_Pool|auto].
Qed.

Lemma map_tid_visualRun b : map tid (visualRun b) = seq b 19.
Proof. reflexivity. Qed.

Lemma map_tid_audioRun b : map tid (audioRun b) = seq b 10.
Proof. reflexivity. Qed.

Lemma nextId_scheduleVisual w :
  nextId (schedulePatternVisual w) = (19 + nextId w)%nat.
Proof.
  unfold schedulePatternVisual. rewrite schedulePatternVisualOn_eq. reflexivity.
Qed.

Lemma nextId_scheduleAudio w :
  nextId (schedulePatternAudio w) = (10 + nextId w)%nat.
Proof.
  unfold schedulePatternAudio. rewrite schedulePatternAudioOn_eq. reflexivity.
Qed.

Lemma refIds_scheduleVisual w :
  refIds OVisual (schedulePatternVisual w) = seq (nextId w) 19.
Proof.
  unfold schedulePatternVisual. rewrite schedulePatternVisualOn_eq. reflexivity.
Qed.

Lemma refIds_scheduleAudio w :
  refIds OAudio (schedulePatternAudio w) = seq (nextId w) 10.
Proof.
  unfold schedulePatternAudio. rewrite schedulePatternAudioOn_eq. reflexivity.
Qed.

Lemma scheduleVisual_Pool w : Pool w -> Pool (schedulePatternVisual w).
Proof.
  apply (Pool_own_refs OVisual); [auto with adds|other_refs|].
  intros id Hin. right. rewrite nextId_scheduleVisual.
  rewrite refIds_scheduleVisual in Hin. apply in_seq in Hin. lia.
Qed.

Lemma scheduleAudio_Pool w : Pool w -> Pool (schedulePatternAudio w).
Proof.
  apply (Pool_own_refs OAudio); [auto with adds|other_refs|].
  intros id Hin. right. rewrite nextId_scheduleAudio.
  rewrite refIds_scheduleAudio in Hin. apply in_seq in Hin. lia.
Qed.

Lemma clockEffect_Pool snap w : Pool w -> Pool (clockEffect snap w).
Proof.
  apply (Pool_own_refs OClock); [auto with adds|other_refs|].
  intros id [<-|[]]. right. unfold nextId. cbn. lia.
Qed.

Lemma timerEffect_Pool snap w : Pool w -> Pool (timerEffect snap w).
Proof.
  apply (Pool_own_refs OTimer); [auto with adds|other_refs|].
  intros id. unfold timerEffect, refIds, nextId.
  destruct (isTimerActive (timer snap)); [|intros []].
  destruct (timerMode (timer snap));
    [|destruct (0 <? timerSeconds (timer snap)); [|intros []]];
    cbn; intros [<-|[]]; right; lia.
Qed.

Lemma visualEffect_Pool snap w : Pool w -> Pool (visualEffect snap w).
Proof.
  intros H. unfold visualEffect.
  destruct (negb (isSosActive (flashlight snap))).
  - apply (clearVisual_Pool w) in H. revert H.
    generalize (clearVisualSosTimeouts w). intros y.
    apply (Pool_same_refs OClock); [split; [unfold nextId; cbn; lia|auto]|].
    intros o; destruct o; reflexivity.
  - apply (scheduleVisual_Pool w) in H. revert H.
    generalize (schedulePatternVisual w). intros y.
    apply (Pool_same_refs OClock); [split; [unfold nextId; cbn; lia|auto]|].
    intros o; destruct o; reflexivity.
Qed.

Lemma audioEffect_Pool snap w : Pool w -> Pool (audioEffect snap w).
Proof.
  intros H. unfold audioEffect.
  destruct (negb (isAudioSosActive (flashlight snap))
            || negb (audioContextRef (flashlight w))).
  - apply (clearAudio_Pool w) in H. revert H.
    generalize (clearAudioSosTimeouts w). intros y.
    apply (Pool_same_refs OClock); [split; [unfold nextId; cbn; lia|auto]|].
    intros o; destruct o; reflexivity.
  - apply (scheduleAudio_Pool w) in H. revert H.
    generalize (schedulePatternAudio w). intros y.
    apply (Pool_same_refs OClock); [split; [unfold nextId; cbn; lia|auto]|].
    intros o; destruct o; reflexivity.
Qed.

Lemma sensorEffect_Pool snap w : Pool w -> Pool (sensorEffect snap w).
Proof.
  apply (Pool_own_refs OSensor); [auto with adds|other_refs|].
  intros id. unfold sensorEffect, sensorCheck, sensorListen, refIds, nextId.
  unfold_prims. unfold setTimeout, addTimer. cbn.
  repeat (break_inner; cbn in * ); intros Hin;
    try (destruct Hin as [<-|[]]; right; lia);
    try (left; exact Hin); try destruct Hin.
Qed.

Lemma commit_Pool x : Pool x -> Pool (commit x).
Proof.
  intros H. unfold commit; cbv zeta.
  apply whenb_pres; [apply sensorEffect_Pool|].
  apply whenb_pres; [apply audioEffect_Pool|].
  apply whenb_pres; [apply visualEffect_Pool|].
  apply whenb_pres; [apply timerEffect_Pool|].
  apply whenb_pres; [apply clockEffect_Pool|].
  apply whenb_pres; [apply sensorCleanup_Pool|].
  apply whenb_pres; [apply audioCleanupFn_Pool|].
  apply whenb_pres; [apply visualCleanupFn_Pool|].
  apply whenb_pres; [apply timerCleanup_Pool|].
  apply whenb_pres; [apply clockCleanup_Pool|].
  exact H.
Qed.

(* ----- handlers ----- *)

Lemma clearTimeout_Pool id w : Pool w -> Pool (clearTimeout id w).
Proof.
  apply (Pool_same_refs OClock); [apply clearTimeout_adds|].
  intros o; destruct o; reflexivity.
Qed.

Lemma runCallback_Pool cb now w : Pool w -> Pool (runCallback cb now w).
Proof.
  destruct cb as [a r|d|b| |d| |r]; cbn [runCallback];
    [ | | |apply scheduleVisual_Pool| |apply scheduleAudio_Pool| ];
    (apply (Pool_same_refs OClock); [unfold_handlers; solve_adds|refs_frame]).
Qed.

Lemma fireTimer_Pool id now w : Pool w -> Pool (fireTimer id now w).
Proof.
  intros H. unfold fireTimer. destruct (findTimer id w) as [e|]; [|exact H].
  destruct (repeating e); [|apply clearTimeout_Pool];
    apply runCallback_Pool, H.
Qed.

Lemma clearSensorCheck_Pool w : Pool w -> Pool (clearSensorCheck w).
Proof.
  apply (Pool_own_refs OSensor); [apply clearSensorCheck_adds|other_refs|].
  intros id. unfold clearSensorCheck, refIds.
  destruct (sensorCheckTimeoutRef (sensor w)) as [i|] eqn:E; [|rewrite E; auto].
  destruct (truthy (Some i)); cbn; [intros []|rewrite E; auto].
Qed.

Lemma runListener_Pool l e w : Pool w -> Pool (runListener l e w).
Proof.
  destruct l as [r|r]; cbn [runListener].
  - intros H. apply clearSensorCheck_Pool in H. revert H.
    generalize (clearSensorCheck w). intros y.
    apply (Pool_same_refs OClock).
    + destruct (notNull (ev_beta e) || notNull (ev_gamma e) || notNull (ev_alpha e));
        split; [unfold nextId; cbn; lia|auto|unfold nextId; cbn; lia|auto].
    + intros o.
      destruct (notNull (ev_beta e) || notNull (ev_gamma e) || notNull (ev_alpha e));
        destruct o; reflexivity.
  - apply (Pool_same_refs OClock); [solve_adds|intros o; destruct o; reflexivity].
Qed.

Lemma deviceorientation_Pool e w : Pool w -> Pool (deviceorientation e w).
Proof.
  unfold deviceorientation. generalize (listeners (window w)).
  intros ls. revert w. induction ls as [|l ls IH]; intros w H; simpl; [exact H|].
  apply IH. unfold deliver.
  destruct (existsb _ _); [apply runListener_Pool|]; exact H.
Qed.

Lemma handleBackClick_Pool w : Pool w -> Pool (handleBackClick w).
Proof.
  intros H. unfold handleBackClick.
  destruct (appState (nav w)); [exact H| |].
  { revert H. apply (Pool_same_refs OClock);
      [solve_adds|intros o; destruct o; reflexivity]. }
  destruct (activeHologram (nav w)) eqn:Hh;
    cbn [ActiveHologram_beq isSensorHologram andb];
    try (revert H; apply (Pool_same_refs OClock);
         [split; [unfold nextId; cbn; repeat (break_inner; cbn); lia
                 |intros e He; left; revert He; cbn;
                  repeat (break_inner; cbn); auto]
         |intros o; destruct o; unfold refIds; cbn;
          repeat (break_inner; cbn); reflexivity]).
  assert (H1 : Pool
    (clearAudioSosTimeouts
       (clearVisualSosTimeouts
          (on_flashlight (setIsAudioSosActive false)
             (on_flashlight (setIsSosActive false)
                (on_flashlight (setIsFlashlightOn false) w)))))).
  { apply clearAudio_Pool, clearVisual_Pool. revert H.
    apply (Pool_same_refs OClock);
      [split; [unfold nextId; cbn; lia|auto]
      |intros o; destruct o; reflexivity]. }
  revert H1.
  generalize (clearAudioSosTimeouts
       (clearVisualSosTimeouts
          (on_flashlight (setIsAudioSosActive false)
             (on_flashlight (setIsSosActive false)
                (on_flashlight (setIsFlashlightOn false) w))))).
  intros y.
  apply (Pool_same_refs OClock);
    [split; [unfold nextId; cbn; lia|auto]|intros o; destruct o; reflexivity].
Qed.

Lemma handle_Pool ev w : Pool w -> Pool (handle ev w).
Proof.
  destruct ev; cbn [handle];
    first [ apply handleBackClick_Pool | apply fireTimer_Pool
          | apply deviceorientation_Pool
          | apply (Pool_same_refs OClock);
            [unfold_handlers; solve_adds|refs_frame] ].
Qed.

Lemma mount_Pool now r a : Pool (mount (unmounted now r a)).
Proof.
  unfold mount.
  apply sensorEffect_Pool, audioEffect_Pool, visualEffect_Pool,
    timerEffect_Pool, clockEffect_Pool.
  split; [split; [cbn; lia|intros e []]|]. split.
  - intros o id. destruct o; cbn; intros Hin;
      repeat (destruct Hin as [<-|Hin]; [unfold nextId; cbn; lia|]);
      destruct Hin.
  - intros o e [].
Qed.

Lemma reachable_Pool w : reachable w -> Pool w.
Proof.
  apply reachable_invariant.
  - apply mount_Pool.
  - apply commit_Pool.
  - intros x ev _ H _. apply handle_Pool, H.
Qed.
(* ================================================================== *)
(** * What a step keeps *)
(* ================================================================== *)

Lemma Keeps_filter o w w' (p : TimerEntry -> bool) new :
  timers (window w') = filter p (timers (window w)) ++ new ->
  (forall e, In e (timers (window w)) -> p e = false ->
             owner (callback e) = o) ->
  Keeps o w w'.
Proof.
  intros Ht Hp e He Ho. rewrite Ht. apply in_or_app. left.
  apply filter_In. split; [exact He|].
  destruct (p e) eqn:E; [reflexivity|]. destruct (Ho (Hp e He E)).
Qed.

Lemma Keeps_all o w w' :
  (forall e, In e (timers (window w)) -> In e (timers (window w'))) ->
  Keeps o w w'.
Proof. intros H e He _. apply H, He. Qed.

Lemma Keeps_trans o a b c : Keeps o a b -> Keeps o b c -> Keeps o a c.
Proof. intros H1 H2 e He Ho. apply H2; [apply H1|]; assumption. Qed.

Lemma Keeps_refl o w : Keeps o w w.
Proof. intros e He _. exact He. Qed.

Lemma Keeps_on_flashlight o f w y :
  Keeps o w y -> Keeps o w (on_flashlight f y).
Proof. intros H. exact H. Qed.

Lemma Keeps_on_hooks o f w y : Keeps o w y -> Keeps o w (on_hooks f y).
Proof. intros H. exact H. Qed.

Lemma clearTimeout_keeps o id w :
  RefsOK w -> In id (refIds o w) -> Keeps o w (clearTimeout id w).
Proof.
  intros [_ Hs] Hin.
  apply (Keeps_filter o w _ (fun e => negb (Nat.eqb (tid e) id)) []).
  - unfold clearTimeout; cbn. rewrite app_nil_r. reflexivity.
  - intros e He Hp. apply negb_false_iff, Nat.eqb_eq in Hp. subst id.
    apply (Hs o e He Hin).
Qed.

Lemma dropTimers_keeps o ids w :
  RefsOK w -> incl ids (refIds o w) -> Keeps o w (dropTimers ids w).
Proof.
  intros [_ Hs] Hin.
  apply (Keeps_filter o w _ (notIn ids) []).
  - unfold dropTimers; cbn. rewrite app_nil_r. reflexivity.
  - intros e He Hp. apply notIn_false_iff in Hp. apply (Hs o e He), Hin, Hp.
Qed.

Lemma clockCleanup_keeps w : RefsOK w -> Keeps OClock w (clockCleanup w).
Proof.
  intros H. apply clearTimeout_keeps; [exact H|left; reflexivity].
Qed.

Lemma timerCleanup_keeps w : RefsOK w -> Keeps OTimer w (timerCleanup w).
Proof.
  intros H. unfold timerCleanup.
  destruct (timerInterval (hooks w)) as [id|] eqn:E; [|apply Keeps_refl].
  apply clearTimeout_keeps; [exact H|]. unfold refIds. rewrite E. left. reflexivity.
Qed.

Lemma sensorCleanup_keeps w : RefsOK w -> Keeps OSensor w (sensorCleanup w).
Proof.
  intros H. unfold sensorCleanup.
  set (w1 := removeEventListener _ w).
  assert (H1 : RefsOK w1) by exact H.
  change (Keeps OSensor w1
            match sensorCheckTimeoutRef (sensor w1) with
            | Some id => if truthy (Some id) then clearTimeout id w1 else w1
            | None => w1
            end).
  destruct (sensorCheckTimeoutRef (sensor w1)) as [id|] eqn:E; [|apply Keeps_refl].
  destruct (truthy (Some id)); [|apply Keeps_refl].
  apply clearTimeout_keeps; [exact H1|]. unfold refIds. rewrite E. left. reflexivity.
Qed.

Lemma clearVisual_keeps w : RefsOK w -> Keeps OVisual w (clearVisualSosTimeouts w).
Proof.
  intros H. rewrite clearVisualSosTimeouts_eq. apply Keeps_on_flashlight.
  apply (dropTimers_keeps OVisual (sosTimeoutRef (flashlight w)) w H).
  apply incl_refl.
Qed.

Lemma clearAudio_keeps w : RefsOK w -> Keeps OAudio w (clearAudioSosTimeouts w).
Proof.
  intros H. rewrite clearAudioSosTimeouts_eq. apply Keeps_on_flashlight.
  apply (dropTimers_keeps OAudio (sosAudioTimeoutRef (flashlight w)) w H).
  apply incl_refl.
Qed.

Lemma pushTimers_keeps o new w : Keeps o w (pushTimers new w).
Proof.
  apply Keeps_all. intros e He. unfold pushTimers; cbn.
  apply in_or_app. left. exact He.
Qed.

Lemma scheduleVisual_keeps w : RefsOK w -> Keeps OVisual w (schedulePatternVisual w).
Proof.
  intros H. unfold schedulePatternVisual. rewrite schedulePatternVisualOn_eq.
  apply Keeps_on_flashlight.
  eapply Keeps_trans; [|apply pushTimers_keeps].
  apply (dropTimers_keeps OVisual (sosTimeoutRef (flashlight w)) w H), incl_refl.
Qed.

Lemma scheduleAudio_keeps w : RefsOK w -> Keeps OAudio w (schedulePatternAudio w).
Proof.
  intros H. unfold schedulePatternAudio. rewrite schedulePatternAudioOn_eq.
  apply Keeps_on_flashlight.
  eapply Keeps_trans; [|apply pushTimers_keeps].
  apply (dropTimers_keeps OAudio (sosAudioTimeoutRef (flashlight w)) w H), incl_refl.
Qed.

Lemma visualCleanupFn_keeps w : RefsOK w -> Keeps OVisual w (visualCleanupFn w).
Proof.
  intros H. unfold visualCleanupFn.
  destruct (visualCleanup (hooks w)); [apply clearVisual_keeps, H|apply Keeps_refl].
Qed.

Lemma audioCleanupFn_keeps w : RefsOK w -> Keeps OAudio w (audioCleanupFn w).
Proof.
  intros H. unfold audioCleanupFn.
  destruct (audioCleanup (hooks w)); [apply clearAudio_keeps, H|apply Keeps_refl].
Qed.

Lemma visualEffect_keeps snap w : RefsOK w -> Keeps OVisual w (visualEffect snap w).
Proof.
  intros H. unfold visualEffect.
  destruct (negb (isSosActive (flashlight snap))); apply Keeps_on_hooks.
  - apply Keeps_on_flashlight, clearVisual_keeps, H.
  - apply scheduleVisual_keeps, H.
Qed.

Lemma audioEffect_keeps snap w : RefsOK w -> Keeps OAudio w (audioEffect snap w).
Proof.
  intros H. unfold audioEffect.
  destruct (negb (isAudioSosActive (flashlight snap))
            || negb (audioContextRef (flashlight w))); apply Keeps_on_hooks.
  - apply clearAudio_keeps, H.
  - apply scheduleAudio_keeps, H.
Qed.

Ltac stays :=
  apply Keeps_all; intros e He; unfold_steps; unfold_prims; cbn;
  repeat (break_inner; cbn); rewrite ?in_app_iff; auto.

Lemma clockEffect_keeps o snap w : Keeps o w (clockEffect snap w).
Proof. stays. Qed.

Lemma timerEffect_keeps o snap w : Keeps o w (timerEffect snap w).
Proof. stays. Qed.

Lemma sensorEffect_keeps o snap w : Keeps o w (sensorEffect snap w).
Proof. stays. Qed.
(* ================================================================== *)
(** * The timers that must be there *)
(* ================================================================== *)

(** The timers of owner [o] are the same after a step of another
    owner. *)
Lemma same_pending o o' w w' :
  Adds o' w w' -> Keeps o' w w' -> o <> o' ->
  forall e, In e (pending o w') <-> In e (pending o w).
Proof.
  intros Ha Hk Hne e. split.
  - apply (Adds_pending o' o w w' Ha). auto.
  - intros He. unfold pending in *. apply filter_In in He as [Hin Ho].
    apply filter_In. split; [|exact Ho]. apply Hk; [exact Hin|].
    unfold ownedBy in Ho. apply Owner_eqb_eq in Ho. congruence.
Qed.

(** Every active timer is named by its owner. *)
Lemma Struct_owned w e :
  Struct w -> In e (timers (window w)) -> In (tid e) (refIds (owner (callback e)) w).
Proof.
  intros (_ & Hc & Ht & Hv & Ha & Hs) He.
  assert (Hp : In e (pending (owner (callback e)) w))
    by (apply pending_owner; [exact He|reflexivity]).
  destruct (owner (callback e)) eqn:Ho; unfold refIds.
  - destruct (Hc e Hp) as [_ ->]. left. reflexivity.
  - rewrite (Ht e Hp). left. reflexivity.
  - apply notIn_false_iff, (VisualOK_owned w Hv e Hp).
  - apply notIn_false_iff, (AudioOK_owned w Ha e Hp).
  - pose proof (Hs e Hp) as E. unfold sensorRefOf in E. rewrite E.
    left. reflexivity.
Qed.

(** Two active timers with one id belong to one owner. *)
Lemma same_id_same_owner w e e' :
  Pool w -> Struct w -> In e (timers (window w)) -> In e' (timers (window w)) ->
  tid e = tid e' -> owner (callback e) = owner (callback e').
Proof.
  intros [_ [_ Hs]] St He He' Ht.
  apply (Hs (owner (callback e')) e He). rewrite Ht.
  apply Struct_owned; assumption.
Qed.

Lemma runCallback_keeps cb now w :
  RefsOK w -> Keeps (owner cb) w (runCallback cb now w).
Proof.
  intros H.
  destruct cb as [a r|d|b| |d| |r]; cbn [runCallback owner];
    [ | | |apply scheduleVisual_keeps, H| |apply scheduleAudio_keeps, H| ];
    apply Keeps_all; intros e He; unfold_handlers; unfold_prims; cbn;
    repeat (break_inner; cbn); exact He.
Qed.

(** What the firing of a timer can remove: the old run of its own
    channel, when it restarts the run, and the timers of its id, when
    it is a timeout. *)
Lemma fireTimer_survives id now w e0 e :
  Pool w -> Struct w -> findTimer id w = Some e0 ->
  In e (timers (window w)) ->
  owner (callback e) <> owner (callback e0) ->
  In e (timers (window (fireTimer id now w))).
Proof.
  intros Hp Hs Hf He Ho. unfold fireTimer. rewrite Hf.
  pose proof (findTimer_In id w e0 Hf) as [He0 Hid].
  assert (H1 : In e (timers (window (runCallback (callback e0) now w)))).
  { apply (runCallback_keeps (callback e0) now w); [apply Hp|exact He|exact Ho]. }
  destruct (repeating e0); [exact H1|].
  unfold clearTimeout; cbn. apply filter_In. split; [exact H1|].
  apply negb_true_iff, Nat.eqb_neq. intros Ht. apply Ho.
  apply (same_id_same_owner w e e0 Hp Hs He He0). congruence.
Qed.

Lemma fireTimer_same_pending o id now w e0 :
  Pool w -> Struct w -> findTimer id w = Some e0 ->
  o <> owner (callback e0) ->
  forall e, In e (pending o (fireTimer id now w)) <-> In e (pending o w).
Proof.
  intros Hp Hs Hf Ho e.
  pose proof (fireTimer_adds id now w) as Ha. rewrite Hf in Ha. split.
  - apply (Adds_pending _ o w _ Ha). auto.
  - intros He. unfold pending in *. apply filter_In in He as [Hin Hk].
    apply filter_In. split; [|exact Hk].
    apply (fireTimer_survives id now w e0 e Hp Hs Hf Hin).
    unfold ownedBy in Hk. apply Owner_eqb_eq in Hk. congruence.
Qed.

(* ---------- the clock interval ---------- *)

Lemma ClockLive_foreign o' y y' :
  o' <> OClock -> Adds o' y y' -> Keeps o' y y' -> hClock y' = hClock y ->
  ClockLive y -> ClockLive y'.
Proof.
  intros Hne Ha Hk Hh [L1 L2].
  assert (E : clockEntryOf y' = clockEntryOf y).
  { unfold hClock in Hh. injection Hh as Hd Hi. unfold clockEntryOf.
    rewrite Hd, Hi. reflexivity. }
  unfold ClockLive. rewrite E. split.
  - apply Hk; [exact L1|]. cbn. auto.
  - intros e He. apply L2. apply (Adds_pending o' OClock y y' Ha); auto.
Qed.

Lemma clockEffect_ClockLive snap y :
  NoPending OClock y -> ClockLive (clockEffect snap y).
Proof.
  intros H. unfold ClockLive, clockEntryOf, clockEffect, setInterval, addTimer.
  cbn. split; [apply in_or_app; right; left; reflexivity|].
  intros e He. unfold pending in He. cbn in He. rewrite filter_app in He.
  unfold NoPending, pending in H. rewrite H in He. cbn in He.
  destruct He as [<-|[]]. reflexivity.
Qed.

Lemma ClockLive_ClockOK w : ClockLive w -> ClockOK w.
Proof. intros [_ L] e He. rewrite (L e He). split; reflexivity. Qed.

Ltac foreign_clock o' pool keeps :=
  let y := fresh "y" in
  let P := fresh "P" in
  let L := fresh "L" in
  intros y [P L]; split;
  [ apply pool, P
  | apply (ClockLive_foreign o' y);
    [ discriminate | auto with adds | apply keeps; apply P | solve_frame
    | exact L ] ].

Ltac quiet_clock pool :=
  let y := fresh "y" in
  let P := fresh "P" in
  let L := fresh "L" in
  intros y [P L]; split;
  [ apply pool, P | revert L; apply NoPending_shrink; shrinks ].

Lemma commit_ClockLive x :
  Pool x -> ClockLive x -> Pool (commit x) /\ ClockLive (commit x).
Proof.
  intros P L. unfold commit; cbv zeta.
  apply (whenb_pres (fun y => Pool y /\ ClockLive y));
    [foreign_clock OSensor sensorEffect_Pool sensorEffect_keeps|].
  apply (whenb_pres (fun y => Pool y /\ ClockLive y));
    [foreign_clock OAudio audioEffect_Pool audioEffect_keeps|].
  apply (whenb_pres (fun y => Pool y /\ ClockLive y));
    [foreign_clock OVisual visualEffect_Pool visualEffect_keeps|].
  apply (whenb_pres (fun y => Pool y /\ ClockLive y));
    [foreign_clock OTimer timerEffect_Pool timerEffect_keeps|].
  destruct (clockChanged x); rewrite ?whenb_true, ?whenb_false.
  - assert (Q : Pool (whenb (sensorChanged x) sensorCleanup
                   (whenb (audioChanged x) audioCleanupFn
                   (whenb (visualChanged x) visualCleanupFn
                   (whenb (timerChanged x) timerCleanup (clockCleanup x)))))
               /\ NoPending OClock
                    (whenb (sensorChanged x) sensorCleanup
                    (whenb (audioChanged x) audioCleanupFn
                    (whenb (visualChanged x) visualCleanupFn
                    (whenb (timerChanged x) timerCleanup (clockCleanup x)))))).
    { apply (whenb_pres (fun y => Pool y /\ NoPending OClock y));
        [quiet_clock sensorCleanup_Pool|].
      apply (whenb_pres (fun y => Pool y /\ NoPending OClock y));
        [quiet_clock audioCleanupFn_Pool|].
      apply (whenb_pres (fun y => Pool y /\ NoPending OClock y));
        [quiet_clock visualCleanupFn_Pool|].
      apply (whenb_pres (fun y => Pool y /\ NoPending OClock y));
        [quiet_clock timerCleanup_Pool|].
      split; [apply clockCleanup_Pool, P|].
      apply clockCleanup_clears, ClockLive_ClockOK, L. }
    destruct Q as [Q1 Q2].
    split; [apply clockEffect_Pool, Q1|apply clockEffect_ClockLive, Q2].
  - apply (whenb_pres (fun y => Pool y /\ ClockLive y));
      [foreign_clock OSensor sensorCleanup_Pool sensorCleanup_keeps|].
    apply (whenb_pres (fun y => Pool y /\ ClockLive y));
      [foreign_clock OAudio audioCleanupFn_Pool audioCleanupFn_keeps|].
    apply (whenb_pres (fun y => Pool y /\ ClockLive y));
      [foreign_clock OVisual visualCleanupFn_Pool visualCleanupFn_keeps|].
    apply (whenb_pres (fun y => Pool y /\ ClockLive y));
      [foreign_clock OTimer timerCleanup_Pool timerCleanup_keeps|].
    auto.
Qed.

(* ----- handlers ----- *)

Lemma runCallback_adds_any o cb now w :
  cb <> CbVisualLoop -> cb <> CbAudioLoop -> Adds o w (runCallback cb now w).
Proof.
  intros H1 H2.
  destruct cb as [a r|d|b| |d| |r]; cbn [runCallback];
    [ | | |destruct H1; reflexivity| |destruct H2; reflexivity| ];
    unfold_handlers; solve_adds.
Qed.

Lemma fireTimer_shrink o id now w :
  o <> OVisual -> o <> OAudio ->
  incl (pending o (fireTimer id now w)) (pending o w).
Proof.
  intros H1 H2. unfold fireTimer.
  destruct (findTimer id w) as [e0|]; [|apply incl_refl].
  assert (Hr : incl (pending o (runCallback (callback e0) now w)) (pending o w)).
  { destruct (callback e0) as [a r|d|b| |d| |r] eqn:Cb;
      try (apply Adds_all_pending; intros o';
           apply runCallback_adds_any; discriminate).
    - apply (Adds_pending OVisual); [apply (runCallback_adds CbVisualLoop)|auto].
    - apply (Adds_pending OAudio); [apply (runCallback_adds CbAudioLoop)|auto]. }
  destruct (repeating e0); [exact Hr|].
  eapply incl_tran; [|exact Hr].
  apply Adds_all_pending. intros o'. apply clearTimeout_adds.
Qed.

(** The timers of the clock, of the timer and of the detection are
    not multiplied by any handler. *)
Lemma handle_shrink o ev w :
  o <> OVisual -> o <> OAudio ->
  incl (pending o (handle ev w)) (pending o w).
Proof.
  intros H1 H2. destruct ev; cbn [handle];
    try (apply fireTimer_shrink; assumption);
    apply Adds_all_pending; intros o';
    first [ apply handleBackClick_adds | apply deviceorientation_adds
          | unfold_handlers; solve_adds ].
Qed.

Lemma deliver_keeps e ls : forall w0 w,
  Pool w -> Keeps OSensor w0 w -> Keeps OSensor w0 (fold_left (deliver e) ls w).
Proof.
  induction ls as [|l ls IH]; intros w0 w P H; cbn [fold_left]; [exact H|].
  assert (K : Keeps OSensor w (deliver e w l) /\ Pool (deliver e w l)).
  { unfold deliver. destruct (existsb _ _); [|split; [apply Keeps_refl|exact P]].
    split; [|apply runListener_Pool, P].
    destruct l as [r|r]; cbn [runListener].
    - assert (K1 : Keeps OSensor w (clearSensorCheck w)).
      { unfold clearSensorCheck.
        destruct (sensorCheckTimeoutRef (sensor w)) as [id|] eqn:E;
          [|apply Keeps_refl].
        destruct (truthy (Some id)); [|apply Keeps_refl].
        assert (K0 : Keeps OSensor w (clearTimeout id w)).
        { apply clearTimeout_keeps; [apply P|].
          unfold refIds. rewrite E. left. reflexivity. }
        exact K0. }
      revert K1. generalize (clearSensorCheck w). intros y K1.
      destruct (notNull (ev_beta e) || notNull (ev_gamma e) || notNull (ev_alpha e));
        exact K1.
    - intros x Hx _. exact Hx. }
  destruct K as [K1 K2].
  apply IH; [exact K2|]. eapply Keeps_trans; eassumption.
Qed.

Lemma deviceorientation_keeps e w :
  Pool w -> Keeps OSensor w (deviceorientation e w).
Proof. intros P. apply deliver_keeps; [exact P|apply Keeps_refl]. Qed.

Lemma handleBackClick_keeps w e :
  Pool w -> In e (timers (window w)) ->
  owner (callback e) <> OVisual -> owner (callback e) <> OAudio ->
  In e (timers (window (handleBackClick w))).
Proof.
  intros P He H1 H2. unfold handleBackClick.
  destruct (appState (nav w)); [exact He|exact He|].
  destruct (activeHologram (nav w));
    cbn [ActiveHologram_beq isSensorHologram andb];
    try (repeat (break_inner; cbn); exact He).
  set (w1 := on_flashlight (setIsAudioSosActive false)
               (on_flashlight (setIsSosActive false)
                  (on_flashlight (setIsFlashlightOn false) w))).
  assert (P1 : Pool w1).
  { revert P. apply (Pool_same_refs OClock);
      [split; [unfold nextId; cbn; lia|auto]|intros o; destruct o; reflexivity]. }
  assert (K1 : In e (timers (window (clearVisualSosTimeouts w1)))).
  { apply (clearVisual_keeps w1); [apply P1|exact He|exact H1]. }
  assert (K2 : In e (timers (window (clearAudioSosTimeouts
                                       (clearVisualSosTimeouts w1))))).
  { apply clearAudio_keeps; [apply clearVisual_Pool, P1|exact K1|exact H2]. }
  exact K2.
Qed.

(** A timer survives a handler, unless it is of the channel the back
    command cancels, of the detection an orientation event ends, or of
    the owner of the timer that fires. *)
Lemma handle_keeps ev w e :
  Pool w -> Struct w -> In e (timers (window w)) ->
  match ev with
  | TimerFire id _ =>
      match findTimer id w with
      | Some e0 => owner (callback e) <> owner (callback e0)
      | None => True
      end
  | BackClick =>
      owner (callback e) <> OVisual /\ owner (callback e) <> OAudio
  | DeviceOrientation _ => owner (callback e) <> OSensor
  | _ => True
  end ->
  In e (timers (window (handle ev w))).
Proof.
  intros P S He H. destruct ev; cbn [handle];
    try (unfold_handlers; cbn; repeat (break_inner; cbn); exact He).
  - apply handleBackClick_keeps; tauto.
  - destruct (findTimer id w) as [e0|] eqn:F.
    + apply (fireTimer_survives id now w e0 e P S F He H).
    + unfold fireTimer. rewrite F. exact He.
  - apply deviceorientation_keeps; assumption.
Qed.

Lemma fireTimer_interval id now w e0 :
  findTimer id w = Some e0 -> repeating e0 = true ->
  callback e0 <> CbVisualLoop -> callback e0 <> CbAudioLoop ->
  timers (window (fireTimer id now w)) = timers (window w).
Proof.
  intros F R H1 H2. unfold fireTimer. rewrite F, R.
  destruct (callback e0) as [a r|d|b| |d| |r];
    [ | | |destruct H1; reflexivity| |destruct H2; reflexivity| ];
    cbn [runCallback]; unfold_handlers; unfold_prims; cbn;
    repeat (break_inner; cbn); reflexivity.
Qed.

Lemma handle_ClockLive ev w :
  Pool w -> Struct w -> ClockLive w -> ClockLive (handle ev w).
Proof.
  intros P S [L1 L2].
  assert (E : clockEntryOf (handle ev w) = clockEntryOf w).
  { unfold clockEntryOf. rewrite handle_hooks. reflexivity. }
  unfold ClockLive. rewrite E. split.
  - destruct ev;
      try solve [apply handle_keeps; try assumption; cbn; auto;
                 try (split; discriminate); try discriminate].
    cbn [handle].
    destruct (findTimer id w) as [e0|] eqn:F;
      [|unfold fireTimer; rewrite F; exact L1].
    destruct (Owner_eq_dec (owner (callback e0)) OClock) as [Ho|Ho].
    + pose proof (findTimer_In id w e0 F) as [He0 _].
      pose proof (L2 e0 (pending_owner OClock w e0 He0 Ho)) as E0.
      rewrite (fireTimer_interval id now w e0 F);
        [exact L1|rewrite E0; reflexivity|rewrite E0; discriminate
        |rewrite E0; discriminate].
    + apply (fireTimer_survives id now w e0 _ P S F L1). cbn. congruence.
  - intros e He. apply L2. revert He.
    apply handle_shrink; discriminate.
Qed.

Lemma mount_ClockLive now r a : ClockLive (mount (unmounted now r a)).
Proof. vm_compute. split; [auto|]. intros e [<-|[]]. reflexivity. Qed.

Lemma reachable_ClockLive w : reachable w -> ClockLive w.
Proof.
  intros H.
  apply (reachable_invariant
           (fun w => Pool w /\ Struct w /\ ClockLive w)); [| | |exact H].
  - intros now r a. split; [apply mount_Pool|].
    split; [apply Struct_mount|apply mount_ClockLive].
  - intros x (P & S & L). destruct (commit_ClockLive x P L) as [P' L'].
    split; [exact P'|]. split; [apply Struct_commit, S|exact L'].
  - intros x ev _ (P & S & L) _. split; [apply handle_Pool, P|].
    split; [apply Struct_handle, S|apply handle_ClockLive; assumption].
Qed.
(* ================================================================== *)
(** * Clock and alarm: the tick is always due *)
(* ================================================================== *)

Lemma findTimer_ex id w e :
  In e (timers (window w)) -> tid e = id ->
  exists e', findTimer id w = Some e' /\ In e' (timers (window w)) /\ tid e' = id.
Proof.
  intros He Ht. unfold findTimer.
  destruct (find (fun x => Nat.eqb (tid x) id) (timers (window w))) as [e'|] eqn:F.
  - exists e'. apply find_some in F as [F1 F2]. apply Nat.eqb_eq in F2. auto.
  - exfalso. apply (find_none _ _ F) in He. apply Nat.eqb_neq in He. auto.
Qed.

Lemma find_clock w :
  reachable w -> findTimer (clockInterval (hooks w)) w = Some (clockEntryOf w).
Proof.
  intros H. destruct (reachable_ClockLive w H) as [L1 L2].
  destruct (findTimer_ex (clockInterval (hooks w)) w (clockEntryOf w) L1 eq_refl)
    as (e' & F & He' & Ht).
  rewrite F. f_equal. apply L2. apply pending_owner; [exact He'|].
  destruct (reachable_Pool w H) as [_ [_ Hs]].
  apply (Hs OClock e' He'). rewrite Ht. left. reflexivity.
Qed.

Lemma clockEntryOf_current w :
  reachable w ->
  clockEntryOf w
  = {| tid := clockInterval (hooks w); delay := 1000; repeating := true;
       callback := CbClock (alarmTime (alarm w)) (isAlarmRinging (alarm w)) |}.
Proof.
  intros H. pose proof (reachable_stable w H) as St.
  apply stable_flags in St as (Fc & _).
  apply clockChanged_false in Fc. unfold hClockDeps, clockDepsOf in Fc.
  unfold clockEntryOf. rewrite Fc. reflexivity.
Qed.

(** In every world the component can be in, the clock interval is
    active: one timer, every 1000 ms, whose callback has captured the
    alarm time and the ringing flag of the current state; the clock
    has no other timer.  No cancellation of another feature removes
    it. *)
Theorem clock_interval_always_active (w : World) :
  reachable w ->
  let tick :=
    {| tid := clockInterval (hooks w); delay := 1000; repeating := true;
       callback := CbClock (alarmTime (alarm w)) (isAlarmRinging (alarm w)) |} in
  findTimer (clockInterval (hooks w)) w = Some tick
  /\ forall e, In e (timers (window w)) -> owner (callback e) = OClock ->
               e = tick.
Proof.
  intros H tick. unfold tick. rewrite <- (clockEntryOf_current w H).
  split; [apply find_clock, H|].
  intros e He Ho. destruct (reachable_ClockLive w H) as [_ L2].
  apply L2, pending_owner; assumption.
Qed.

(** With the alarm set to 07:30 the interval carries that time. *)
Lemma clock_interval_always_active_witness :
  findTimer 2 alarmSet
  = Some {| tid := 2; delay := 1000; repeating := true;
            callback := CbClock (Some "07:30"%string) false |}.
Proof.
  assert (R : reachable alarmSet) by (apply reachable_run, reach_init).
  destruct (clock_interval_always_active alarmSet R) as [H _].
  exact H.
Defined.

Lemma clockTick_nav a r now w :
  currentDateTime (nav (clockTick a r now w)) = now.
Proof.
  unfold clockTick. destruct (truthyString a && negb r); [|reflexivity].
  destruct a as [s|]; [|reflexivity]. destruct (alarmMatches s now); reflexivity.
Qed.

(** A tick of the clock interval shows the time it is given; when an
    alarm is set and not ringing and the time is the alarm time at
    second 0, the alarm rings. *)
Theorem clock_tick_rings_alarm (w : World) (now : Date) (s : string) :
  reachable w ->
  alarmTime (alarm w) = Some s -> s <> EmptyString ->
  isAlarmRinging (alarm w) = false ->
  let w1 := dispatch (TimerFire (clockInterval (hooks w)) now) w in
  currentDateTime (nav w1) = now
  /\ isAlarmRinging (alarm w1) = alarmMatches s now
  /\ alarmTime (alarm w1) = Some s.
Proof.
  intros H Ha Hs Hr w1. unfold w1, dispatch. cbn [enabled]. unfold invoke.
  rewrite rerender_nav, rerender_alarm. cbn [handle].
  unfold fireTimer. rewrite (find_clock w H), (clockEntryOf_current w H).
  cbn [repeating callback runCallback].
  split; [apply clockTick_nav|].
  rewrite clockTick_alarm, Ha, Hr.
  assert (T : truthyString (Some s) = true).
  { destruct s; [destruct Hs; reflexivity|reflexivity]. }
  rewrite T. cbn [negb andb].
  destruct (alarmMatches s now); cbn; rewrite ?Ha, ?Hr; auto.
Qed.

(** The alarm set to 07:30 and the tick of 07:30:00. *)
Lemma clock_tick_rings_alarm_witness :
  isAlarmRinging (alarm alarmSet) = false
  /\ isAlarmRinging (alarm (dispatch (TimerFire 2 t0730) alarmSet)) = true.
Proof.
  assert (R : reachable alarmSet) by (apply reachable_run, reach_init).
  assert (A : alarmTime (alarm alarmSet) = Some "07:30"%string)
    by (vm_compute; reflexivity).
  assert (F : isAlarmRinging (alarm alarmSet) = false)
    by (vm_compute; reflexivity).
  split; [exact F|].
  destruct (clock_tick_rings_alarm alarmSet t0730 "07:30" R A) as (_ & H & _);
    [discriminate|exact F|].
  exact H.
Defined.
(* ================================================================== *)
(** * The timer: its interval is there exactly while it runs *)
(* ================================================================== *)

(* ---------- the timer interval ---------- *)

Lemma TimerLive_foreign o' y y' :
  o' <> OTimer -> Adds o' y y' -> Keeps o' y y' ->
  hTimerDeps y' = hTimerDeps y -> hTimer y' = hTimer y ->
  TimerLive y -> TimerLive y'.
Proof.
  intros Hne Ha Hk Hd Hi L. unfold hTimerDeps, hTimer in *.
  unfold TimerLive in *. rewrite Hd, Hi.
  destruct (timerInterval (hooks y)) as [id|].
  - destruct L as (L0 & L1 & L2). split; [exact L0|]. split.
    + apply Hk; [exact L1|]. cbn. auto.
    + intros e He. apply L2. apply (Adds_pending o' OTimer y y' Ha); auto.
  - destruct L as (L0 & L1). split; [exact L0|].
    assert (I : incl (pending OTimer y') (pending OTimer y))
      by (apply (Adds_pending o' OTimer y y' Ha); auto).
    rewrite L1 in I. destruct (pending OTimer y') as [|e l]; [reflexivity|].
    destruct (I e (or_introl eq_refl)).
Qed.

Lemma timerEffect_TimerLive snap y :
  NoPending OTimer y -> TimerLive (timerEffect snap y).
Proof.
  intros H. unfold NoPending, pending in H.
  assert (N : forall e0 e,
             In e (filter (ownedBy OTimer) (timers (window y) ++ [e0])) ->
             owner (callback e0) = OTimer -> e = e0).
  { intros e0 e He Ho. rewrite filter_app, H in He. cbn in He.
    unfold ownedBy in He. rewrite Ho in He. cbn in He.
    destruct He as [<-|[]]. reflexivity. }
  unfold TimerLive, timerEffect, timerEntryOf, armed, stepOf, pending,
    setInterval, addTimer.
  destruct (isTimerActive (timer snap)); [|cbn; auto].
  destruct (timerMode (timer snap));
    try destruct (0 <? timerSeconds (timer snap)) eqn:S; cbn; rewrite ?S;
    (split; [reflexivity|]);
    first [ exact H
          | split; [apply in_or_app; right; left; reflexivity|];
            intros e He; apply (N _ e He); reflexivity ].
Qed.

Lemma TimerLive_TimerOK w : TimerLive w -> TimerOK w.
Proof.
  unfold TimerLive, TimerOK. intros L e He.
  destruct (timerInterval (hooks w)) as [id|].
  - destruct L as (_ & _ & L2). rewrite (L2 e He). reflexivity.
  - destruct L as (_ & L1). rewrite L1 in He. destruct He.
Qed.

Ltac foreign_timer o' pool keeps :=
  let y := fresh "y" in
  let P := fresh "P" in
  let L := fresh "L" in
  intros y [P L]; split;
  [ apply pool, P
  | apply (TimerLive_foreign o' y);
    [ discriminate | auto with adds | apply keeps; apply P | solve_frame
    | solve_frame | exact L ] ].

Ltac quiet_timer pool :=
  let y := fresh "y" in
  let P := fresh "P" in
  let L := fresh "L" in
  intros y [P L]; split;
  [ apply pool, P | revert L; apply NoPending_shrink; shrinks ].

Lemma commit_TimerLive x :
  Pool x -> TimerLive x -> Pool (commit x) /\ TimerLive (commit x).
Proof.
  intros P L. unfold commit; cbv zeta.
  apply (whenb_pres (fun y => Pool y /\ TimerLive y));
    [foreign_timer OSensor sensorEffect_Pool sensorEffect_keeps|].
  apply (whenb_pres (fun y => Pool y /\ TimerLive y));
    [foreign_timer OAudio audioEffect_Pool audioEffect_keeps|].
  apply (whenb_pres (fun y => Pool y /\ TimerLive y));
    [foreign_timer OVisual visualEffect_Pool visualEffect_keeps|].
  destruct (timerChanged x); rewrite ?whenb_true, ?whenb_false.
  - assert (Q : Pool (whenb (clockChanged x) (clockEffect x)
                   (whenb (sensorChanged x) sensorCleanup
                   (whenb (audioChanged x) audioCleanupFn
                   (whenb (visualChanged x) visualCleanupFn
                   (timerCleanup (whenb (clockChanged x) clockCleanup x))))))
               /\ NoPending OTimer
                    (whenb (clockChanged x) (clockEffect x)
                    (whenb (sensorChanged x) sensorCleanup
                    (whenb (audioChanged x) audioCleanupFn
                    (whenb (visualChanged x) visualCleanupFn
                    (timerCleanup (whenb (clockChanged x) clockCleanup x))))))).
    { apply (whenb_pres (fun y => Pool y /\ NoPending OTimer y));
        [quiet_timer clockEffect_Pool|].
      apply (whenb_pres (fun y => Pool y /\ NoPending OTimer y));
        [quiet_timer sensorCleanup_Pool|].
      apply (whenb_pres (fun y => Pool y /\ NoPending OTimer y));
        [quiet_timer audioCleanupFn_Pool|].
      apply (whenb_pres (fun y => Pool y /\ NoPending OTimer y));
        [quiet_timer visualCleanupFn_Pool|].
      assert (Q0 : Pool (whenb (clockChanged x) clockCleanup x)
                   /\ TimerLive (whenb (clockChanged x) clockCleanup x)).
      { apply (whenb_pres (fun y => Pool y /\ TimerLive y));
          [foreign_timer OClock clockCleanup_Pool clockCleanup_keeps|auto]. }
      destruct Q0 as [Q1 Q2].
      split; [apply timerCleanup_Pool, Q1|].
      apply timerCleanup_clears, TimerLive_TimerOK, Q2. }
    destruct Q as [Q1 Q2].
    split; [apply timerEffect_Pool, Q1|apply timerEffect_TimerLive, Q2].
  - apply (whenb_pres (fun y => Pool y /\ TimerLive y));
      [foreign_timer OClock clockEffect_Pool clockEffect_keeps|].
    apply (whenb_pres (fun y => Pool y /\ TimerLive y));
      [foreign_timer OSensor sensorCleanup_Pool sensorCleanup_keeps|].
    apply (whenb_pres (fun y => Pool y /\ TimerLive y));
      [foreign_timer OAudio audioCleanupFn_Pool audioCleanupFn_keeps|].
    apply (whenb_pres (fun y => Pool y /\ TimerLive y));
      [foreign_timer OVisual visualCleanupFn_Pool visualCleanupFn_keeps|].
    apply (whenb_pres (fun y => Pool y /\ TimerLive y));
      [foreign_timer OClock clockCleanup_Pool clockCleanup_keeps|].
    auto.
Qed.

Lemma handle_TimerLive ev w :
  Pool w -> Struct w -> TimerLive w -> TimerLive (handle ev w).
Proof.
  intros P S L. unfold TimerLive in *. rewrite handle_hooks.
  destruct (timerInterval (hooks w)) as [tid0|] eqn:Ti.
  - destruct L as (L0 & L1 & L2). split; [exact L0|]. split.
    + destruct ev;
        try solve [apply handle_keeps; try assumption; cbn; auto;
                   try (split; discriminate); try discriminate].
      cbn [handle].
      destruct (findTimer id w) as [e0|] eqn:F;
        [|unfold fireTimer; rewrite F; exact L1].
      destruct (Owner_eq_dec (owner (callback e0)) OTimer) as [Ho|Ho].
      * pose proof (findTimer_In id w e0 F) as [He0 _].
        pose proof (L2 e0 (pending_owner OTimer w e0 He0 Ho)) as E0.
        rewrite (fireTimer_interval id now w e0 F);
          [exact L1|rewrite E0; reflexivity|rewrite E0; discriminate
          |rewrite E0; discriminate].
      * apply (fireTimer_survives id now w e0 _ P S F L1). cbn. congruence.
    + intros e He. apply L2. revert He. apply handle_shrink; discriminate.
  - destruct L as (L0 & L1). split; [exact L0|].
    assert (I : incl (pending OTimer (handle ev w)) (pending OTimer w))
      by (apply handle_shrink; discriminate).
    rewrite L1 in I. destruct (pending OTimer (handle ev w)) as [|e l];
      [reflexivity|]. destruct (I e (or_introl eq_refl)).
Qed.

Lemma mount_TimerLive now r a : TimerLive (mount (unmounted now r a)).
Proof. vm_compute. auto. Qed.

Lemma reachable_TimerLive w : reachable w -> TimerLive w.
Proof.
  intros H.
  apply (reachable_invariant
           (fun w => Pool w /\ Struct w /\ TimerLive w)); [| | |exact H].
  - intros now r a. split; [apply mount_Pool|].
    split; [apply Struct_mount|apply mount_TimerLive].
  - intros x (P & S & L). destruct (commit_TimerLive x P L) as [P' L'].
    split; [exact P'|]. split; [apply Struct_commit, S|exact L'].
  - intros x ev _ (P & S & L) _. split; [apply handle_Pool, P|].
    split; [apply Struct_handle, S|apply handle_TimerLive; assumption].
Qed.

(* ---------- a countdown at zero is stopped ---------- *)

Lemma commit_timerDeps_unchanged x :
  timerChanged x = false -> timerDeps (hooks (commit x)) = timerDeps (hooks x).
Proof.
  intros C. pose proof (commit_hTimerDeps x) as H. unfold hTimerDeps in H.
  rewrite H. apply timerChanged_false in C. unfold hTimerDeps in C. auto.
Qed.

Lemma commit_TimerExpiredOK x : TimerExpiredOK x -> TimerExpiredOK (commit x).
Proof.
  intros E s Hd Hs.
  pose proof (commit_hTimerDeps x) as D. unfold hTimerDeps, timerDepsOf in D.
  rewrite Hd in D.
  assert (Da : isTimerActive (timer x) = true) by congruence.
  assert (Dse : timerSeconds (timer x) = s) by congruence.
  assert (Dm : timerMode (timer x) = countdown) by congruence.
  rewrite commit_timer.
  destruct (timerChanged x) eqn:C; cbn [andb].
  - unfold timerExpired. rewrite Da, Dm, Dse.
    assert (Z0 : (0 <? s) = false) by (apply Z.ltb_ge; exact Hs).
    rewrite Z0. reflexivity.
  - apply timerChanged_false in C. unfold hTimerDeps, timerDepsOf in C.
    apply (E s); [|exact Hs]. rewrite C, Da, Dse, Dm. reflexivity.
Qed.

Lemma stable_timerDeps w : stable w -> timerDeps (hooks w) = timerDepsOf w.
Proof.
  intros St. apply stable_flags in St as (_ & Ft & _).
  apply timerChanged_false in Ft. exact Ft.
Qed.

Lemma handle_TimerExpiredOK ev w :
  stable w -> TimerExpiredOK w -> TimerExpiredOK (handle ev w).
Proof.
  intros St E s Hd Hs. rewrite handle_hooks in Hd.
  pose proof (E s Hd Hs) as A.
  rewrite (stable_timerDeps w St) in Hd. unfold timerDepsOf in Hd. congruence.
Qed.

Lemma reachable_TimerExpiredOK w : reachable w -> TimerExpiredOK w.
Proof.
  apply (reachable_invariant TimerExpiredOK).
  - intros now r a s Hd. vm_compute in Hd. discriminate.
  - apply commit_TimerExpiredOK.
  - intros x ev R E _. apply handle_TimerExpiredOK; [apply reachable_stable, R|exact E].
Qed.

(** A running countdown has time left. *)
Lemma running_countdown_positive w :
  reachable w -> isTimerActive (timer w) = true ->
  timerMode (timer w) = countdown -> 0 < timerSeconds (timer w).
Proof.
  intros R A M. pose proof (reachable_TimerExpiredOK w R (timerSeconds (timer w))) as E.
  rewrite (stable_timerDeps w (reachable_stable w R)) in E.
  unfold timerDepsOf in E. rewrite A, M in E.
  destruct (Z.lt_ge_cases 0 (timerSeconds (timer w))) as [H|H]; [exact H|].
  specialize (E eq_refl H). discriminate.
Qed.

Lemma find_timer w id :
  reachable w -> timerInterval (hooks w) = Some id ->
  findTimer id w = Some (timerEntryOf id (timerDepsOf w)).
Proof.
  intros R Ti. pose proof (reachable_TimerLive w R) as L. unfold TimerLive in L.
  rewrite Ti, (stable_timerDeps w (reachable_stable w R)) in L.
  destruct L as (_ & L1 & L2).
  destruct (findTimer_ex id w _ L1 eq_refl) as (e' & F & He' & Ht).
  rewrite F. f_equal. apply L2. apply pending_owner; [exact He'|].
  destruct (reachable_Pool w R) as [_ [_ Hs]].
  apply (Hs OTimer e' He'). rewrite Ht. unfold refIds. rewrite Ti.
  left. reflexivity.
Qed.

(** The timer interval exists exactly while the timer is running. *)
Lemma timer_interval_iff w :
  reachable w ->
  (isTimerActive (timer w) = true <-> timerInterval (hooks w) <> None).
Proof.
  intros R. pose proof (reachable_TimerLive w R) as L. unfold TimerLive in L.
  rewrite (stable_timerDeps w (reachable_stable w R)) in L.
  unfold timerDepsOf, armed in L.
  destruct (timerInterval (hooks w)) as [id|].
  - destruct L as (L0 & _). split; [discriminate|intros _].
    destruct (isTimerActive (timer w)); [reflexivity|discriminate].
  - destruct L as (L0 & _). split; [|intros H; destruct H; reflexivity].
    intros A. exfalso. rewrite A in L0. cbn in L0.
    destruct (timerMode (timer w)) eqn:M; try discriminate.
    apply Z.ltb_ge in L0.
    pose proof (running_countdown_positive w R A M). lia.
Qed.

(* ---------- what a tick of the timer does ---------- *)

Lemma rerender_timer_due x :
  timerChanged x = true ->
  timer (rerender x)
  = if timerExpired (timer x) then expire (timer x) else timer x.
Proof.
  intros C.
  assert (T1 : timer (commit x)
               = if timerExpired (timer x) then expire (timer x) else timer x).
  { rewrite commit_timer, C. reflexivity. }
  destruct (rerender_cases x) as [[S _]|[[_ ->]| ->]].
  - apply stable_flags in S as (_ & S & _). congruence.
  - exact T1.
  - rewrite commit_timer, T1.
    destruct (timerExpired (timer x)) eqn:E.
    + unfold timerExpired at 1. cbn. rewrite andb_false_r. reflexivity.
    + rewrite E, andb_false_r. reflexivity.
Qed.


Lemma stepOf_nonzero m : stepOf m <> 0.
Proof. destruct m; discriminate. Qed.

Lemma tick_due w d :
  stable w -> d <> 0 ->
  timerChanged (on_timer (fun t => setTimerSeconds (timerSeconds t + d) t) w)
  = true.
Proof.
  intros St Hd.
  destruct (on_timer_due w (fun t => setTimerSeconds (timerSeconds t + d) t) St)
    as (_ & _ & _ & _ & H); [|exact H].
  unfold timerDepsOf. cbn. intros [= E]. lia.
Qed.

Lemma running_timer_interval w :
  reachable w -> isTimerActive (timer w) = true ->
  exists id, timerInterval (hooks w) = Some id.
Proof.
  intros R A. apply (timer_interval_iff w R) in A.
  destruct (timerInterval (hooks w)) as [id|]; [exists id; reflexivity|].
  destruct A; reflexivity.
Qed.

Lemma tick_unfold w id now :
  reachable w -> timerInterval (hooks w) = Some id ->
  dispatch (TimerFire id now) w
  = rerender (on_timer (fun t => setTimerSeconds
                                   (timerSeconds t + stepOf (timerMode (timer w))) t) w).
Proof.
  intros R Ti. unfold dispatch. cbn [enabled]. unfold invoke. cbn [handle].
  unfold fireTimer. rewrite (find_timer w id R Ti). reflexivity.
Qed.

(** A tick of the interval of a running timer: the stopwatch gains a
    second; the countdown loses one, and the countdown that reaches
    zero stops and is finished. *)
Theorem timer_tick_counts (w : World) :
  reachable w -> isTimerActive (timer w) = true ->
  exists id,
    timerInterval (hooks w) = Some id
    /\ forall now,
         timer (dispatch (TimerFire id now) w)
         = match timerMode (timer w) with
           | stopwatch => setTimerSeconds (timerSeconds (timer w) + 1) (timer w)
           | countdown =>
               if timerSeconds (timer w) =? 1 then countdownDone
               else setTimerSeconds (timerSeconds (timer w) - 1) (timer w)
           end.
Proof.
  intros R A. destruct (running_timer_interval w R A) as [id Ti].
  exists id. split; [exact Ti|]. intros now.
  rewrite (tick_unfold w id now R Ti).
  rewrite rerender_timer_due
    by (apply tick_due; [apply reachable_stable, R|apply stepOf_nonzero]).
  unfold timerExpired, expire. cbn. rewrite A. cbn [andb].
  destruct (timerMode (timer w)) eqn:M; cbn; [reflexivity|].
  pose proof (running_countdown_positive w R A M) as Pos.
  destruct (timerSeconds (timer w) =? 1) eqn:E1.
  - apply Z.eqb_eq in E1. rewrite E1. cbn.
    unfold countdownDone, setTimerFinished, setIsTimerActive, setTimerSeconds.
    cbn. rewrite M. reflexivity.
  - apply Z.eqb_neq in E1.
    assert (Z1 : (0 <? timerSeconds (timer w) + -1) = true)
      by (apply Z.ltb_lt; lia).
    rewrite Z1. cbn. reflexivity.
Qed.

(** The stopwatch at 2 seconds. *)
Lemma timer_tick_counts_witness :
  timer stopwatchRunning
  = {| timerSeconds := 2; isTimerActive := true; timerFinished := false;
       timerMode := stopwatch |}
  /\ exists id,
       timerInterval (hooks stopwatchRunning) = Some id
       /\ forall now,
            timer (dispatch (TimerFire id now) stopwatchRunning)
            = {| timerSeconds := 3; isTimerActive := true;
                 timerFinished := false; timerMode := stopwatch |}.
Proof.
  assert (T : timer stopwatchRunning
              = {| timerSeconds := 2; isTimerActive := true;
                   timerFinished := false; timerMode := stopwatch |})
    by (vm_compute; reflexivity).
  split; [exact T|].
  destruct (timer_tick_counts stopwatchRunning) as (id & Hi & Ht).
  - apply reachable_run, reachable_run, reach_init.
  - rewrite T. reflexivity.
  - exists id. split; [exact Hi|]. intros now. rewrite (Ht now), T. reflexivity.
Defined.

(** While the timer is not running, no timer that fires changes it:
    pausing or stopping left no interval behind. *)
Theorem stopped_timer_ignores_ticks (w : World) (id : nat) (now : Date) :
  reachable w -> isTimerActive (timer w) = false ->
  timer (dispatch (TimerFire id now) w) = timer w.
Proof.
  intros R A. apply idle_timer_untouched; [exact R|exact A|].
  destruct (timerInterval (hooks w)) as [i|] eqn:Ti; [|reflexivity].
  assert (H : isTimerActive (timer w) = true)
    by (apply (timer_interval_iff w R); rewrite Ti; discriminate).
  congruence.
Qed.

(** The timer panel before anything was started. *)
Lemma stopped_timer_ignores_ticks_witness :
  isTimerActive (timer timerShown) = false
  /\ timer (dispatch (TimerFire 1 t0730) timerShown) = timer timerShown.
Proof.
  assert (A : isTimerActive (timer timerShown) = false)
    by (vm_compute; reflexivity).
  split; [exact A|].
  apply (stopped_timer_ignores_ticks timerShown 1 t0730);
    [apply reachable_run, reach_init|exact A].
Defined.

(* ---------- the seconds are never negative ---------- *)

Lemma fireTimer_seconds id now w :
  reachable w -> 0 <= timerSeconds (timer w) ->
  0 <= timerSeconds (timer (fireTimer id now w)).
Proof.
  intros R H. unfold fireTimer.
  destruct (findTimer id w) as [e|] eqn:F; [|exact H].
  apply findTimer_In in F as [He _].
  assert (E : 0 <= timerSeconds (timer (runCallback (callback e) now w))).
  { destruct (callback e) as [a r|d|b| |d| |r] eqn:Cb; cbn [runCallback];
      try (match goal with
           | |- 0 <= timerSeconds (timer ?y) =>
               replace (timer y) with (timer w)
                 by (symmetry; unfold_handlers; solve_frame);
               exact H
           end).
    pose proof (reachable_TimerLive w R) as L. unfold TimerLive in L.
    rewrite (stable_timerDeps w (reachable_stable w R)) in L.
    assert (Hp : In e (pending OTimer w))
      by (apply pending_owner; [exact He|rewrite Cb; reflexivity]).
    destruct (timerInterval (hooks w)) as [i|].
    - destruct L as (L0 & _ & L2). rewrite (L2 e Hp) in Cb.
      unfold timerEntryOf, timerDepsOf in Cb. cbn in Cb. injection Cb as <-.
      unfold timerDepsOf, armed in L0. cbn.
      destruct (isTimerActive (timer w)); [|discriminate]. cbn in L0.
      destruct (timerMode (timer w)); cbn; try apply Z.ltb_lt in L0; lia.
    - destruct L as (_ & L1). rewrite L1 in Hp. destruct Hp. }
  destruct (repeating e); exact E.
Qed.

Lemma handleBackClick_seconds w :
  timerSeconds (timer (handleBackClick w)) = timerSeconds (timer w).
Proof. back_frame w. Qed.

Lemma runListener_timer l e w : timer (runListener l e w) = timer w.
Proof.
  destruct l; cbn [runListener]; solve_frame.
Qed.

Lemma deviceorientation_timer e w : timer (deviceorientation e w) = timer w.
Proof.
  unfold deviceorientation. generalize (listeners (window w)).
  intros ls. revert w. induction ls as [|l ls IH]; intros w; simpl; [reflexivity|].
  rewrite IH. unfold deliver.
  destruct (existsb _ _); [apply runListener_timer|reflexivity].
Qed.

Lemma handle_seconds ev w :
  reachable w -> enabled ev w = true -> 0 <= timerSeconds (timer w) ->
  0 <= timerSeconds (timer (handle ev w)).
Proof.
  intros R En H. destruct ev; cbn [handle];
    try (match goal with
         | |- 0 <= timerSeconds (timer ?y) =>
             replace (timer y) with (timer w)
               by (symmetry; unfold_handlers; solve_frame);
             exact H
         end).
  - rewrite handleBackClick_seconds. exact H.
  - unfold handleStartStop. cbn. repeat (break_inner; cbn); exact H.
  - cbn. lia.
  - cbn. cbn [enabled] in En. rewrite !andb_true_iff, !orb_true_iff in En.
    destruct En as [_ [[E|E]|E]]; apply Z.eqb_eq in E; lia.
  - apply fireTimer_seconds; assumption.
  - rewrite deviceorientation_timer. exact H.
Qed.

(** The timer never shows a negative number of seconds. *)
Theorem timer_seconds_never_negative (w : World) :
  reachable w -> 0 <= timerSeconds (timer w).
Proof.
  intros R. induction R as [now r a|w ev R IH].
  - unfold initialWorld. rewrite rerender_timerSeconds. cbn. lia.
  - unfold dispatch. destruct (enabled ev w) eqn:En; [|exact IH].
    unfold invoke. rewrite rerender_timerSeconds.
    apply handle_seconds; assumption.
Qed.

Lemma timer_seconds_never_negative_witness :
  0 <= timerSeconds (timer timerRunning).
Proof.
  apply (timer_seconds_never_negative timerRunning).
  apply reachable_run, reachable_run, reach_init.
Defined.

(* ---------- pause and resume ---------- *)



(* ================================================================== *)
(** * Orientation readings *)
(* ================================================================== *)

Lemma runCallback_requestPermission cb now w :
  requestPermissionOf (runCallback cb now w) = requestPermissionOf w.
Proof. destruct cb; cbn [runCallback]; unfold_handlers; solve_frame. Qed.

Lemma fireTimer_requestPermission id now w :
  requestPermissionOf (fireTimer id now w) = requestPermissionOf w.
Proof.
  unfold fireTimer. destruct (findTimer id w) as [e|]; [|reflexivity].
  destruct (repeating e);
    [|change (requestPermissionOf (clearTimeout id ?x))
        with (requestPermissionOf x)];
    apply runCallback_requestPermission.
Qed.

Lemma runListener_requestPermission l e w :
  requestPermissionOf (runListener l e w) = requestPermissionOf w.
Proof. destruct l; cbn [runListener]; solve_frame. Qed.

Lemma deviceorientation_requestPermission e w :
  requestPermissionOf (deviceorientation e w) = requestPermissionOf w.
Proof.
  unfold deviceorientation. generalize (listeners (window w)).
  intros ls. revert w. induction ls as [|l ls IH]; intros w; simpl; [reflexivity|].
  rewrite IH. unfold deliver.
  destruct (existsb _ _); [apply runListener_requestPermission|reflexivity].
Qed.

Lemma handleBackClick_requestPermission w :
  requestPermissionOf (handleBackClick w) = requestPermissionOf w.
Proof. back_frame w. Qed.

(** No handler changes what the platform offers. *)
Lemma handle_requestPermission ev w :
  requestPermissionOf (handle ev w) = requestPermissionOf w.
Proof.
  destruct ev; cbn [handle];
    first [ apply handleBackClick_requestPermission
          | apply fireTimer_requestPermission
          | apply deviceorientation_requestPermission
          | unfold_handlers; solve_frame ].
Qed.

(* ---------- the permission state ---------- *)

Lemma commit_PermOK x : PermOK x -> PermOK (commit x).
Proof.
  intros H _. unfold Negotiated.
  pose proof (commit_permission x) as Pm. unfold permissionStateOf in Pm.
  pose proof (commit_requestPermission x) as Rq. unfold requestPermissionOf in Rq.
  pose proof (commit_sensorSupportState x) as Su. unfold sensorSupportStateOf in Su.
  rewrite Rq, commit_nav, Su, Pm.
  destruct (sensorChanged x) eqn:C.
  - rewrite negotiate_idem. reflexivity.
  - apply H. exact C.
Qed.

Lemma stable_sensorDeps w : stable w -> sensorDeps (hooks w) = sensorDepsOf w.
Proof.
  intros St. apply stable_flags in St as (_ & _ & _ & _ & Fs).
  apply sensorChanged_false in Fs. exact Fs.
Qed.

Lemma handle_PermOK ev w : stable w -> PermOK w -> PermOK (handle ev w).
Proof.
  intros St H C. apply sensorChanged_false in C.
  unfold hSensorDeps in C. rewrite handle_hooks, (stable_sensorDeps w St) in C.
  unfold sensorDepsOf in C. injection C as C1 C2 C3.
  pose proof (handle_requestPermission ev w) as Rq.
  unfold requestPermissionOf in Rq.
  unfold Negotiated. rewrite Rq, <- C1, <- C2, <- C3.
  apply H. apply stable_flags in St. apply St.
Qed.

Lemma mount_PermOK now r a : PermOK (mount (unmounted now r a)).
Proof. intros _. reflexivity. Qed.

Lemma reachable_Negotiated w : reachable w -> Negotiated w.
Proof.
  intros R.
  assert (P : PermOK w).
  { revert w R. apply (reachable_invariant PermOK).
    - apply mount_PermOK.
    - apply commit_PermOK.
    - intros x ev R P _. apply handle_PermOK; [apply reachable_stable, R|exact P]. }
  apply P. pose proof (reachable_stable w R) as St.
  apply stable_flags in St. apply St.
Qed.

(* ---------- the orientation listener ---------- *)

Lemma HandlerOK_frame w w' :
  listenersOf w' = listenersOf w -> hSensorDeps w' = hSensorDeps w ->
  requestPermissionOf w' = requestPermissionOf w ->
  HandlerOK w -> HandlerOK w'.
Proof.
  unfold HandlerOK, listenersOf, hSensorDeps, requestPermissionOf.
  intros -> -> ->. auto.
Qed.

Lemma HandlerOK_shrink w w' :
  incl (listenersOf w') (listenersOf w) -> hSensorDeps w' = hSensorDeps w ->
  requestPermissionOf w' = requestPermissionOf w ->
  HandlerOK w -> HandlerOK w'.
Proof.
  unfold HandlerOK, listenersOf, hSensorDeps, requestPermissionOf.
  intros Hi -> -> H r Hr. apply (H r), Hi, Hr.
Qed.

Lemma NoHandle_HandlerOK w : NoHandle w -> HandlerOK w.
Proof. intros H r Hr. destruct (H r Hr). Qed.

(** When a run of the sensor effect registers [handleOrientation]. *)
Lemma sensorEffect_handle snap y r :
  In (LHandle r) (listenersOf (sensorEffect snap y)) ->
  In (LHandle r) (listenersOf y)
  \/ (isSensorHologram (activeHologram (nav snap)) = true
      /\ sensorSupportState (sensor snap) = supported
      /\ (requestPermissionIsFunction (window y) = true ->
          permissionState (sensor snap) = granted)).
Proof.
  unfold sensorEffect, sensorCheck, sensorListen.
  set (run := S (sensorRun (hooks y))).
  destruct (isSensorHologram (activeHologram (nav snap))); [|auto].
  destruct (sensorSupportState (sensor snap)).
  - intros Hr.
    change (In (LHandle r) (listenersOf (addEventListener (LDetect run) y))) in Hr.
    apply addEventListener_inv in Hr as [Hr|Hr]; [auto|discriminate].
  - destruct (requestPermissionIsFunction (window y)).
    + destruct (permissionState (sensor snap)); auto.
    + intros Hr. right. split; [reflexivity|]. split; [reflexivity|].
      discriminate.
  - auto.
Qed.

Lemma sensorEffect_HandlerOK snap y :
  NoHandle y -> HandlerOK (sensorEffect snap y).
Proof.
  intros H r Hr. fold (listenersOf (sensorEffect snap y)) in Hr.
  apply sensorEffect_handle in Hr as [Hr|(H1 & H2 & H3)]; [destruct (H r Hr)|].
  assert (E : sensorDeps (hooks (sensorEffect snap y))
              = (activeHologram (nav snap), sensorSupportState (sensor snap),
                 permissionState (sensor snap))) by reflexivity.
  assert (Rq : requestPermissionOf (sensorEffect snap y) = requestPermissionOf y)
    by solve_frame.
  unfold requestPermissionOf in Rq. rewrite E, Rq. cbn [fst snd]. auto.
Qed.

Ltac keeps_handler := intros y; apply HandlerOK_frame; solve_frame.

Lemma commit_HandlerOK x :
  ListenOK x -> HandlerOK x -> HandlerOK (commit x).
Proof.
  intros L H. unfold commit; cbv zeta.
  destruct (sensorChanged x); rewrite ?whenb_true, ?whenb_false.
  - apply sensorEffect_HandlerOK.
    do 4 (apply whenb_pres; [keeps_nohandle|]).
    apply sensorCleanup_NoHandle.
    do 4 (apply whenb_pres; [keeps_handle|]).
    exact L.
  - do 8 (apply whenb_pres; [keeps_handler|]). exact H.
Qed.

Lemma runCallback_listeners cb now w :
  incl (listenersOf (runCallback cb now w)) (listenersOf w).
Proof.
  destruct cb as [a r|d|b| |d| |r]; cbn [runCallback];
    try (match goal with
         | |- incl (listenersOf ?y) _ =>
             replace (listenersOf y) with (listenersOf w)
               by (symmetry; unfold_handlers; solve_frame);
             apply incl_refl
         end).
  apply (removeEventListener_incl (LDetect r)
           (on_sensor (setSensorSupportState unsupported) w)).
Qed.

Lemma fireTimer_listeners id now w :
  incl (listenersOf (fireTimer id now w)) (listenersOf w).
Proof.
  unfold fireTimer. destruct (findTimer id w) as [e|]; [|apply incl_refl].
  destruct (repeating e);
    [|change (listenersOf (clearTimeout id ?x)) with (listenersOf x)];
    apply runCallback_listeners.
Qed.

Lemma deviceorientation_listeners e w :
  incl (listenersOf (deviceorientation e w)) (listenersOf w).
Proof.
  unfold deviceorientation. generalize (listeners (window w)).
  intros ls. revert w.
  induction ls as [|l ls IH]; intros w; cbn [fold_left]; [apply incl_refl|].
  eapply incl_tran; [apply IH|]. unfold deliver.
  destruct (existsb _ _); [apply runListener_incl|apply incl_refl].
Qed.

(** No handler registers a listener. *)
Lemma handle_listeners ev w :
  incl (listenersOf (handle ev w)) (listenersOf w).
Proof.
  destruct ev; cbn [handle];
    first [ rewrite handleBackClick_listeners; apply incl_refl
          | apply fireTimer_listeners
          | apply deviceorientation_listeners
          | match goal with
            | |- incl (listenersOf ?y) _ =>
                replace (listenersOf y) with (listenersOf w)
                  by (symmetry; unfold_handlers; solve_frame);
                apply incl_refl
            end ].
Qed.

Lemma handle_HandlerOK ev w : HandlerOK w -> HandlerOK (handle ev w).
Proof.
  apply HandlerOK_shrink;
    [apply handle_listeners|unfold hSensorDeps; rewrite handle_hooks; reflexivity
    |apply handle_requestPermission].
Qed.

Lemma reachable_HandlerOK w : reachable w -> HandlerOK w.
Proof.
  intros H.
  apply (reachable_invariant (fun w => ListenOK w /\ HandlerOK w)); [| | |exact H].
  - intros now r a. split; intros x Hx; destruct Hx.
  - intros x [L K]. split; [apply commit_ListenOK, L|apply commit_HandlerOK; assumption].
  - intros x ev _ [L K] _. split; [apply ListenOK_handle, L|apply handle_HandlerOK, K].
Qed.

(** [handleOrientation] is subscribed to orientation events only while
    a sensor feature is shown, the capability is supported and the
    permission is granted. *)
Lemma handler_only_when_granted (w : World) (r : nat) :
  reachable w -> In (LHandle r) (listeners (window w)) ->
  isSensorHologram (activeHologram (nav w)) = true
  /\ sensorSupportState (sensor w) = supported
  /\ permissionState (sensor w) = granted.
Proof.
  intros R Hr. destruct (reachable_HandlerOK w R r Hr) as (H1 & H2 & H3).
  rewrite (stable_sensorDeps w (reachable_stable w R)) in H1, H2, H3.
  unfold sensorDepsOf in H1, H2, H3. cbn [fst snd] in H1, H2, H3.
  split; [exact H1|]. split; [exact H2|].
  destruct (requestPermissionIsFunction (window w)) eqn:Rq; [auto|].
  pose proof (reachable_Negotiated w R) as N. unfold Negotiated in N.
  rewrite Rq, H2 in N. unfold negotiate in N. rewrite H1 in N. exact N.
Qed.

(* ---------- the listener is there while the instrument is shown ---------- *)

Lemma HandlerLive_frame w w' :
  listenersOf w' = listenersOf w -> hSensorDeps w' = hSensorDeps w ->
  sensorRun (hooks w') = sensorRun (hooks w) ->
  requestPermissionOf w' = requestPermissionOf w ->
  HandlerLive w -> HandlerLive w'.
Proof.
  unfold HandlerLive, listenersOf, hSensorDeps, requestPermissionOf.
  intros -> -> -> ->. auto.
Qed.

Lemma sensorEffect_HandlerLive snap y : HandlerLive (sensorEffect snap y).
Proof.
  unfold HandlerLive.
  assert (E : sensorDeps (hooks (sensorEffect snap y))
              = (activeHologram (nav snap), sensorSupportState (sensor snap),
                 permissionState (sensor snap))) by reflexivity.
  assert (Rn : sensorRun (hooks (sensorEffect snap y)) = S (sensorRun (hooks y)))
    by reflexivity.
  assert (Rq : requestPermissionOf (sensorEffect snap y) = requestPermissionOf y)
    by solve_frame.
  unfold requestPermissionOf in Rq. rewrite E, Rn, Rq. cbn [fst snd].
  intros H1 H2 H3. fold (listenersOf (sensorEffect snap y)).
  unfold sensorEffect, sensorCheck, sensorListen. rewrite H1, H2.
  destruct (requestPermissionIsFunction (window y)) eqn:Q.
  - rewrite (H3 eq_refl).
    apply (addEventListener_In (LHandle (S (sensorRun (hooks y)))) y).
  - apply (addEventListener_In (LHandle (S (sensorRun (hooks y))))
             (on_sensor (setPermissionState granted) y)).
Qed.

Ltac keeps_live := intros y; apply HandlerLive_frame; solve_frame.

Lemma commit_HandlerLive x : HandlerLive x -> HandlerLive (commit x).
Proof.
  intros H. unfold commit; cbv zeta.
  destruct (sensorChanged x); rewrite ?whenb_true, ?whenb_false.
  - apply sensorEffect_HandlerLive.
  - do 8 (apply whenb_pres; [keeps_live|]). exact H.
Qed.

Lemma removeDetect_keeps r r' w :
  In (LHandle r) (listenersOf w) ->
  In (LHandle r) (listenersOf (removeEventListener (LDetect r') w)).
Proof.
  intros H. unfold removeEventListener, listenersOf. simpl.
  apply filter_In. split; [exact H|reflexivity].
Qed.

Lemma runCallback_keeps_handle cb now w r :
  In (LHandle r) (listenersOf w) ->
  In (LHandle r) (listenersOf (runCallback cb now w)).
Proof.
  intros H.
  destruct cb as [a r0|d|b| |d| |r0]; cbn [runCallback];
    try (match goal with
         | |- In _ (listenersOf ?y) =>
             replace (listenersOf y) with (listenersOf w)
               by (symmetry; unfold_handlers; solve_frame);
             exact H
         end).
  apply (removeDetect_keeps r r0
           (on_sensor (setSensorSupportState unsupported) w)). exact H.
Qed.

Lemma fireTimer_keeps_handle id now w r :
  In (LHandle r) (listenersOf w) ->
  In (LHandle r) (listenersOf (fireTimer id now w)).
Proof.
  intros H. unfold fireTimer. destruct (findTimer id w) as [e|]; [|exact H].
  destruct (repeating e);
    [|change (listenersOf (clearTimeout id ?x)) with (listenersOf x)];
    apply runCallback_keeps_handle, H.
Qed.

Lemma runListener_keeps_handle l e w r :
  In (LHandle r) (listenersOf w) ->
  In (LHandle r) (listenersOf (runListener l e w)).
Proof.
  intros H. destruct l as [r0|r0]; [|exact H].
  rewrite runListener_detect_listeners. apply filter_In.
  split; [exact H|reflexivity].
Qed.

Lemma deliver_keeps_handle e w l r :
  In (LHandle r) (listenersOf w) ->
  In (LHandle r) (listenersOf (deliver e w l)).
Proof.
  intros H. unfold deliver.
  destruct (existsb _ _); [apply runListener_keeps_handle, H|exact H].
Qed.

Lemma deviceorientation_keeps_handle e w r :
  In (LHandle r) (listenersOf w) ->
  In (LHandle r) (listenersOf (deviceorientation e w)).
Proof.
  unfold deviceorientation. generalize (listeners (window w)).
  intros ls. revert w.
  induction ls as [|l ls IH]; intros w H; cbn [fold_left]; [exact H|].
  apply IH, deliver_keeps_handle, H.
Qed.

(** No handler removes [handleOrientation]. *)
Lemma handle_keeps_handle ev w r :
  In (LHandle r) (listenersOf w) ->
  In (LHandle r) (listenersOf (handle ev w)).
Proof.
  intros H. destruct ev; cbn [handle];
    first [ rewrite handleBackClick_listeners; exact H
          | apply fireTimer_keeps_handle, H
          | apply deviceorientation_keeps_handle, H
          | match goal with
            | |- In _ (listenersOf ?y) =>
                replace (listenersOf y) with (listenersOf w)
                  by (symmetry; unfold_handlers; solve_frame);
                exact H
            end ].
Qed.

Lemma handle_HandlerLive ev w : HandlerLive w -> HandlerLive (handle ev w).
Proof.
  unfold HandlerLive. intros H.
  pose proof (handle_requestPermission ev w) as Rq.
  unfold requestPermissionOf in Rq. rewrite handle_hooks, Rq.
  intros H1 H2 H3. apply (handle_keeps_handle ev w), H; assumption.
Qed.

Lemma reachable_HandlerLive w : reachable w -> HandlerLive w.
Proof.
  apply (reachable_invariant HandlerLive).
  - intros now r a H1. discriminate H1.
  - apply commit_HandlerLive.
  - intros x ev _ H _. apply handle_HandlerLive, H.
Qed.

(* ---------- what an event does to the reading ---------- *)

Lemma runListener_orientation l e w :
  orientationOf (runListener l e w)
  = match l with
    | LDetect _ => orientationOf w
    | LHandle _ => reading e
    end.
Proof. destruct l; cbn [runListener]; [solve_frame|reflexivity]. Qed.

Lemma deliver_reading e r ls : forall w,
  In (LHandle r) (listenersOf w) ->
  In (LHandle r) ls \/ orientationOf w = reading e ->
  orientationOf (fold_left (deliver e) ls w) = reading e.
Proof.
  induction ls as [|l ls IH]; intros w Hr H; cbn [fold_left].
  - destruct H as [[]|H]. exact H.
  - apply IH; [apply deliver_keeps_handle, Hr|].
    unfold deliver.
    destruct (existsb (Listener_eqb l) (listeners (window w))) eqn:E.
    + rewrite runListener_orientation. destruct l as [r0|r0]; [|auto].
      destruct H as [[H|H]|H]; [discriminate|auto|auto].
    + destruct H as [[H|H]|H]; [|auto|auto].
      exfalso. subst l.
      assert (X : existsb (Listener_eqb (LHandle r)) (listeners (window w)) = true).
      { apply existsb_exists. exists (LHandle r). split; [exact Hr|].
        apply Listener_eqb_eq. reflexivity. }
      congruence.
Qed.

Lemma deliver_unread e ls : forall w,
  (forall r, ~ In (LHandle r) ls) ->
  orientationOf (fold_left (deliver e) ls w) = orientationOf w.
Proof.
  induction ls as [|l ls IH]; intros w H; cbn [fold_left]; [reflexivity|].
  rewrite IH by (intros r Hr; apply (H r); right; exact Hr).
  unfold deliver. destruct (existsb _ _); [|reflexivity].
  rewrite runListener_orientation. destruct l as [r0|r0]; [reflexivity|].
  destruct (H r0). left. reflexivity.
Qed.

Lemma rerender_orientation x : orientationOf (rerender x) = orientationOf x.
Proof. apply rerender_frame, commit_orientation. Qed.

(** While a sensor feature is shown with the capability supported and
    the permission granted, an orientation event is taken over: the
    state holds its three angles, a missing one as 0. *)
Theorem orientation_event_taken (w : World) (e : DeviceOrientationEvent) :
  reachable w ->
  isSensorHologram (activeHologram (nav w)) = true ->
  sensorSupportState (sensor w) = supported ->
  permissionState (sensor w) = granted ->
  orientation (sensor (dispatch (DeviceOrientation e) w))
  = {| alpha := orDefault (ev_alpha e);
       beta := orDefault (ev_beta e);
       gamma := orDefault (ev_gamma e) |}.
Proof.
  intros R H1 H2 H3. unfold dispatch. cbn [enabled]. unfold invoke. cbn [handle].
  fold (orientationOf (rerender (deviceorientation e w))).
  rewrite rerender_orientation.
  pose proof (reachable_HandlerLive w R) as L. unfold HandlerLive in L.
  rewrite (stable_sensorDeps w (reachable_stable w R)) in L.
  unfold sensorDepsOf in L. cbn [fst snd] in L.
  specialize (L H1 H2 (fun _ => H3)).
  apply (deliver_reading e (sensorRun (hooks w))); [exact L|left; exact L].
Qed.

(** The compass with the permission granted takes a heading of 1. *)
Lemma orientation_event_taken_witness :
  orientation (sensor (dispatch (DeviceOrientation heading) compassGranted))
  = {| alpha := 1; beta := 0; gamma := 0 |}.
Proof.
  apply (orientation_event_taken compassGranted heading);
    [apply reachable_run, reach_init|vm_compute; reflexivity..].
Defined.

(** Unless a sensor feature is shown with the capability supported and
    the permission granted, an orientation event leaves the stored
    angles as they are: no reading is taken outside a sensor feature,
    before the capability is known or without the permission. *)
Theorem orientation_event_ignored (w : World) (e : DeviceOrientationEvent) :
  reachable w ->
  ~ (isSensorHologram (activeHologram (nav w)) = true
     /\ sensorSupportState (sensor w) = supported
     /\ permissionState (sensor w) = granted) ->
  orientation (sensor (dispatch (DeviceOrientation e) w))
  = orientation (sensor w).
Proof.
  intros R H. unfold dispatch. cbn [enabled]. unfold invoke. cbn [handle].
  fold (orientationOf (rerender (deviceorientation e w))).
  rewrite rerender_orientation.
  apply deliver_unread. intros r Hr. apply H.
  apply (handler_only_when_granted w r R Hr).
Qed.

(** The spirit level while it is still detecting. *)
Lemma orientation_event_ignored_witness :
  sensorSupportState (sensor levelChecking) = checking
  /\ orientation (sensor (dispatch (DeviceOrientation heading) levelChecking))
     = orientation (sensor levelChecking).
Proof.
  assert (S : sensorSupportState (sensor levelChecking) = checking)
    by (vm_compute; reflexivity).
  split; [exact S|].
  apply (orientation_event_ignored levelChecking heading).
  - apply reachable_run, reach_init.
  - intros (_ & H & _). rewrite S in H. discriminate H.
Defined.

(* ---------- what a sensor feature shows ---------- *)


